(** * Keyboard firmware loader: a shallow embedding of [src/index.ts]

    The script lists firmware archives, extracts the two firmware images,
    waits for each keyboard half to show up as a mass-storage volume and
    copies the image onto it with retries.  The development below embeds

    - the JavaScript library functions the script relies on
      ([String.prototype.endsWith], [RegExp.prototype.test] for the two
      firmware patterns, [path.basename], [path.join], a stable
      [Array.prototype.sort]),
    - an in-memory file system with the [fs-extra] operations the script
      calls, driven by an external environment (devices appear and
      disappear while the script sleeps or waits for the operator),
    - the script's own functions, in a state-and-exception monad,

    and then states and proves the properties of the script. *)

From Stdlib Require Import ZArith List Bool Ascii String Lia.
From Stdlib Require Import Permutation Sorted.
From Stdlib Require Import Numbers.DecimalString.
Import ListNotations.

Local Open Scope string_scope.
Local Open Scope list_scope.

(* ================================================================== *)
(** * JavaScript strings *)
(* ================================================================== *)

(** A JavaScript string is modelled by a [string]; its characters stand
    for the code units below 256.  Most functions work on the list of
    characters. *)

Module Js.

Definition chars (s : string) : list ascii := list_ascii_of_string s.
Definition str (l : list ascii) : string := string_of_list_ascii l.

Definition ascii_eqb (a b : ascii) : bool := Ascii.eqb a b.

Fixpoint chars_eqb (l1 l2 : list ascii) : bool :=
  match l1, l2 with
  | [], [] => true
  | a :: l1', b :: l2' => ascii_eqb a b && chars_eqb l1' l2'
  | _, _ => false
  end.

(** [s.endsWith(suffix)]: the last [suffix.length] characters of [s] are
    [suffix]; false when [suffix] is longer than [s]. *)
Definition endsWith (s suffix : string) : bool :=
  let cs := chars s in
  let cf := chars suffix in
  if Nat.leb (List.length cf) (List.length cs)
  then chars_eqb (skipn (List.length cs - List.length cf) cs) cf
  else false.

(** Decimal rendering of a number, as in a template literal. *)
Definition number_to_string (z : Z) : string :=
  NilZero.string_of_int (Z.to_int z).

(** [Array.prototype.find]: the first element satisfying the predicate. *)
Fixpoint find {A} (p : A -> bool) (l : list A) : option A :=
  match l with
  | [] => None
  | x :: l' => if p x then Some x else find p l'
  end.

(** [Array.prototype.sort (cmp)] is stable; [cmp a b <= 0] keeps [a]
    before [b].  Modelled by a stable insertion sort. *)
Section Sort.

Context {A : Type} (cmp : A -> A -> Z).

Fixpoint insert (x : A) (l : list A) : list A :=
  match l with
  | [] => [x]
  | y :: l' => if (cmp x y <=? 0)%Z then x :: y :: l' else y :: insert x l'
  end.

Fixpoint sort (l : list A) : list A :=
  match l with
  | [] => []
  | x :: l' => insert x (sort l')
  end.

(** [a] may stay before [b]. *)
Definition before (a b : A) : Prop := (cmp a b <= 0)%Z.

End Sort.

End Js.

(* ================================================================== *)
(** * Regular expressions: the fragment used by the firmware patterns *)
(* ================================================================== *)

Module RegExp.

(** A pattern is a sequence of terms: a literal character, [.], either of
    them under [*], or the assertion [$]. *)
Inductive Atom : Type :=
| Lit (c : ascii)
| Dot.

Inductive Term : Type :=
| One (a : Atom)
| Star (a : Atom)
| EndOfInput.

Record t : Type := mk {
  terms : list Term;
  ignoreCase : bool
}.

(** Line terminators, which [.] does not match (no [s] flag). *)
Definition isLineTerminator (c : ascii) : bool :=
  Js.ascii_eqb c "010"%char || Js.ascii_eqb c "013"%char.

(** Canonicalize of the [i] flag without [u]: the character's upper case.
    Only the letters a-z change among the characters that can be equal to
    a canonicalized ASCII pattern character. *)
Definition toUpper (c : ascii) : ascii :=
  let n := nat_of_ascii c in
  if Nat.leb 97 n && Nat.leb n 122 then ascii_of_nat (n - 32) else c.

Definition canonicalize (ic : bool) (c : ascii) : ascii :=
  if ic then toUpper c else c.

Definition atom_matches (ic : bool) (a : Atom) (c : ascii) : bool :=
  match a with
  | Lit d => Js.ascii_eqb (canonicalize ic d) (canonicalize ic c)
  | Dot => negb (isLineTerminator c)
  end.

(** Backtracking match of the terms at the start of [s]; [*] is greedy. *)
Fixpoint match_here (ic : bool) (p : list Term) (s : list ascii) : bool :=
  match p with
  | [] => true
  | One a :: p' =>
      match s with
      | c :: s' => atom_matches ic a c && match_here ic p' s'
      | [] => false
      end
  | Star a :: p' =>
      (fix star (s : list ascii) : bool :=
         match s with
         | c :: s' => (atom_matches ic a c && star s') || match_here ic p' s
         | [] => match_here ic p' []
         end) s
  | EndOfInput :: p' =>
      match s with
      | [] => match_here ic p' []
      | _ :: _ => false
      end
  end.

(** The search tries every start position, from the left. *)
Fixpoint search (ic : bool) (p : list Term) (s : list ascii) : bool :=
  match_here ic p s ||
  match s with
  | [] => false
  | _ :: s' => search ic p s'
  end.

(** [re.test(s)] for a pattern without the [g] and [y] flags. *)
Definition test (re : t) (s : string) : bool :=
  search (ignoreCase re) (terms re) (Js.chars s).

Definition lits (s : string) : list Term :=
  map (fun c => One (Lit c)) (Js.chars s).

End RegExp.

(* ================================================================== *)
(** * [node:path], POSIX flavour *)
(* ================================================================== *)

Module Path.

Definition slash : ascii := "/"%char.
Definition is_slash (c : ascii) : bool := Js.ascii_eqb c slash.

Fixpoint dropWhile {A} (p : A -> bool) (l : list A) : list A :=
  match l with
  | [] => []
  | x :: l' => if p x then dropWhile p l' else l
  end.

Fixpoint takeWhile {A} (p : A -> bool) (l : list A) : list A :=
  match l with
  | [] => []
  | x :: l' => if p x then x :: takeWhile p l' else []
  end.

(** [path.basename(p)]: trailing slashes are ignored, then the characters
    after the last remaining slash are returned. *)
Definition basename_chars (p : list ascii) : list ascii :=
  rev (takeWhile (fun c => negb (is_slash c)) (dropWhile is_slash (rev p))).

Definition basename (p : string) : string :=
  Js.str (basename_chars (Js.chars p)).

(** Segments between slashes. *)
Fixpoint split (l : list ascii) : list (list ascii) :=
  match l with
  | [] => [[]]
  | c :: l' =>
      if is_slash c then [] :: split l'
      else match split l' with
           | seg :: segs => (c :: seg) :: segs
           | [] => [[c]]
           end
  end.

Definition dot : list ascii := ["."%char].
Definition dotdot : list ascii := ["."%char; "."%char].

(** [normalizeString]: [res] is the stack of kept segments, last first. *)
Fixpoint normalizeSegments (allowAboveRoot : bool)
    (res : list (list ascii)) (segs : list (list ascii)) : list (list ascii) :=
  match segs with
  | [] => rev res
  | seg :: segs' =>
      if Js.chars_eqb seg [] || Js.chars_eqb seg dot then
        normalizeSegments allowAboveRoot res segs'
      else if Js.chars_eqb seg dotdot then
        match res with
        | last :: res' =>
            if Js.chars_eqb last dotdot
            then normalizeSegments allowAboveRoot
                   (if allowAboveRoot then dotdot :: res else res) segs'
            else normalizeSegments allowAboveRoot res' segs'
        | [] =>
            normalizeSegments allowAboveRoot
              (if allowAboveRoot then [dotdot] else []) segs'
        end
      else normalizeSegments allowAboveRoot (seg :: res) segs'
  end.

Fixpoint unsplit (segs : list (list ascii)) : list ascii :=
  match segs with
  | [] => []
  | [seg] => seg
  | seg :: segs' => seg ++ slash :: unsplit segs'
  end.

Definition normalize_chars (p : list ascii) : list ascii :=
  match p with
  | [] => dot
  | c :: _ =>
      let isAbsolute := is_slash c in
      let trailingSeparator := is_slash (last p "."%char) in
      let body := unsplit (normalizeSegments (negb isAbsolute) [] (split p)) in
      match body with
      | [] => if isAbsolute then [slash]
              else if trailingSeparator then "."%char :: [slash] else dot
      | _ :: _ =>
          let body' := if trailingSeparator then body ++ [slash] else body in
          if isAbsolute then slash :: body' else body'
      end
  end.

(** [path.join(a, b, ...)]: the non-empty arguments joined by a slash,
    then normalized. *)
Fixpoint joined (args : list (list ascii)) : list ascii :=
  match args with
  | [] => []
  | a :: args' =>
      match a with
      | [] => joined args'
      | _ :: _ =>
          match joined args' with
          | [] => a
          | rest => a ++ slash :: rest
          end
      end
  end.

Definition join_list (args : list string) : string :=
  Js.str (normalize_chars (joined (map Js.chars args))).

Definition join (a b : string) : string := join_list [a; b].

End Path.

(* ================================================================== *)
(** * The file system seen through [fs-extra] *)
(* ================================================================== *)

Module Fs.

Inductive Errno : Type :=
| ENOENT | EACCES | EPERM | ENOTDIR | EISDIR | EEXIST | EINVAL.

(** Errors as the script sees them: a system error of a file-system call,
    or an [Error] carrying a message. *)
Inductive Error : Type :=
| SystemError (code : Errno) (syscall : string) (path : string)
| JsError (message : string).

(** A regular file, a directory, or a symbolic link whose target is
    missing: the link is an entry of its directory, and every call that
    follows links finds nothing at its path. *)
Inductive Kind : Type :=
| KFile (content : list Byte.byte)
| KDir
| KLink.

Record Node : Type := mkNode {
  kind : Kind;
  mtime : Z;
  readable : bool;
  writable : bool
}.

(** Entries are keyed by their normalized absolute path.  The order of
    the list is the order in which the entries were created; [readdir]
    does not show it, it lists the names sorted. *)
Definition t : Type := list (string * Node).

Inductive Mode : Type := F_OK | W_OK.

Record Stats : Type := mkStats {
  st_mtime : Z;
  st_isDirectory : bool
}.

Fixpoint lookup (p : string) (fs : t) : option Node :=
  match fs with
  | [] => None
  | (q, n) :: fs' => if String.eqb q p then Some n else lookup p fs'
  end.

(** Replace the entry of [p], or add it after the existing entries. *)
Fixpoint write (p : string) (n : Node) (fs : t) : t :=
  match fs with
  | [] => [(p, n)]
  | (q, m) :: fs' =>
      if String.eqb q p then (p, n) :: fs' else (q, m) :: write p n fs'
  end.

Definition is_dir (n : Node) : bool :=
  match kind n with KDir => true | KFile _ | KLink => false end.

Definition is_link (n : Node) : bool :=
  match kind n with KLink => true | KFile _ | KDir => false end.

(** What a call that follows links finds at [p]. *)
Definition resolve (p : string) (fs : t) : option Node :=
  match lookup p fs with
  | Some n => if is_link n then None else Some n
  | None => None
  end.

Fixpoint strip_prefix (pre l : list ascii) : option (list ascii) :=
  match pre, l with
  | [], _ => Some l
  | a :: pre', b :: l' => if Js.ascii_eqb a b then strip_prefix pre' l' else None
  | _ :: _, [] => None
  end.

(** [p] relative to the directory [d], when [p] lies below [d]. *)
Definition below (d p : string) : option (list ascii) :=
  match strip_prefix (Js.chars d ++ [Path.slash]) (Js.chars p) with
  | Some (c :: rest) => Some (c :: rest)
  | _ => None
  end.

(** The name of [p] when [p] is a direct child of [d]. *)
Definition child_name (d p : string) : option string :=
  match below d p with
  | Some rest => if existsb Path.is_slash rest then None else Some (Js.str rest)
  | None => None
  end.

(** The names of the entries of the directory [d], in the order in which
    the entries were created. *)
Fixpoint children (d : string) (fs : t) : list string :=
  match fs with
  | [] => []
  | (p, _) :: fs' =>
      match child_name d p with
      | Some name => name :: children d fs'
      | None => children d fs'
      end
  end.

(** The order in which the names of a directory are listed: libuv reads
    the directory with [scandir] and sorts the names with [strcmp], byte
    by byte. *)
Fixpoint strcmp (a b : string) : Z :=
  match a, b with
  | EmptyString, EmptyString => 0
  | EmptyString, String _ _ => -1
  | String _ _, EmptyString => 1
  | String c a', String d b' =>
      let x := Z.of_N (N_of_ascii c) in
      let y := Z.of_N (N_of_ascii d) in
      if (x =? y)%Z then strcmp a' b' else (x - y)%Z
  end.

Definition listing (d : string) (fs : t) : list string :=
  Js.sort strcmp (children d fs).

(** [fs.access(p, mode)]; the default mode is [F_OK]. *)
Definition access (p : string) (mode : Mode) (fs : t) : Error + unit :=
  match resolve p fs with
  | None => inl (SystemError ENOENT "access" p)
  | Some n =>
      match mode with
      | F_OK => inr tt
      | W_OK => if writable n then inr tt
                else inl (SystemError EACCES "access" p)
      end
  end.

(** [fs.readdir(p)]: the names of the entries of the directory, sorted. *)
Definition readdir (p : string) (fs : t) : Error + list string :=
  match resolve p fs with
  | None => inl (SystemError ENOENT "scandir" p)
  | Some n =>
      if negb (is_dir n) then inl (SystemError ENOTDIR "scandir" p)
      else if negb (readable n) then inl (SystemError EACCES "scandir" p)
      else inr (listing p fs)
  end.

(** [fs.stat(p)]; it follows links. *)
Definition stat (p : string) (fs : t) : Error + Stats :=
  match resolve p fs with
  | None => inl (SystemError ENOENT "stat" p)
  | Some n => inr (mkStats (mtime n) (is_dir n))
  end.

(** [path.dirname], used by [copy] for the destination's directory. *)
Definition dirname_chars (p : list ascii) : list ascii :=
  match p with
  | [] => Path.dot
  | c0 :: tl =>
      let hasRoot := Path.is_slash c0 in
      let r1 := Path.dropWhile Path.is_slash (rev tl) in
      match Path.dropWhile (fun c => negb (Path.is_slash c)) r1 with
      | [] => if hasRoot then [Path.slash] else Path.dot
      | _ :: rest =>
          match rest with
          | [] => if hasRoot then [Path.slash; Path.slash] else [c0]
          | _ :: _ => c0 :: rev rest
          end
      end
  end.

Definition dirname (p : string) : string := Js.str (dirname_chars (Js.chars p)).

(** A directory in which a file can be created or replaced. *)
Definition writable_dir (d : string) (fs : t) : Error + unit :=
  match resolve d fs with
  | None => inl (SystemError ENOENT "open" d)
  | Some n =>
      if negb (is_dir n) then inl (SystemError ENOTDIR "open" d)
      else if negb (writable n) then inl (SystemError EACCES "open" d)
      else inr tt
  end.

(** [p] is [d] or lies below it. *)
Definition under (d p : string) : bool :=
  String.eqb p d || match below d p with Some _ => true | None => false end.

(** [fs.copy(src, dest)] of fs-extra with its default options.  A file is
    copied to the path [dest] itself, with its mode, and an existing file
    there is overwritten; a link is copied as a link; a directory is
    copied with everything below it, into the directory [dest] or, when
    nothing is there, into a new one.  A source file must be readable;
    source and destination must differ; a file does not replace a
    directory, nor a directory a file; and what is created lies in an
    existing writable directory (fs-extra would first try to create a
    missing parent of [dest], which is not modelled).  When a part of a
    directory cannot be copied the call fails with the error of that
    part; the parts fs-extra has copied by then are not modelled: a
    failed copy leaves the file system as it was. *)
Definition put_file (now : Z) (src dest : string) (n : Node)
    (content : list Byte.byte) (fs : t) : Error + t :=
  if negb (readable n) then inl (SystemError EACCES "copyfile" src)
  else if String.eqb src dest
  then inl (JsError "Source and destination must not be the same.")
  else
    match lookup dest fs with
    | Some (mkNode KDir _ _ _) =>
        inl (JsError "Cannot overwrite directory with non-directory.")
    | _ =>
        match writable_dir (dirname dest) fs with
        | inl e => inl e
        | inr _ =>
            inr (write dest (mkNode (KFile content) now true (writable n)) fs)
        end
    end.

Definition put_link (now : Z) (src dest : string) (fs : t) : Error + t :=
  if String.eqb src dest
  then inl (JsError "Source and destination must not be the same.")
  else
    match lookup dest fs with
    | Some (mkNode KDir _ _ _) =>
        inl (JsError "Cannot overwrite directory with non-directory.")
    | Some (mkNode (KFile _) _ _ _) =>
        inl (SystemError EEXIST "symlink" dest)
    | _ =>
        match writable_dir (dirname dest) fs with
        | inl e => inl e
        | inr _ => inr (write dest (mkNode KLink now true true) fs)
        end
    end.

Definition put_dir (now : Z) (src dest : string) (n : Node) (fs : t)
    : Error + t :=
  if negb (readable n) then inl (SystemError EACCES "scandir" src)
  else
    match lookup dest fs with
    | Some m =>
        if is_dir m then inr fs
        else inl (JsError "Cannot overwrite non-directory with directory.")
    | None =>
        match writable_dir (dirname dest) fs with
        | inl (SystemError c _ _) => inl (SystemError c "mkdir" dest)
        | inl e => inl e
        | inr _ => inr (write dest (mkNode KDir now true true) fs)
        end
    end.

(** The entry [n] of the path [src] copied to the path [dest]. *)
Definition put (now : Z) (src dest : string) (n : Node) (fs : t) : Error + t :=
  match kind n with
  | KFile content => put_file now src dest n content fs
  | KDir => put_dir now src dest n fs
  | KLink => put_link now src dest fs
  end.

(** The entries at or below [src], a directory before what it holds. *)
Definition tree (src : string) (fs : t) : t :=
  Js.sort (fun a b => strcmp (fst a) (fst b))
    (filter (fun e => under src (fst e)) fs).

(** The place at or below [dest] of the path [p] at or below [src]. *)
Definition moved (src dest p : string) : option string :=
  if String.eqb p src then Some dest
  else
    match below src p with
    | Some rest => Some (dest ++ "/" ++ Js.str rest)%string
    | None => None
    end.

Fixpoint put_all (now : Z) (src dest : string) (items : t) (fs : t)
    : Error + t :=
  match items with
  | [] => inr fs
  | (p, n) :: items' =>
      match moved src dest p with
      | None => put_all now src dest items' fs
      | Some q =>
          match put now p q n fs with
          | inl e => inl e
          | inr fs' => put_all now src dest items' fs'
          end
      end
  end.

Definition copy (now : Z) (src dest : string) (fs : t) : Error + t :=
  match lookup src fs with
  | None => inl (SystemError ENOENT "lstat" src)
  | Some n =>
      match kind n with
      | KFile content => put_file now src dest n content fs
      | KLink => put_link now src dest fs
      | KDir =>
          if String.eqb src dest
          then inl (JsError "Source and destination must not be the same.")
          else
            match below src dest with
            | Some _ =>
                inl (JsError "Cannot copy a directory to a subdirectory of itself.")
            | None => put_all now src dest (tree src fs) fs
            end
      end
  end.

(** [fs.remove(p)] of fs-extra: [p] and everything below it disappears;
    a missing [p] is not an error. *)
Definition remove (p : string) (fs : t) : t :=
  filter (fun e => negb (under p (fst e))) fs.

(** [fs.ensureDir(p)] of fs-extra: nothing to do for an existing
    directory, otherwise the directory is created in its parent (missing
    ancestors, which fs-extra would create too, are not modelled). *)
Definition ensureDir (now : Z) (p : string) (fs : t) : Error + t :=
  match lookup p fs with
  | Some n => if is_dir n then inr fs else inl (SystemError EEXIST "mkdir" p)
  | None =>
      match writable_dir (dirname p) fs with
      | inl (SystemError c _ _) => inl (SystemError c "mkdir" p)
      | inl e => inl e
      | inr _ => inr (write p (mkNode KDir now true true) fs)
      end
  end.

(** [fs.unlinkSync(p)]: the entry [p] leaves its directory, which needs
    the permission to write to that directory; a directory is not
    removed this way. *)
Definition unlink (p : string) (fs : t) : Error + t :=
  match lookup p fs with
  | None => inl (SystemError ENOENT "unlink" p)
  | Some n =>
      match writable_dir (dirname p) fs with
      | inl (SystemError c _ _) => inl (SystemError c "unlink" p)
      | inl e => inl e
      | inr _ =>
          if is_dir n then inl (SystemError EPERM "unlink" p)
          else inr (filter (fun e => negb (String.eqb (fst e) p)) fs)
      end
  end.

(** [extract(zip, {dir})] of extract-zip.  The decoder of the archive
    format is a parameter: it yields the entries (name, content) of a
    well-formed archive.  Entries are written below [dir] one after the
    other, sub-directories being created on the way; an entry whose name
    ends with a slash is a directory.  When an entry cannot be written
    the extraction stops with the error and what was written so far
    stays. *)
Definition plain_name (name : list ascii) : bool :=
  negb (Js.chars_eqb name []) && negb (Js.chars_eqb name Path.dot)
  && negb (Js.chars_eqb name Path.dotdot).

Definition mkdir_if_missing (now : Z) (p : string) (fs : t) : Error + t :=
  match lookup p fs with
  | Some n => if is_dir n then inr fs else inl (SystemError EEXIST "mkdir" p)
  | None => inr (write p (mkNode KDir now true true) fs)
  end.

(** The file written for an entry replaces what is at its path, unless
    that is a directory. *)
Definition write_file (now : Z) (p : string) (content : list Byte.byte)
    (fs : t) : Error + t :=
  match lookup p fs with
  | Some (mkNode KDir _ _ _) => inl (SystemError EISDIR "open" p)
  | _ => inr (write p (mkNode (KFile content) now true true) fs)
  end.

(** One entry, given by the segments of its name, below the directory
    [cur]. *)
Fixpoint write_entry (now : Z) (cur : string) (segs : list (list ascii))
    (content : list Byte.byte) (fs : t) : Error + t :=
  match segs with
  | [] => inr fs
  | [seg] =>
      if Js.chars_eqb seg [] then inr fs
      else if negb (plain_name seg) then inl (JsError "invalid entry")
      else write_file now (Path.join cur (Js.str seg)) content fs
  | seg :: segs' =>
      if negb (plain_name seg) then inl (JsError "invalid entry")
      else
        let sub := Path.join cur (Js.str seg) in
        match mkdir_if_missing now sub fs with
        | inl e => inl e
        | inr fs' => write_entry now sub segs' content fs'
        end
  end.

Fixpoint write_entries (now : Z) (dir : string)
    (entries : list (string * list Byte.byte)) (fs : t) : option Error * t :=
  match entries with
  | [] => (None, fs)
  | (name, content) :: entries' =>
      match writable_dir dir fs with
      | inl e => (Some e, fs)
      | inr _ =>
          match write_entry now dir (Path.split (Js.chars name)) content fs with
          | inl e => (Some e, fs)
          | inr fs' => write_entries now dir entries' fs'
          end
      end
  end.

Definition extract (unzip : list Byte.byte -> option (list (string * list Byte.byte)))
    (now : Z) (zip dir : string) (fs : t) : option Error * t :=
  match lookup zip fs with
  | None => (Some (SystemError ENOENT "open" zip), fs)
  | Some n =>
      match kind n with
      | KLink => (Some (SystemError ENOENT "open" zip), fs)
      | KDir => (Some (SystemError EISDIR "read" zip), fs)
      | KFile bytes =>
          match unzip bytes with
          | None => (Some (JsError "end of central directory record signature not found"), fs)
          | Some entries => write_entries now dir entries fs
          end
      end
  end.

End Fs.

(* ================================================================== *)
(** * The world of the script and its monad *)
(* ================================================================== *)

Import Fs (Error).

Inductive Side : Type := Left | Right.

Definition side_str (side : Side) : string :=
  match side with Left => "left" | Right => "right" end.

Definition side_upper (side : Side) : string :=
  match side with Left => "LEFT" | Right => "RIGHT" end.

Inductive ConsoleMethod : Type := Log | Warn | ConsoleError.

Inductive FsCall : Type :=
| CAccess (p : string) (mode : Fs.Mode)
| CReaddir (p : string)
| CStat (p : string)
| CCopy (src dest : string)
| CRemove (p : string)
| CEnsureDir (p : string)
| CExtract (zip dir : string)
| CUnlink (p : string).

Inductive BarCall : Type :=
| BarStart (status : string)
| BarUpdate (value : Z) (status : string)
| BarStop.

(** What the script does to the outside, in the order it does it. *)
Inductive Event : Type :=
| EvConsole (method : ConsoleMethod) (text : string) (detail : option Error)
| EvSleep (ms : Z)
| EvFs (call : FsCall) (ok : bool)
| EvPrompt (message : string)
| EvBar (call : BarCall)
| EvExit (code : Z).

(** The part of the world the script cannot change: the directories of
    the operating system, the archive decoder, what happens to the file
    system from outside while time passes, and the operator: the time
    after which the question with a given message is answered ([None]
    when no answer ever comes) and the answers. *)
Record Env : Type := mkEnv {
  homedir : string;
  tmpdir : string;
  unzip : list Byte.byte -> option (list (string * list Byte.byte));
  external : Z -> Fs.t -> Fs.t;
  answer_after : string -> option N;
  select_answer : list (string * string) -> Error + nat;
  confirm_answer : Error + bool
}.

Record World : Type := mkWorld {
  env : Env;
  fs : Fs.t;
  clock : Z
}.

(** How a piece of the script ends: it returns, throws, ends the process,
    or has not ended: a loop is still running when the fuel is used up,
    or the script awaits an answer that never comes. *)
Inductive Outcome (A : Type) : Type :=
| Ret (a : A)
| Throw (e : Error)
| Exit (code : Z)
| OutOfFuel.

Arguments Ret {A} a.
Arguments Throw {A} e.
Arguments Exit {A} code.
Arguments OutOfFuel {A}.

(** The result of running a piece of the script: how it ended, the world
    it left, and the events it produced, oldest first. *)
Record Result (A : Type) : Type := mkResult {
  outcome : Outcome A;
  world : World;
  events : list Event
}.

Arguments mkResult {A} outcome world events.
Arguments outcome {A} r.
Arguments world {A} r.
Arguments events {A} r.

Definition M (A : Type) : Type := World -> Result A.

Definition ret {A} (a : A) : M A := fun w => mkResult (Ret a) w [].

Definition bind {A B} (m : M A) (k : A -> M B) : M B :=
  fun w =>
    let r := m w in
    match outcome r with
    | Ret a =>
        let r' := k a (world r) in
        mkResult (outcome r') (world r') (events r ++ events r')
    | Throw e => mkResult (Throw e) (world r) (events r)
    | Exit c => mkResult (Exit c) (world r) (events r)
    | OutOfFuel => mkResult OutOfFuel (world r) (events r)
    end.

Definition throw {A} (e : Error) : M A := fun w => mkResult (Throw e) w [].

Definition out_of_fuel {A} : M A := fun w => mkResult OutOfFuel w [].

(** [try { m } catch (error) { h error }]: only a thrown error is caught;
    a terminated process stays terminated. *)
Definition try_catch {A} (m : M A) (h : Error -> M A) : M A :=
  fun w =>
    let r := m w in
    match outcome r with
    | Throw e =>
        let r' := h e (world r) in
        mkResult (outcome r') (world r') (events r ++ events r')
    | _ => r
    end.

Declare Scope script_scope.
Delimit Scope script_scope with script.
Notation "x <- c1 ;; c2" := (bind c1 (fun x => c2))
  (at level 61, c1 at next level, right associativity) : script_scope.
Notation "c1 ;; c2" := (bind c1 (fun _ => c2))
  (at level 61, right associativity) : script_scope.
Local Open Scope script_scope.

Definition set_fs (fs' : Fs.t) (w : World) : World :=
  mkWorld (env w) fs' (clock w).

Definition emit (e : Event) : M unit := fun w => mkResult (Ret tt) w [e].

Definition get_env : M Env := fun w => mkResult (Ret (env w)) w [].

(** [Date.now()] and [new Date()]. *)
Definition date_now : M Z := fun w => mkResult (Ret (clock w)) w [].

Definition console_log (text : string) : M unit :=
  emit (EvConsole Log text None).
Definition console_warn (text : string) : M unit :=
  emit (EvConsole Warn text None).
Definition console_error (text : string) (detail : option Error) : M unit :=
  emit (EvConsole ConsoleError text detail).

(** [process.exit(code)]. *)
Definition process_exit {A} (code : Z) : M A :=
  fun w => mkResult (Exit code) w [EvExit code].

(** [await new Promise(resolve => setTimeout(resolve, ms))]: time passes
    and the outside world acts on the file system. *)
Definition sleep (ms : Z) : M unit :=
  fun w =>
    let now := (clock w + ms)%Z in
    mkResult (Ret tt) (mkWorld (env w) (external (env w) now (fs w)) now)
      [EvSleep ms].

(** A file-system call that only reads. *)
Definition fs_read {A} (call : FsCall) (f : Fs.t -> Error + A) : M A :=
  fun w =>
    match f (fs w) with
    | inl e => mkResult (Throw e) w [EvFs call false]
    | inr a => mkResult (Ret a) w [EvFs call true]
    end.

(** A file-system call that changes the file system. *)
Definition fs_update (call : FsCall) (f : Z -> Fs.t -> Error + Fs.t) : M unit :=
  fun w =>
    match f (clock w) (fs w) with
    | inl e => mkResult (Throw e) w [EvFs call false]
    | inr fs' => mkResult (Ret tt) (set_fs fs' w) [EvFs call true]
    end.

Definition fs_access (p : string) (mode : Fs.Mode) : M unit :=
  fs_read (CAccess p mode) (Fs.access p mode).
Definition fs_readdir (p : string) : M (list string) :=
  fs_read (CReaddir p) (Fs.readdir p).
Definition fs_stat (p : string) : M Fs.Stats :=
  fs_read (CStat p) (Fs.stat p).
Definition fs_copy (src dest : string) : M unit :=
  fs_update (CCopy src dest) (fun now => Fs.copy now src dest).
Definition fs_remove (p : string) : M unit :=
  fs_update (CRemove p) (fun _ fs => inr (Fs.remove p fs)).
Definition fs_ensureDir (p : string) : M unit :=
  fs_update (CEnsureDir p) (fun now => Fs.ensureDir now p).
Definition fs_unlinkSync (p : string) : M unit :=
  fs_update (CUnlink p) (fun _ => Fs.unlink p).

Definition extract (zip dir : string) : M unit :=
  fun w =>
    match Fs.extract (unzip (env w)) (clock w) zip dir (fs w) with
    | (Some e, fs') => mkResult (Throw e) (set_fs fs' w) [EvFs (CExtract zip dir) false]
    | (None, fs') => mkResult (Ret tt) (set_fs fs' w) [EvFs (CExtract zip dir) true]
    end.

(** The world after the script has awaited for [ms] milliseconds. *)
Definition later (ms : Z) (w : World) : World :=
  let now := (clock w + ms)%Z in
  mkWorld (env w) (external (env w) now (fs w)) now.

(** [await inquirer.prompt(...)] with a [list] question: the script waits
    until the operator answers, and gets the value of the selected
    choice.  Without an answer the call never returns. *)
Definition prompt_list (message : string) (choices : list (string * string))
    : M string :=
  fun w =>
    match answer_after (env w) message with
    | None => mkResult OutOfFuel w [EvPrompt message]
    | Some ms =>
        let w' := later (Z.of_N ms) w in
        match select_answer (env w) choices with
        | inl e => mkResult (Throw e) w' [EvPrompt message]
        | inr i =>
            match nth_error choices i with
            | Some (_, value) => mkResult (Ret value) w' [EvPrompt message]
            | None =>
                mkResult (Throw (Fs.JsError "prompt closed")) w' [EvPrompt message]
            end
        end
    end.

(** [await inquirer.prompt(...)] with a [confirm] question. *)
Definition prompt_confirm (message : string) : M bool :=
  fun w =>
    match answer_after (env w) message with
    | None => mkResult OutOfFuel w [EvPrompt message]
    | Some ms =>
        let w' := later (Z.of_N ms) w in
        match confirm_answer (env w) with
        | inl e => mkResult (Throw e) w' [EvPrompt message]
        | inr b => mkResult (Ret b) w' [EvPrompt message]
        end
    end.

(** [Promise.all] over started calls: every call runs, the results are
    gathered in order, and the first error, if any, is thrown. *)
Fixpoint promise_all {A} (ms : list (M A)) : M (list A) :=
  match ms with
  | [] => ret []
  | m :: ms' =>
      fun w =>
        let r := m w in
        match outcome r with
        | Ret a =>
            let r' := promise_all ms' (world r) in
            mkResult
              (match outcome r' with
               | Ret l => Ret (a :: l)
               | Throw e => Throw e
               | Exit c => Exit c
               | OutOfFuel => OutOfFuel
               end)
              (world r') (events r ++ events r')
        | Throw e =>
            let r' := promise_all ms' (world r) in
            mkResult
              (match outcome r' with
               | Ret _ => Throw e
               | Throw _ => Throw e
               | Exit c => Exit c
               | OutOfFuel => OutOfFuel
               end)
              (world r') (events r ++ events r')
        | Exit c => mkResult (Exit c) (world r) (events r)
        | OutOfFuel => mkResult OutOfFuel (world r) (events r)
        end
  end.

(* ================================================================== *)
(** * The script *)
(* ================================================================== *)

Local Open Scope string_scope.

(** ** Constants *)

Definition DOWNLOADS_FOLDER (e : Env) : string :=
  Path.join_list [homedir e; "Downloads"; "Personal"].

Definition NICENANO_VOLUME : string := "/Volumes/NICENANO".

(** [/sofle_left.*\.uf2$/i] *)
Definition LEFT_FIRMWARE_PATTERN : RegExp.t :=
  RegExp.mk
    (RegExp.lits "sofle_left" ++ [RegExp.Star RegExp.Dot]
       ++ RegExp.lits ".uf2" ++ [RegExp.EndOfInput])%list
    true.

(** [/sofle_right.*\.uf2$/i] *)
Definition RIGHT_FIRMWARE_PATTERN : RegExp.t :=
  RegExp.mk
    (RegExp.lits "sofle_right" ++ [RegExp.Star RegExp.Dot]
       ++ RegExp.lits ".uf2" ++ [RegExp.EndOfInput])%list
    true.

(** ** [formatRelativeTime] *)

Definition formatRelativeTime (date : Z) : M string :=
  now <- date_now ;;
  let diffMs := (now - date)%Z in
  let diffSec := (diffMs / 1000)%Z in
  let diffMin := (diffSec / 60)%Z in
  let diffHour := (diffMin / 60)%Z in
  let diffDay := (diffHour / 24)%Z in
  if (0 <? diffDay)%Z then
    ret (Js.number_to_string diffDay ++ " "
           ++ (if (diffDay =? 1)%Z then "day" else "days") ++ " ago")
  else if (0 <? diffHour)%Z then
    ret (Js.number_to_string diffHour ++ " "
           ++ (if (diffHour =? 1)%Z then "hour" else "hours") ++ " ago")
  else if (0 <? diffMin)%Z then
    ret (Js.number_to_string diffMin ++ " "
           ++ (if (diffMin =? 1)%Z then "minute" else "minutes") ++ " ago")
  else ret "just now".

Record FileInfo : Type := mkFileInfo {
  name : string;
  path : string;
  mtime : Z;
  relativeTime : string
}.

(** ** [getZipFiles] *)

Definition zip_stat (folder file : string) : M FileInfo :=
  let filePath := Path.join folder file in
  stats <- fs_stat filePath ;;
  rel <- formatRelativeTime (Fs.st_mtime stats) ;;
  ret (mkFileInfo file filePath (Fs.st_mtime stats) rel).

Definition newest_first (a b : FileInfo) : Z := (mtime b - mtime a)%Z.

Definition getZipFiles : M (list FileInfo) :=
  try_catch
    (e <- get_env ;;
     files <- fs_readdir (DOWNLOADS_FOLDER e) ;;
     let zipFiles := filter (fun file => Js.endsWith file ".zip") files in
     fileStats <- promise_all (map (zip_stat (DOWNLOADS_FOLDER e)) zipFiles) ;;
     ret (Js.sort newest_first fileStats))
    (fun error =>
       console_error "Error reading downloads folder:" (Some error) ;;
       ret []).

(** ** [extractFirmwareFiles] *)

Record Firmware : Type := mkFirmware {
  leftFirmware : string;
  rightFirmware : string
}.

(** [!x] for [x] a string or [undefined]. *)
Definition falsy (x : option string) : bool :=
  match x with
  | None => true
  | Some s => String.eqb s ""
  end.

Definition tempDir_at (e : Env) (now : Z) : string :=
  Path.join (tmpdir e) ("keyboard-firmware-" ++ Js.number_to_string now).

Definition not_found : Error :=
  Fs.JsError "Could not find both left and right firmware files in the zip".

Definition find_firmware (tempDir : string) : M Firmware :=
  files <- fs_readdir tempDir ;;
  let leftFirmware := Js.find (RegExp.test LEFT_FIRMWARE_PATTERN) files in
  let rightFirmware := Js.find (RegExp.test RIGHT_FIRMWARE_PATTERN) files in
  if falsy leftFirmware || falsy rightFirmware then throw not_found
  else
    match leftFirmware, rightFirmware with
    | Some l, Some r =>
        ret (mkFirmware (Path.join tempDir l) (Path.join tempDir r))
    | _, _ => throw not_found
    end.

Definition extractFirmwareFiles (zipFilePath : string) : M Firmware :=
  e <- get_env ;;
  now <- date_now ;;
  let tempDir := tempDir_at e now in
  fs_ensureDir tempDir ;;
  try_catch
    (extract zipFilePath tempDir ;;
     find_firmware tempDir)
    (fun error =>
       fs_remove tempDir ;;
       throw error).

(** ** [isVolumeReady] *)

Definition isVolumeReady : M bool :=
  try_catch
    (fs_access NICENANO_VOLUME Fs.F_OK ;;
     fs_readdir NICENANO_VOLUME ;;
     fs_access NICENANO_VOLUME Fs.W_OK ;;
     ret true)
    (fun error => ret false).

(** ** [waitForBootloaderMode] *)

(** The [while (true)] loop; [fuel] bounds the number of iterations that
    are unfolded. *)
Fixpoint wait_loop (fuel : nat) (side : Side) : M unit :=
  match fuel with
  | O => out_of_fuel
  | S fuel' =>
      ready <- isVolumeReady ;;
      if ready then
        console_log (side_upper side ++ " keyboard detected in bootloader mode!") ;;
        sleep 1500 ;;
        ret tt
      else
        sleep 1000 ;;
        wait_loop fuel' side
  end.

Definition waitForBootloaderMode (fuel : nat) (side : Side) : M unit :=
  console_log ("Waiting for " ++ side_str side
                 ++ " keyboard to be in bootloader mode...") ;;
  console_log ("Please put the " ++ side_str side
                 ++ " keyboard in bootloader mode by pressing and holding the reset button while plugging in the USB cable.") ;;
  wait_loop fuel side.

(** ** [animateProgressBar] *)

(** The [for] loop over [i]; numbers are integers here, which is exact for
    the step counts the script uses (10 and 20).  [i] grows in every
    iteration, so 101 iterations are never exceeded for a positive step. *)
Fixpoint bar_loop (fuel : nat) (i stepSize stepTimeMs : Z) (status : string)
    : M unit :=
  match fuel with
  | O => out_of_fuel
  | S fuel' =>
      if (i <=? 100)%Z then
        emit (EvBar (BarUpdate i status)) ;;
        sleep stepTimeMs ;;
        bar_loop fuel' (i + stepSize)%Z stepSize stepTimeMs status
      else ret tt
  end.

Definition animateProgressBar (durationMs : Z) (status : string) (steps : Z)
    : M unit :=
  let stepSize := (100 / steps)%Z in
  let stepTimeMs := (durationMs / steps)%Z in
  emit (EvBar (BarStart status)) ;;
  bar_loop 102 0 stepSize stepTimeMs status ;;
  emit (EvBar BarStop).

(** ** [copyFirmwareToKeyboard] *)

Definition maxRetries : Z := 5.
Definition retryDelay : Z := 1000.

(** The body of the [try] block: the announcement and the first
    progress bar, then the check and the copy, then the wait for the
    restart. *)
Definition prepare_copy (side : Side) : M unit :=
  console_log ("Copying " ++ side_str side ++ " firmware to keyboard...") ;;
  console_log "Ensuring the keyboard is ready for writing..." ;;
  animateProgressBar 500 "Preparing keyboard for writing..." 10.

Definition destination (firmwarePath : string) : string :=
  Path.join NICENANO_VOLUME (Path.basename firmwarePath).

Definition copy_attempt (firmwarePath : string) (side : Side) : M unit :=
  prepare_copy side ;;
  fs_access NICENANO_VOLUME Fs.W_OK ;;
  fs_copy firmwarePath (destination firmwarePath) ;;
  console_log (side_upper side ++ " firmware copied successfully!") ;;
  console_log "Waiting for keyboard to restart..." ;;
  animateProgressBar 1000 "Restarting keyboard..." 20.

(** The two branches of the [catch] block. *)
Definition report_exhausted (side : Side) (error : Error) : M unit :=
  console_error
    ("Error copying " ++ side_str side ++ " firmware after "
       ++ Js.number_to_string maxRetries ++ " attempts:")
    (Some error) ;;
  throw error.

Definition retry_notice (side : Side) (retries : Z) : M unit :=
  console_warn
    ("Error copying " ++ side_str side ++ " firmware (attempt "
       ++ Js.number_to_string retries ++ "/"
       ++ Js.number_to_string maxRetries ++ "). Retrying in "
       ++ Js.number_to_string (retryDelay / 1000) ++ " seconds...") ;;
  animateProgressBar retryDelay
    ("Retry attempt " ++ Js.number_to_string retries ++ "/"
       ++ Js.number_to_string maxRetries ++ "...") 20.

(** The [while (retries < maxRetries)] loop; [fuel] bounds the number of
    iterations that are unfolded. *)
Fixpoint copy_loop (fuel : nat) (firmwarePath : string) (side : Side)
    (retries : Z) : M unit :=
  match fuel with
  | O => out_of_fuel
  | S fuel' =>
      if (retries <? maxRetries)%Z then
        try_catch
          (copy_attempt firmwarePath side)
          (fun error =>
             let retries := (retries + 1)%Z in
             if (retries >=? maxRetries)%Z then report_exhausted side error
             else
               retry_notice side retries ;;
               copy_loop fuel' firmwarePath side retries)
      else ret tt
  end.

Definition copyFirmwareToKeyboard (fuel : nat) (firmwarePath : string)
    (side : Side) : M unit :=
  copy_loop fuel firmwarePath side 0.

(** ** [main] *)

Definition delete_zip (zipFile : string) : M unit :=
  try_catch
    (fs_unlinkSync zipFile ;;
     console_warn ("Deleted zip file: " ++ Path.basename zipFile))
    (fun err => console_error "Error deleting zip file: " (Some err)).

(** The blocks of [main]: the choice of the archive, the extraction with
    its messages, the two keyboard halves, the offer to delete the
    archive. *)
Definition select_archive : M string :=
  zipFiles <- getZipFiles ;;
  (if Nat.eqb (List.length zipFiles) 0 then
     console_error "No zip files found in downloads folder." None ;;
     process_exit 1
   else ret tt) ;;
  prompt_list "Select the firmware zip file:"
    (map (fun file =>
            (Path.basename (path file) ++ " (" ++ relativeTime file ++ ")",
             path file)) zipFiles).

Definition extract_and_report (zipFile : string) : M Firmware :=
  console_log "Extracting firmware files..." ;;
  firmware <- extractFirmwareFiles zipFile ;;
  console_log "Firmware files extracted successfully!" ;;
  console_log ("Left firmware: " ++ Path.basename (leftFirmware firmware)) ;;
  console_log ("Right firmware: " ++ Path.basename (rightFirmware firmware)) ;;
  ret firmware.

Definition process_keyboards (fuel : nat) (firmware : Firmware) : M unit :=
  waitForBootloaderMode fuel Left ;;
  copyFirmwareToKeyboard fuel (leftFirmware firmware) Left ;;
  waitForBootloaderMode fuel Right ;;
  copyFirmwareToKeyboard fuel (rightFirmware firmware) Right.

Definition offer_delete (zipFile : string) : M unit :=
  deleteZip <- prompt_confirm "Do you want to delete the firmware zip file?" ;;
  if deleteZip then delete_zip zipFile else ret tt.

Definition main_body (fuel : nat) : M unit :=
  console_log "Keyboard Firmware Loader" ;;
  console_log "This script will help you load firmware to your split keyboard." ;;
  zipFile <- select_archive ;;
  firmware <- extract_and_report zipFile ;;
  process_keyboards fuel firmware ;;
  console_log "Firmware loading completed successfully!" ;;
  offer_delete zipFile.

Definition main (fuel : nat) : M unit :=
  try_catch
    (main_body fuel)
    (fun error =>
       console_error "Error:" (Some error) ;;
       process_exit 1).

(** The process: [main()] is started; the exit status is the code given
    to [process.exit], 0 when [main] returns, 1 for an unhandled
    rejection.  [None]: the process is still running when the fuel is
    used up, or waits for an answer that never comes. *)
Definition exit_status {A} (o : Outcome A) : option Z :=
  match o with
  | Ret _ => Some 0%Z
  | Throw _ => Some 1%Z
  | Exit code => Some code
  | OutOfFuel => None
  end.

Definition run (fuel : nat) (w : World) : option Z :=
  exit_status (outcome (main fuel w)).

(* ================================================================== *)
(** * Specification vocabulary *)
(* ================================================================== *)

(** ** Firmware names *)

Definition firmware_pattern (side : Side) : RegExp.t :=
  match side with
  | Left => LEFT_FIRMWARE_PATTERN
  | Right => RIGHT_FIRMWARE_PATTERN
  end.

Definition role_prefix (side : Side) : string :=
  match side with Left => "sofle_left" | Right => "sofle_right" end.

Definition firmware_extension : string := ".uf2".

Definition upper (s : string) : list ascii := map RegExp.toUpper (Js.chars s).

(** Equality of two strings up to the case of the letters a-z. *)
Definition eq_ignore_case (a b : string) : Prop := upper a = upper b.

Definition no_line_terminator (s : string) : Prop :=
  Forall (fun c => RegExp.isLineTerminator c = false) (Js.chars s).

(** The shape the specification words: the role prefix at the start of
    the name, anything after it, the extension at the end. *)
Definition claimed_shape (side : Side) (name : string) : bool :=
  match Fs.strip_prefix (upper (role_prefix side)) (upper name) with
  | Some rest =>
      let ext := upper firmware_extension in
      Nat.leb (List.length ext) (List.length rest)
      && Js.chars_eqb (skipn (List.length rest - List.length ext) rest) ext
  | None => false
  end.

(** The shape the patterns accept: the role prefix somewhere in the name,
    then characters other than line terminators, then the extension at
    the end. *)
Definition accepted_shape (side : Side) (name : string) : Prop :=
  exists pre a mid b : string,
    name = pre ++ a ++ mid ++ b
    /\ eq_ignore_case a (role_prefix side)
    /\ no_line_terminator mid
    /\ eq_ignore_case b firmware_extension.


(** ** Readiness of the volume *)

Definition path_exists (p : string) (fs : Fs.t) : bool :=
  match Fs.resolve p fs with Some _ => true | None => false end.

Definition listable (p : string) (fs : Fs.t) : bool :=
  match Fs.resolve p fs with
  | Some n => Fs.is_dir n && Fs.readable n
  | None => false
  end.

Definition writable (p : string) (fs : Fs.t) : bool :=
  match Fs.resolve p fs with Some n => Fs.writable n | None => false end.

Definition ready (fs : Fs.t) : bool :=
  path_exists NICENANO_VOLUME fs && listable NICENANO_VOLUME fs
  && writable NICENANO_VOLUME fs.

(** The calls one readiness observation makes on a file system. *)
Definition ready_events (fs : Fs.t) : list Event :=
  if path_exists NICENANO_VOLUME fs then
    EvFs (CAccess NICENANO_VOLUME Fs.F_OK) true
    :: (if listable NICENANO_VOLUME fs then
          [EvFs (CReaddir NICENANO_VOLUME) true;
           EvFs (CAccess NICENANO_VOLUME Fs.W_OK) (writable NICENANO_VOLUME fs)]
        else [EvFs (CReaddir NICENANO_VOLUME) false])
  else [EvFs (CAccess NICENANO_VOLUME Fs.F_OK) false].

(** ** Counting events *)

Definition count (p : Event -> bool) (t : list Event) : nat :=
  List.length (filter p t).

(** A readiness observation starts with the existence check. *)
Definition is_observation (e : Event) : bool :=
  match e with
  | EvFs (CAccess p Fs.F_OK) _ => String.eqb p NICENANO_VOLUME
  | _ => false
  end.

Definition is_sleep (ms : Z) (e : Event) : bool :=
  match e with
  | EvSleep d => (d =? ms)%Z
  | _ => false
  end.

(** ** The worlds of the polling loop *)

Definition after_sleep (ms : Z) (w : World) : World := world (sleep ms w).

(** The world at the [k]-th observation: [k] polling intervals have
    passed. *)
Definition poll_world (w : World) (k : nat) : World :=
  Nat.iter k (after_sleep 1000) w.

Definition observation (w : World) (k : nat) : bool := ready (fs (poll_world w k)).

Definition detected (side : Side) : Event :=
  EvConsole Log (side_upper side ++ " keyboard detected in bootloader mode!") None.

(** ** The events of the copy loop *)

(** Progress-bar updates and delays. *)
Definition is_quiet (e : Event) : bool :=
  match e with
  | EvBar _ | EvSleep _ => true
  | _ => false
  end.

(** The announcement that opens every pass through the [try] block. *)
Definition attempt_start (side : Side) : Event :=
  EvConsole Log ("Copying " ++ side_str side ++ " firmware to keyboard...") None.

Definition is_attempt_start (side : Side) (e : Event) : bool :=
  match e with
  | EvConsole Log text None =>
      String.eqb text ("Copying " ++ side_str side ++ " firmware to keyboard...")
  | _ => false
  end.

(** The writability check of the volume, whatever its result. *)
Definition is_check (e : Event) : bool :=
  match e with
  | EvFs (CAccess p Fs.W_OK) _ => String.eqb p NICENANO_VOLUME
  | _ => false
  end.

Definition is_copy (e : Event) : bool :=
  match e with
  | EvFs (CCopy _ _) _ => true
  | _ => false
  end.

Definition check_passed : Event := EvFs (CAccess NICENANO_VOLUME Fs.W_OK) true.

Definition is_check_passed (e : Event) : bool :=
  match e with
  | EvFs (CAccess p Fs.W_OK) true => String.eqb p NICENANO_VOLUME
  | _ => false
  end.

(** Every copy in the trace comes directly after a check that passed;
    [prev] tells whether the event before the trace was such a check. *)
Fixpoint guarded_from (prev : bool) (t : list Event) : bool :=
  match t with
  | [] => true
  | e :: t' =>
      (if is_copy e then prev else true) && guarded_from (is_check_passed e) t'
  end.

Definition guarded (t : list Event) : bool := guarded_from false t.

Definition exhausted_report (side : Side) (error : Error) : Event :=
  EvConsole ConsoleError
    ("Error copying " ++ side_str side ++ " firmware after "
       ++ Js.number_to_string maxRetries ++ " attempts:")
    (Some error).

(** The world in which attempt [n] (counted from 0) starts when the loop
    is entered in [w] with [retries] failures behind it and the attempts
    before [n] fail. *)
Fixpoint attempt_world (firmwarePath : string) (side : Side) (retries : Z)
    (w : World) (n : nat) : World :=
  match n with
  | O => w
  | S n' =>
      attempt_world firmwarePath side (retries + 1)
        (world (retry_notice side (retries + 1)
                  (world (copy_attempt firmwarePath side w))))
        n'
  end.

(** The world in which the check and the copy of an attempt run. *)
Definition checked_world (side : Side) (w : World) : World :=
  world (prepare_copy side w).

Definition ensuring : Event :=
  EvConsole Log "Ensuring the keyboard is ready for writing..." None.

Definition copied (side : Side) : list Event :=
  [EvConsole Log (side_upper side ++ " firmware copied successfully!") None;
   EvConsole Log "Waiting for keyboard to restart..." None].

(** Whether a trace ends with a passed check. *)
Fixpoint ends_checked (prev : bool) (t : list Event) : bool :=
  match t with
  | [] => prev
  | e :: t' => ends_checked (is_check_passed e) t'
  end.

(** The number of passes through the [try] block in a trace. *)
Definition attempts (side : Side) (t : list Event) : nat :=
  count (is_attempt_start side) t.

(** The number of checks of the volume in a trace. *)
Definition checks (t : list Event) : nat := count is_check t.

(* ================================================================== *)
(** * Sample worlds *)
(* ================================================================== *)

(** Concrete file systems and environments on which the script and the
    theorems about it are run. *)

Module Sample.

Definition dir : Fs.Node := Fs.mkNode Fs.KDir 0 true true.
Definition locked_dir : Fs.Node := Fs.mkNode Fs.KDir 0 true false.
Definition file (content : list Byte.byte) (mtime : Z) : Fs.Node :=
  Fs.mkNode (Fs.KFile content) mtime true true.

Definition link : Fs.Node := Fs.mkNode Fs.KLink 0 true true.

Definition left_image : list Byte.byte := [Byte.x55; Byte.x46; Byte.x32; Byte.x0a].
Definition right_image : list Byte.byte := [Byte.x55; Byte.x46; Byte.x32; Byte.x0b].

(** A toy archive format: the first byte selects the content. *)
Definition unzip (bytes : list Byte.byte)
    : option (list (string * list Byte.byte)) :=
  match bytes with
  | [Byte.x01] =>
      Some [("README.md", [Byte.x23]);
            ("sofle_left-nice_nano_v2.uf2", left_image);
            ("sofle_right-nice_nano_v2.uf2", right_image)]
  | [Byte.x02] => Some [("sofle_left-nice_nano_v2.uf2", left_image)]
  | [Byte.x03] => Some [("sofle_left_sofle_right.uf2", left_image)]
  | [Byte.x04] =>
      Some [("sofle_left_b.uf2", right_image);
            ("sofle_right_b.uf2", left_image);
            ("sofle_left_a.uf2", left_image);
            ("sofle_right_a.uf2", right_image)]
  | [Byte.x05] =>
      Some [("sofle_left_x.uf2/inner.bin", left_image);
            ("sofle_right_x.uf2", right_image)]
  | _ => None
  end.

Definition firmwarePath : string := "/tmp/fw/sofle_left-nice_nano_v2.uf2".

(** The volume is mounted read-only. *)
Definition fs_locked : Fs.t :=
  [("/tmp", dir); ("/tmp/fw", dir); (firmwarePath, file left_image 10);
   ("/Volumes", locked_dir); (NICENANO_VOLUME, locked_dir)].

(** The volume is not mounted. *)
Definition fs_unplugged : Fs.t :=
  [("/tmp", dir); ("/tmp/fw", dir); (firmwarePath, file left_image 10);
   ("/Volumes", locked_dir)].

(** The volume is mounted and writable, and holds an old image under the
    name of the firmware file. *)
Definition emptyPath : string := "/tmp/fw/sofle_right-empty.uf2".

Definition fs_mounted : Fs.t :=
  [("/tmp", dir); ("/tmp/fw", dir); (firmwarePath, file left_image 10);
   (emptyPath, file [] 10);
   ("/Volumes", locked_dir); (NICENANO_VOLUME, dir);
   ("/Volumes/NICENANO/sofle_left-nice_nano_v2.uf2", file right_image 5)].

(** The volume becomes a writable directory at time [t0]. *)
Definition mount_at (t0 : Z) (now : Z) (fs : Fs.t) : Fs.t :=
  if (t0 <=? now)%Z then Fs.write NICENANO_VOLUME dir fs else fs.

Definition nothing_happens (now : Z) (fs : Fs.t) : Fs.t := fs.

Definition env_of (external : Z -> Fs.t -> Fs.t) : Env :=
  mkEnv "/home/u" "/tmp" unzip external (fun _ => Some 0%N)
    (fun _ => inr 0%nat) (inr false).

(** The volume becomes writable just before the fifth check. *)
Definition w_flaky : World := mkWorld (env_of (mount_at 6900)) fs_locked 0.

(** The volume stays read-only. *)
Definition w_locked : World := mkWorld (env_of nothing_happens) fs_locked 0.

(** The volume is mounted during the third polling interval. *)
Definition w_plugging : World := mkWorld (env_of (mount_at 2500)) fs_unplugged 0.

(** The volume never shows up. *)
Definition w_unplugged : World := mkWorld (env_of nothing_happens) fs_unplugged 0.

(** The volume is there from the start. *)
Definition w_mounted : World := mkWorld (env_of nothing_happens) fs_mounted 0.

(** The archive folder holds an old and a new archive, a text file and
    an archive whose extension is in upper case. *)
Definition fs_downloads : Fs.t :=
  [("/home/u", dir); ("/home/u/Downloads", dir);
   ("/home/u/Downloads/Personal", dir);
   ("/home/u/Downloads/Personal/a.zip", file [Byte.x01] 1000);
   ("/home/u/Downloads/Personal/b.zip", file [Byte.x01] 5000);
   ("/home/u/Downloads/Personal/c.txt", file [Byte.x23] 7000);
   ("/home/u/Downloads/Personal/FIRMWARE.ZIP", file [Byte.x01] 9000);
   ("/tmp", dir); ("/Volumes", locked_dir)].

Definition w_downloads : World :=
  mkWorld (env_of nothing_happens) fs_downloads 100000.

(** An archive whose only entry matches both firmware patterns. *)
Definition w_both : World :=
  mkWorld (env_of nothing_happens)
    [("/home/u", dir); ("/home/u/Downloads", dir);
     ("/home/u/Downloads/Personal", dir);
     ("/home/u/Downloads/Personal/both.zip", file [Byte.x03] 1000);
     ("/tmp", dir); ("/Volumes", locked_dir)]
    100000.

(** An archive that holds the left image only. *)
Definition w_left_only : World :=
  mkWorld (env_of nothing_happens)
    [("/home/u", dir); ("/home/u/Downloads", dir);
     ("/home/u/Downloads/Personal", dir);
     ("/home/u/Downloads/Personal/left.zip", file [Byte.x02] 1000);
     ("/tmp", dir); ("/Volumes", locked_dir)]
    100000.

(** A whole run: the operator picks the first archive and agrees to
    delete it; the volume is there from the start. *)
Definition w_run : World :=
  mkWorld
    (mkEnv "/home/u" "/tmp" unzip nothing_happens (fun _ => Some 0%N)
       (fun _ => inr 0%nat) (inr true))
    (fs_downloads ++ [(NICENANO_VOLUME, dir)])%list
    100000.

(** The volume disappears after it was detected. *)
Definition unplug_at (t0 : Z) (now : Z) (fs : Fs.t) : Fs.t :=
  if (t0 <=? now)%Z then Fs.remove NICENANO_VOLUME fs else fs.

Definition w_unplugging : World :=
  mkWorld (env_of (unplug_at 101000)) (fs_downloads ++ [(NICENANO_VOLUME, dir)])%list
    100000.

(** The archive folder does not exist. *)
Definition w_no_downloads : World :=
  mkWorld (env_of nothing_happens) fs_unplugged 100000.

(** The archive folder also holds a link, named like an archive, whose
    target is gone. *)
Definition w_dangling : World :=
  mkWorld (env_of nothing_happens)
    (fs_downloads ++ [("/home/u/Downloads/Personal/gone.zip", link)])%list
    100000.

(** An archive with two images for each half, stored in the order
    b, a. *)
Definition w_two_each : World :=
  mkWorld (env_of nothing_happens)
    [("/home/u", dir); ("/home/u/Downloads", dir);
     ("/home/u/Downloads/Personal", dir);
     ("/home/u/Downloads/Personal/two.zip", file [Byte.x04] 1000);
     ("/tmp", dir); ("/Volumes", locked_dir)]
    100000.

(** A whole run with an archive in which the name that matches the left
    pattern is that of a folder. *)
Definition w_folder : World :=
  mkWorld (env_of nothing_happens)
    [("/home/u", dir); ("/home/u/Downloads", dir);
     ("/home/u/Downloads/Personal", dir);
     ("/home/u/Downloads/Personal/folder.zip", file [Byte.x05] 1000);
     ("/tmp", dir); ("/Volumes", locked_dir); (NICENANO_VOLUME, dir)]
    100000.

Definition prompt_closed : Error := Fs.JsError "User force closed the prompt".

(** A whole run in which the operator picks the first archive and closes
    the second question instead of answering it. *)
Definition w_closing : World :=
  mkWorld
    (mkEnv "/home/u" "/tmp" unzip nothing_happens (fun _ => Some 0%N)
       (fun _ => inr 0%nat) (inl prompt_closed))
    (fs_downloads ++ [(NICENANO_VOLUME, dir)])%list
    100000.

(** A whole run in which the operator picks the first archive after two
    seconds and never answers the second question. *)
Definition w_silent : World :=
  mkWorld
    (mkEnv "/home/u" "/tmp" unzip nothing_happens
       (fun message =>
          if String.eqb message "Select the firmware zip file:"
          then Some 2000%N else None)
       (fun _ => inr 0%nat) (inr true))
    (fs_downloads ++ [(NICENANO_VOLUME, dir)])%list
    100000.

(** A whole run in which the operator agrees to delete the archive, and
    the archive folder does not allow it. *)
Definition w_protected : World :=
  mkWorld
    (mkEnv "/home/u" "/tmp" unzip nothing_happens (fun _ => Some 0%N)
       (fun _ => inr 0%nat) (inr true))
    [("/home/u", dir); ("/home/u/Downloads", dir);
     ("/home/u/Downloads/Personal", locked_dir);
     ("/home/u/Downloads/Personal/a.zip", file [Byte.x01] 1000);
     ("/tmp", dir); ("/Volumes", locked_dir); (NICENANO_VOLUME, dir)]
    100000.

End Sample.

(** ** Copied files *)

(** A file name: not empty, not [.] or [..], without a slash. *)
Definition proper_name (name : string) : bool :=
  Fs.plain_name (Js.chars name)
  && negb (existsb Path.is_slash (Js.chars name)).

Definition file_content (p : string) (fs : Fs.t) : option (list Byte.byte) :=
  match Fs.lookup p fs with
  | Some n =>
      match Fs.kind n with
      | Fs.KFile content => Some content
      | Fs.KDir | Fs.KLink => None
      end
  | None => None
  end.

(** ** Archive candidates *)

Definition is_zip (file : string) : bool := Js.endsWith file ".zip".

(** The record [getZipFiles] builds for the file [f] of [folder]. *)
Definition info_of (folder : string) (fs : Fs.t) (f : string) (i : FileInfo)
    : Prop :=
  name i = f
  /\ path i = Path.join folder f
  /\ exists st, Fs.stat (Path.join folder f) fs = inr st /\ mtime i = Fs.st_mtime st.

Definition newer_or_same (a b : FileInfo) : Prop := (mtime b <= mtime a)%Z.

(** ** Extraction *)

(** The scratch directory of a run started in the world [w]. *)
Definition scratch_dir (w : World) : string := tempDir_at (env w) (clock w).

(** Neither the directory nor anything below it exists. *)
Definition scratch_absent (d : string) (fs : Fs.t) : Prop :=
  forall p, Fs.under d p = true -> Fs.lookup p fs = None.

(** The names [readdir] lists in the scratch directory after the archive
    was extracted into it, when all of that succeeds. *)
Definition scratch_listing (zipFilePath : string) (w : World)
    : option (list string) :=
  match Fs.ensureDir (clock w) (scratch_dir w) (fs w) with
  | inl _ => None
  | inr fs1 =>
      match Fs.extract (unzip (env w)) (clock w) zipFilePath (scratch_dir w) fs1 with
      | (Some _, _) => None
      | (None, fs2) =>
          match Fs.readdir (scratch_dir w) fs2 with
          | inl _ => None
          | inr files => Some files
          end
      end
  end.

(** [x] is the first element of [l] that satisfies [p]. *)
Definition first_match {A} (p : A -> bool) (l : list A) (x : A) : Prop :=
  exists pre post,
    l = (pre ++ x :: post)%list /\ Forall (fun y => p y = false) pre /\ p x = true.

(** ** The steps of a run *)

Inductive Phase : Type := WaitLeft | CopyLeft | WaitRight | CopyRight.

Definition wait_phase (side : Side) : Phase :=
  match side with Left => WaitLeft | Right => WaitRight end.

Definition copy_phase (side : Side) : Phase :=
  match side with Left => CopyLeft | Right => CopyRight end.

Definition is_wait_text (side : Side) (text : string) : bool :=
  String.prefix ("Waiting for " ++ side_str side ++ " keyboard") text
  || String.prefix ("Please put the " ++ side_str side ++ " keyboard") text
  || String.prefix (side_upper side ++ " keyboard detected") text.

Definition is_copy_text (side : Side) (text : string) : bool :=
  String.prefix ("Copying " ++ side_str side ++ " firmware") text
  || String.prefix (side_upper side ++ " firmware copied") text
  || String.prefix ("Error copying " ++ side_str side ++ " firmware") text.

(** The step a console message belongs to, for the messages that name a
    keyboard half. *)
Definition phase_of (e : Event) : option Phase :=
  match e with
  | EvConsole _ text _ =>
      if is_wait_text Left text then Some WaitLeft
      else if is_copy_text Left text then Some CopyLeft
      else if is_wait_text Right text then Some WaitRight
      else if is_copy_text Right text then Some CopyRight
      else None
  | _ => None
  end.

Fixpoint phases (t : list Event) : list Phase :=
  match t with
  | [] => []
  | e :: t' =>
      match phase_of e with
      | Some p => p :: phases t'
      | None => phases t'
      end
  end.

(** The steps come one after the other: waiting for the left half, then
    copying to it, then waiting for the right half, then copying to it,
    and none starts unless the one before it took place. *)
Definition in_order (l : list Phase) : Prop :=
  exists a b c d : nat,
    l = (repeat WaitLeft a ++ repeat CopyLeft b
           ++ repeat WaitRight c ++ repeat CopyRight d)%list
    /\ (0 < b -> 0 < a)%nat /\ (0 < c -> 0 < b)%nat /\ (0 < d -> 0 < c)%nat.

Definition completed : Event :=
  EvConsole Log "Firmware loading completed successfully!" None.

(** Every event a piece of the script produces satisfies [P], and the
    piece leaves the environment alone. *)
Definition emits (P : Event -> Prop) {A} (m : M A) : Prop :=
  forall w, Forall P (events (m w)) /\ env (world (m w)) = env w.

(** An event outside the steps, or of the step [p]; never the report of
    completion. *)
Definition within (p : option Phase) (e : Event) : Prop :=
  (phase_of e = None \/ phase_of e = p) /\ e <> completed.

(** An event that belongs to no step of the right half. *)
Definition no_right_step (e : Event) : Prop :=
  phase_of e <> Some WaitRight /\ phase_of e <> Some CopyRight.

(** How a run that has reported completion ends, by what the operator
    does with the question about the archive: without an answer the run
    does not end; when the prompt is closed instead of answered, it ends
    with status 1; with an answer, whichever, it ends with status 0. *)
Definition status_after_completion (e : Env) : option Z :=
  match answer_after e "Do you want to delete the firmware zip file?" with
  | None => None
  | Some _ =>
      match confirm_answer e with
      | inl _ => Some 1%Z
      | inr _ => Some 0%Z
      end
  end.

(** The successful copy of the image [firmwarePath] to the volume. *)
Definition image_copied (firmwarePath : string) : Event :=
  EvFs (CCopy firmwarePath (destination firmwarePath)) true.

(** An event that is no call of [fs.copy], or is the copy of the image
    [firmwarePath] to the volume, successful or not. *)
Definition copies_only (firmwarePath : string) (e : Event) : Prop :=
  is_copy e = false
  \/ exists ok, e = EvFs (CCopy firmwarePath (destination firmwarePath)) ok.

(** The trace of a run that loads both halves: the left half is
    detected, then the left image is copied to the volume, then the
    right half is detected, then the right image is copied, then
    completion is reported.  Nothing is copied before the left half is
    detected, nor from the copy of the left image to the detection of
    the right half, nor after the copy of the right image.  From the
    detection of a half to the copy of its image, only this image is
    tried, and the script does not look for the volume. *)
Definition loads_both_halves (firmware : Firmware) (t : list Event) : Prop :=
  exists t0 t1 t2 t3 t4 t5,
    t = (t0 ++ detected Left
            :: t1 ++ image_copied (leftFirmware firmware)
            :: t2 ++ detected Right
            :: t3 ++ image_copied (rightFirmware firmware)
            :: t4 ++ completed :: t5)%list
    /\ Forall (fun e => is_copy e = false) (t0 ++ t2 ++ t4)
    /\ Forall (copies_only (leftFirmware firmware)) t1
    /\ Forall (copies_only (rightFirmware firmware)) t3
    /\ Forall (fun e => is_observation e = false) (t1 ++ t3).

(** The shape of the trace of a run: events outside the steps, then the
    steps of the two halves in order, then, if those succeeded, the report
    of completion and the offer to delete the archive, after which the run
    ends as the operator's reaction to the offer decides. *)
Definition run_shape (e : Env) (r : Result unit) : Prop :=
  exists pre proc post,
    events r = (pre ++ proc ++ post)%list
    /\ Forall (within None) pre
    /\ in_order (phases proc)
    /\ ~ In completed proc
    /\ (forall err,
          In (exhausted_report Left err) proc ->
          outcome r = Throw err /\ Forall no_right_step proc /\ post = [])
    /\ (post = []
        \/ exists del,
             post = completed :: del
             /\ Forall (within None) del
             /\ exit_status (outcome r) = status_after_completion e).

(** ** Ages and delays *)

(** The label of a file that is [diffMs] milliseconds old, by the age in
    milliseconds: under a minute (or dated in the future) it is new, then
    whole minutes, whole hours from one hour on, whole days from one day
    on. *)
Definition counted (n : Z) (unit : string) : string :=
  Js.number_to_string n ++ " "
    ++ (if (n =? 1)%Z then unit else unit ++ "s") ++ " ago".

Definition age_label (diffMs : Z) : string :=
  if (diffMs <? 60000)%Z then "just now"
  else if (diffMs <? 3600000)%Z then counted (diffMs / 60000) "minute"
  else if (diffMs <? 86400000)%Z then counted (diffMs / 3600000) "hour"
  else counted (diffMs / 86400000) "day".

Definition is_delay (e : Event) : bool :=
  match e with
  | EvSleep _ => true
  | _ => false
  end.

Definition is_bar_update (e : Event) : bool :=
  match e with
  | EvBar (BarUpdate _ _) => true
  | _ => false
  end.

(** The number of passes of the progress-bar loop that starts at [i]. *)
Definition bar_passes (i stepSize : Z) : Z :=
  if (i <=? 100)%Z then (100 - i) / stepSize + 1 else 0.

Definition is_warning (e : Event) : bool :=
  match e with
  | EvConsole Warn _ _ => true
  | _ => false
  end.

(** ** Archives with the same timestamp *)

Definition has_mtime (k : Z) (i : FileInfo) : bool := (mtime i =? k)%Z.

(** [f] is a candidate of [folder] whose timestamp is [k]. *)
Definition stamped (folder : string) (fs : Fs.t) (k : Z) (f : string) : bool :=
  is_zip f
  && match Fs.stat (Path.join folder f) fs with
     | inr st => (Fs.st_mtime st =? k)%Z
     | inl _ => false
     end.

(** Three archives written at the same time, and a newer one. *)
Definition w_same_time : World :=
  mkWorld (Sample.env_of Sample.nothing_happens)
    [("/home/u", Sample.dir); ("/home/u/Downloads", Sample.dir);
     ("/home/u/Downloads/Personal", Sample.dir);
     ("/home/u/Downloads/Personal/z.zip", Sample.file [Byte.x01] 1000);
     ("/home/u/Downloads/Personal/a.zip", Sample.file [Byte.x01] 1000);
     ("/home/u/Downloads/Personal/new.zip", Sample.file [Byte.x01] 5000);
     ("/home/u/Downloads/Personal/m.zip", Sample.file [Byte.x01] 1000);
     ("/tmp", Sample.dir)]
    100000.

(** ** How a piece of the script can end *)

(** The piece never ends the process. *)
Definition never_exits {A} (m : M A) : Prop :=
  forall w c, outcome (m w) <> Exit c.

Definition is_prompt (e : Event) : bool :=
  match e with
  | EvPrompt _ => true
  | _ => false
  end.

Definition banner : list Event :=
  [EvConsole Log "Keyboard Firmware Loader" None;
   EvConsole Log "This script will help you load firmware to your split keyboard."
     None].

Definition no_archives : Event :=
  EvConsole ConsoleError "No zip files found in downloads folder." None.

(** When the piece ends the process, it does so with status 1 and right
    after an error message. *)
Definition exits_reported {A} (m : M A) : Prop :=
  forall w c,
    outcome (m w) = Exit c ->
    c = 1%Z
    /\ exists t text detail,
         events (m w) = (t ++ [EvConsole ConsoleError text detail; EvExit 1])%list.

(** The archive folder holds a text file and an archive whose extension
    is in upper case. *)
Definition w_no_zip : World :=
  mkWorld (Sample.env_of Sample.nothing_happens)
    [("/home/u", Sample.dir); ("/home/u/Downloads", Sample.dir);
     ("/home/u/Downloads/Personal", Sample.dir);
     ("/home/u/Downloads/Personal/c.txt", Sample.file [Byte.x23] 7000);
     ("/home/u/Downloads/Personal/FIRMWARE.ZIP", Sample.file [Byte.x01] 9000);
     ("/tmp", Sample.dir)]
    100000.

Definition is_unlink (e : Event) : bool :=
  match e with
  | EvFs (CUnlink _) _ => true
  | _ => false
  end.

(** An event that is not a call of [fs.unlinkSync]. *)
Definition keeps_archive (e : Event) : Prop := is_unlink e = false.

Definition ask_delete : Event :=
  EvPrompt "Do you want to delete the firmware zip file?".

Definition is_remove (e : Event) : bool :=
  match e with
  | EvFs (CRemove _) _ => true
  | _ => false
  end.

(** An event that is not a call of [fs.remove]. *)
Definition keeps_scratch (e : Event) : Prop := is_remove e = false.

Definition extracted : Event :=
  EvConsole Log "Firmware files extracted successfully!" None.

(** ** A world that nothing else changes *)

Definition quiet (e : Env) : Prop := forall now fs, external e now fs = fs.

(** ** The age shown for an archive *)

(** The label of the entry is the age of its timestamp at the time [now]. *)
Definition labelled (now : Z) (i : FileInfo) : Prop :=
  relativeTime i = age_label (now - mtime i).

(** ** File systems that differ in timestamps only *)

Definition alike (n m : Fs.Node) : Prop :=
  Fs.kind n = Fs.kind m
  /\ Fs.readable n = Fs.readable m
  /\ Fs.writable n = Fs.writable m.

Definition alike_fs (fs fs' : Fs.t) : Prop :=
  Forall2 (fun a b => fst a = fst b /\ alike (snd a) (snd b)) fs fs'.

(** Two calls fail with the same error, or succeed with file systems
    that differ in timestamps only. *)
Definition alike_result (r r' : Error + Fs.t) : Prop :=
  match r, r' with
  | inl e, inl e' => e = e'
  | inr fs, inr fs' => alike_fs fs fs'
  | _, _ => False
  end.
(* ================================================================== *)
(** * Facts about strings and patterns *)
(* ================================================================== *)

Section StringFacts.

Lemma ascii_eqb_true (a b : ascii) : Js.ascii_eqb a b = true <-> a = b.
Proof. unfold Js.ascii_eqb. apply Ascii.eqb_eq. Qed.

Lemma chars_eqb_true (l1 l2 : list ascii) : Js.chars_eqb l1 l2 = true <-> l1 = l2.
Proof.
  revert l2. induction l1 as [|a l1 IH]; intros [|b l2]; simpl; split;
    try congruence; try reflexivity.
  - intros H. apply andb_true_iff in H as [Hab Hl].
    apply ascii_eqb_true in Hab. apply IH in Hl. congruence.
  - intros H. injection H as -> ->. apply andb_true_iff. split.
    + now apply ascii_eqb_true.
    + now apply IH.
Qed.

Lemma chars_str (l : list ascii) : Js.chars (Js.str l) = l.
Proof. apply list_ascii_of_string_of_list_ascii. Qed.

Lemma str_chars (s : string) : Js.str (Js.chars s) = s.
Proof. apply string_of_list_ascii_of_string. Qed.

Lemma chars_app (s1 s2 : string) :
  Js.chars (s1 ++ s2) = (Js.chars s1 ++ Js.chars s2)%list.
Proof.
  induction s1 as [|c s1 IH]; simpl.
  - reflexivity.
  - unfold Js.chars in *. simpl. now rewrite IH.
Qed.

Lemma str_app (l1 l2 : list ascii) :
  Js.str (l1 ++ l2)%list = Js.str l1 ++ Js.str l2.
Proof.
  rewrite <- (str_chars (Js.str l1 ++ Js.str l2)).
  now rewrite chars_app, !chars_str.
Qed.

Lemma chars_inj (s1 s2 : string) : Js.chars s1 = Js.chars s2 -> s1 = s2.
Proof.
  intros H. rewrite <- (str_chars s1), <- (str_chars s2). now rewrite H.
Qed.

(** [endsWith] holds exactly for the strings that end with the suffix,
    character for character. *)
Lemma endsWith_true (s suffix : string) :
  Js.endsWith s suffix = true <-> exists pre, s = pre ++ suffix.
Proof.
  unfold Js.endsWith. split.
  - destruct (Nat.leb _ _) eqn:Hle; [|discriminate].
    intros H. apply chars_eqb_true in H.
    remember (List.length (Js.chars s) - List.length (Js.chars suffix))%nat as n.
    exists (Js.str (firstn n (Js.chars s))).
    apply chars_inj. rewrite chars_app, chars_str.
    transitivity (firstn n (Js.chars s) ++ skipn n (Js.chars s))%list.
    + symmetry. apply firstn_skipn.
    + now rewrite H.
  - intros [pre ->]. rewrite chars_app, length_app.
    replace (Nat.leb _ _) with true by (symmetry; apply Nat.leb_le; lia).
    replace (List.length (Js.chars pre) + List.length (Js.chars suffix)
             - List.length (Js.chars suffix))%nat
      with (List.length (Js.chars pre) + 0)%nat by lia.
    rewrite skipn_app, Nat.add_0_r, skipn_all, Nat.sub_diag. simpl.
    now apply chars_eqb_true.
Qed.

End StringFacts.

Section PatternFacts.

Variable ic : bool.

Lemma match_star_nil (a : RegExp.Atom) (p : list RegExp.Term) :
  RegExp.match_here ic (RegExp.Star a :: p) [] = RegExp.match_here ic p [].
Proof. reflexivity. Qed.

Lemma match_star_cons (a : RegExp.Atom) (p : list RegExp.Term) c s :
  RegExp.match_here ic (RegExp.Star a :: p) (c :: s)
  = (RegExp.atom_matches ic a c && RegExp.match_here ic (RegExp.Star a :: p) s)
    || RegExp.match_here ic p (c :: s).
Proof. reflexivity. Qed.

(** [.*] takes any run of characters without a line terminator. *)
Lemma match_star_dot (p : list RegExp.Term) (s : list ascii) :
  RegExp.match_here ic (RegExp.Star RegExp.Dot :: p) s = true
  <-> exists mid rest,
        s = (mid ++ rest)%list
        /\ Forall (fun c => RegExp.isLineTerminator c = false) mid
        /\ RegExp.match_here ic p rest = true.
Proof.
  induction s as [|c s IH].
  - rewrite match_star_nil. split.
    + intros H. exists [], []. repeat split; auto.
    + intros (mid & rest & Heq & _ & Hm).
      symmetry in Heq. apply app_eq_nil in Heq as [_ ->]. exact Hm.
  - rewrite match_star_cons, orb_true_iff, andb_true_iff, IH. split.
    + intros [[Hc (mid & rest & -> & Hmid & Hm)] | Hm].
      * exists (c :: mid), rest. repeat split; auto.
        constructor; auto. simpl in Hc. now apply negb_true_iff in Hc.
      * exists [], (c :: s). repeat split; auto.
    + intros (mid & rest & Heq & Hmid & Hm). destruct mid as [|d mid].
      * right. simpl in Heq. now rewrite Heq.
      * left. simpl in Heq. injection Heq as -> ->. inversion Hmid; subst. split.
        -- simpl. now apply negb_true_iff.
        -- exists mid, rest. repeat split; auto.
Qed.

(** A run of literal characters takes the same characters up to the
    canonicalization of the flags. *)
Lemma match_literals (l : list ascii) (p : list RegExp.Term) (s : list ascii) :
  RegExp.match_here ic (map (fun c => RegExp.One (RegExp.Lit c)) l ++ p) s = true
  <-> exists s1 rest,
        s = (s1 ++ rest)%list
        /\ map (RegExp.canonicalize ic) s1 = map (RegExp.canonicalize ic) l
        /\ RegExp.match_here ic p rest = true.
Proof.
  revert s. induction l as [|d l IH]; intros s; simpl.
  - split.
    + intros H. exists [], s. repeat split; auto.
    + intros (s1 & rest & -> & Hs1 & Hm). destruct s1; [exact Hm | discriminate].
  - destruct s as [|c s].
    + split; [discriminate|].
      intros (s1 & rest & Heq & Hs1 & _). destruct s1; discriminate.
    + rewrite andb_true_iff, IH, ascii_eqb_true. split.
      * intros [Hc (s1 & rest & -> & Hs1 & Hm)].
        exists (c :: s1), rest. repeat split; auto. simpl. congruence.
      * intros (s1 & rest & Heq & Hs1 & Hm). destruct s1 as [|c' s1]; [discriminate|].
        simpl in Heq, Hs1. injection Heq as -> ->. injection Hs1 as Hc Hs1.
        split; [congruence|]. exists s1, rest. repeat split; auto.
Qed.

Lemma match_end (s : list ascii) :
  RegExp.match_here ic [RegExp.EndOfInput] s = true <-> s = [].
Proof. destruct s; simpl; split; congruence. Qed.

(** The search succeeds when the match succeeds at some position. *)
Lemma search_true (p : list RegExp.Term) (s : list ascii) :
  RegExp.search ic p s = true
  <-> exists pre rest, s = (pre ++ rest)%list /\ RegExp.match_here ic p rest = true.
Proof.
  induction s as [|c s IH]; simpl; rewrite orb_true_iff.
  - split.
    + intros [H|H]; [|discriminate]. exists [], []. auto.
    + intros (pre & rest & Heq & Hm). left.
      symmetry in Heq. apply app_eq_nil in Heq as [_ ->]. exact Hm.
  - rewrite IH. split.
    + intros [H | (pre & rest & -> & Hm)].
      * exists [], (c :: s). auto.
      * exists (c :: pre), rest. auto.
    + intros (pre & rest & Heq & Hm). destruct pre as [|d pre].
      * left. simpl in Heq. now rewrite Heq.
      * right. simpl in Heq. injection Heq as -> ->. exists pre, rest. auto.
Qed.

End PatternFacts.

Lemma firmware_pattern_terms (side : Side) :
  firmware_pattern side
  = RegExp.mk
      (RegExp.lits (role_prefix side) ++ [RegExp.Star RegExp.Dot]
         ++ RegExp.lits firmware_extension ++ [RegExp.EndOfInput])%list
      true.
Proof. destruct side; reflexivity. Qed.

(** The names a firmware pattern accepts. *)
Lemma firmware_pattern_accepts (side : Side) (name : string) :
  RegExp.test (firmware_pattern side) name = true <-> accepted_shape side name.
Proof.
  rewrite firmware_pattern_terms.
  cbv beta iota delta [RegExp.test RegExp.lits RegExp.terms RegExp.ignoreCase].
  rewrite search_true. split.
  - intros (pre & rest & Hname & Hm).
    apply match_literals in Hm as (a & rest1 & -> & Ha & Hm).
    apply match_star_dot in Hm as (mid & rest2 & -> & Hmid & Hm).
    apply match_literals in Hm as (b & rest3 & -> & Hb & Hm).
    apply match_end in Hm as ->.
    exists (Js.str pre), (Js.str a), (Js.str mid), (Js.str b).
    repeat split.
    + apply chars_inj. rewrite !chars_app, !chars_str, Hname.
      now rewrite app_nil_r.
    + unfold eq_ignore_case, upper. now rewrite chars_str.
    + unfold no_line_terminator. now rewrite chars_str.
    + unfold eq_ignore_case, upper. now rewrite chars_str.
  - intros (pre & a & mid & b & -> & Ha & Hmid & Hb).
    exists (Js.chars pre), (Js.chars a ++ Js.chars mid ++ Js.chars b)%list.
    split; [now rewrite !chars_app|].
    apply match_literals. exists (Js.chars a), (Js.chars mid ++ Js.chars b)%list.
    repeat split; [exact Ha|].
    apply match_star_dot. exists (Js.chars mid), (Js.chars b).
    repeat split; [exact Hmid|].
    apply match_literals. exists (Js.chars b), []. rewrite app_nil_r.
    repeat split. exact Hb.
Qed.

(* ================================================================== *)
(** * Facts about lists: [find] and [sort] *)
(* ================================================================== *)

Section FindFacts.

Context {A : Type} (p : A -> bool).

Lemma find_some (l : list A) (x : A) :
  Js.find p l = Some x ->
  exists pre post,
    l = (pre ++ x :: post)%list /\ Forall (fun y => p y = false) pre /\ p x = true.
Proof.
  induction l as [|y l IH]; simpl; [discriminate|].
  destruct (p y) eqn:Hy.
  - intros H. injection H as ->. exists [], l. auto.
  - intros H. destruct (IH H) as (pre & post & -> & Hpre & Hx).
    exists (y :: pre), post. auto.
Qed.

Lemma find_none (l : list A) :
  Js.find p l = None <-> Forall (fun y => p y = false) l.
Proof.
  induction l as [|y l IH]; simpl.
  - split; auto.
  - destruct (p y) eqn:Hy.
    + split; [discriminate|]. intros H. inversion H; congruence.
    + rewrite IH. split.
      * auto.
      * intros H. now inversion H.
Qed.

Lemma find_first (pre post : list A) (x : A) :
  Forall (fun y => p y = false) pre -> p x = true ->
  Js.find p (pre ++ x :: post) = Some x.
Proof.
  induction 1 as [|y pre Hy _ IH]; intros Hx; simpl.
  - now rewrite Hx.
  - rewrite Hy. now apply IH.
Qed.

Lemma find_exists (l : list A) (x : A) :
  In x l -> p x = true -> exists y, Js.find p l = Some y.
Proof.
  intros Hin Hx. destruct (Js.find p l) as [y|] eqn:Hf; [now exists y|].
  apply find_none in Hf. rewrite Forall_forall in Hf.
  specialize (Hf x Hin). congruence.
Qed.

End FindFacts.

Section SortFacts.

Context {A : Type} (cmp : A -> A -> Z).

Hypothesis before_total : forall a b, Js.before cmp a b \/ Js.before cmp b a.
Hypothesis before_trans : forall a b c, Js.before cmp a b -> Js.before cmp b c -> Js.before cmp a c.

Lemma insert_perm (x : A) (l : list A) : Permutation (Js.insert cmp x l) (x :: l).
Proof.
  induction l as [|y l IH]; simpl.
  - apply Permutation_refl.
  - destruct (cmp x y <=? 0)%Z.
    + apply Permutation_refl.
    + eapply perm_trans; [apply perm_skip, IH | apply perm_swap].
Qed.

Lemma sort_perm (l : list A) : Permutation (Js.sort cmp l) l.
Proof.
  induction l as [|x l IH]; simpl.
  - constructor.
  - eapply perm_trans; [apply insert_perm | now apply perm_skip].
Qed.

Lemma insert_sorted (x : A) (l : list A) :
  StronglySorted (Js.before cmp) l -> StronglySorted (Js.before cmp) (Js.insert cmp x l).
Proof.
  induction l as [|y l IH]; simpl; intros Hs.
  - constructor; constructor.
  - inversion Hs as [|? ? Hl Hy]; subst.
    destruct (cmp x y <=? 0)%Z eqn:Hxy.
    + apply Z.leb_le in Hxy. fold (Js.before cmp x y) in Hxy. constructor; [exact Hs|].
      constructor; [exact Hxy|].
      eapply Forall_impl; [|exact Hy]. intros z Hz. now apply before_trans with y.
    + apply Z.leb_gt in Hxy. constructor; [now apply IH|].
      apply (Permutation_Forall (Permutation_sym (insert_perm x l))).
      constructor; [|exact Hy].
      destruct (before_total y x) as [H|H]; [exact H|]. unfold Js.before in H. lia.
Qed.

Lemma sort_sorted (l : list A) : StronglySorted (Js.before cmp) (Js.sort cmp l).
Proof.
  induction l as [|x l IH]; simpl.
  - constructor.
  - now apply insert_sorted.
Qed.

End SortFacts.

(* ================================================================== *)
(** * Facts about the file system *)
(* ================================================================== *)

Section FsFacts.

Lemma lookup_write_same (p : string) (n : Fs.Node) (fs : Fs.t) :
  Fs.lookup p (Fs.write p n fs) = Some n.
Proof.
  induction fs as [|[q m] fs IH]; simpl.
  - now rewrite String.eqb_refl.
  - destruct (String.eqb q p) eqn:Hq; simpl.
    + now rewrite String.eqb_refl.
    + now rewrite Hq.
Qed.

Lemma lookup_write_other (p q : string) (n : Fs.Node) (fs : Fs.t) :
  q <> p -> Fs.lookup q (Fs.write p n fs) = Fs.lookup q fs.
Proof.
  intros Hne. induction fs as [|[q' m] fs IH]; simpl.
  - destruct (String.eqb p q) eqn:Hpq; [|reflexivity].
    apply String.eqb_eq in Hpq. congruence.
  - destruct (String.eqb q' p) eqn:Hq; simpl.
    + apply String.eqb_eq in Hq. subst q'.
      destruct (String.eqb p q) eqn:Hpq; [|reflexivity].
      apply String.eqb_eq in Hpq. congruence.
    + now rewrite IH.
Qed.

Lemma lookup_none_not_in (p : string) (fs : Fs.t) :
  Fs.lookup p fs = None <-> ~ In p (map fst fs).
Proof.
  induction fs as [|[q m] fs IH]; simpl.
  - tauto.
  - destruct (String.eqb q p) eqn:Hq.
    + apply String.eqb_eq in Hq. split; [discriminate|]. intros H. exfalso. auto.
    + apply String.eqb_neq in Hq. rewrite IH. tauto.
Qed.

(** After [remove d], neither [d] nor anything below it is left. *)
Lemma lookup_remove_under (d p : string) (fs : Fs.t) :
  Fs.under d p = true -> Fs.lookup p (Fs.remove d fs) = None.
Proof.
  intros Hu. apply lookup_none_not_in. unfold Fs.remove.
  intros Hin. apply in_map_iff in Hin as ([q m] & Hq & Hin). simpl in Hq. subst q.
  apply filter_In in Hin as [_ Hf]. simpl in Hf. rewrite Hu in Hf. discriminate.
Qed.

Lemma under_self (d : string) : Fs.under d d = true.
Proof. unfold Fs.under. now rewrite String.eqb_refl. Qed.

End FsFacts.

(* ================================================================== *)
(** * Facts about the monad *)
(* ================================================================== *)

Section MonadFacts.

Context {A B : Type}.

Lemma bind_outcome (m : M A) (k : A -> M B) (w : World) :
  outcome (bind m k w)
  = match outcome (m w) with
    | Ret a => outcome (k a (world (m w)))
    | Throw e => Throw e
    | Exit c => Exit c
    | OutOfFuel => OutOfFuel
    end.
Proof. unfold bind. now destruct (outcome (m w)). Qed.

Lemma bind_world (m : M A) (k : A -> M B) (w : World) :
  world (bind m k w)
  = match outcome (m w) with
    | Ret a => world (k a (world (m w)))
    | _ => world (m w)
    end.
Proof. unfold bind. now destruct (outcome (m w)). Qed.

Lemma bind_events (m : M A) (k : A -> M B) (w : World) :
  events (bind m k w)
  = (events (m w)
     ++ match outcome (m w) with
        | Ret a => events (k a (world (m w)))
        | _ => []
        end)%list.
Proof. unfold bind. destruct (outcome (m w)); simpl; now rewrite ?app_nil_r. Qed.

Lemma try_catch_outcome (m : M A) (h : Error -> M A) (w : World) :
  outcome (try_catch m h w)
  = match outcome (m w) with
    | Throw e => outcome (h e (world (m w)))
    | o => o
    end.
Proof. unfold try_catch. destruct (outcome (m w)) eqn:H; simpl; congruence. Qed.

Lemma try_catch_world (m : M A) (h : Error -> M A) (w : World) :
  world (try_catch m h w)
  = match outcome (m w) with
    | Throw e => world (h e (world (m w)))
    | _ => world (m w)
    end.
Proof. unfold try_catch. now destruct (outcome (m w)). Qed.

Lemma try_catch_events (m : M A) (h : Error -> M A) (w : World) :
  events (try_catch m h w)
  = (events (m w)
     ++ match outcome (m w) with
        | Throw e => events (h e (world (m w)))
        | _ => []
        end)%list.
Proof. unfold try_catch. destruct (outcome (m w)); simpl; now rewrite ?app_nil_r. Qed.

End MonadFacts.

(** Push the projections of a result through the binds of a script. *)
Ltac step_binds :=
  repeat (progress
            (rewrite ?bind_outcome, ?bind_events, ?bind_world,
               ?try_catch_outcome, ?try_catch_events, ?try_catch_world;
             cbn [emit ret throw out_of_fuel console_log console_warn
                    console_error process_exit date_now get_env
                    outcome world events])).

Lemma result_eta {A} (r : Result A) :
  r = mkResult (outcome r) (world r) (events r).
Proof. now destruct r. Qed.

(* ================================================================== *)
(** * The readiness check *)
(* ================================================================== *)

Lemma result_ext {A} (r : Result A) o w t :
  outcome r = o -> world r = w -> events r = t -> r = mkResult o w t.
Proof. intros <- <- <-. apply result_eta. Qed.

Lemma access_exists (p : string) (fs : Fs.t) :
  Fs.access p Fs.F_OK fs
  = if path_exists p fs then inr tt
    else inl (Fs.SystemError Fs.ENOENT "access" p).
Proof. unfold Fs.access, path_exists. now destruct (Fs.resolve p fs). Qed.

Lemma access_writable (p : string) (fs : Fs.t) :
  path_exists p fs = true ->
  Fs.access p Fs.W_OK fs
  = if writable p fs then inr tt
    else inl (Fs.SystemError Fs.EACCES "access" p).
Proof.
  unfold Fs.access, path_exists, writable.
  destruct (Fs.resolve p fs); [reflexivity | discriminate].
Qed.

Lemma readdir_listable (p : string) (fs : Fs.t) :
  path_exists p fs = true ->
  if listable p fs then Fs.readdir p fs = inr (Fs.listing p fs)
  else exists e, Fs.readdir p fs = inl e.
Proof.
  unfold Fs.readdir, path_exists, listable.
  destruct (Fs.resolve p fs) as [n|]; [intros _ | discriminate].
  destruct (Fs.is_dir n); cbn [negb andb]; [|eauto].
  destruct (Fs.readable n); cbn [negb]; eauto.
Qed.

Lemma fs_read_run {A} (call : FsCall) (f : Fs.t -> Error + A) (w : World) :
  fs_read call f w
  = match f (fs w) with
    | inl e => mkResult (Throw e) w [EvFs call false]
    | inr a => mkResult (Ret a) w [EvFs call true]
    end.
Proof. reflexivity. Qed.

Lemma isVolumeReady_run (w : World) :
  isVolumeReady w = mkResult (Ret (ready (fs w))) w (ready_events (fs w)).
Proof.
  unfold isVolumeReady, ready, ready_events, fs_access, fs_readdir.
  destruct (path_exists NICENANO_VOLUME (fs w)) eqn:Hex.
  - pose proof (readdir_listable _ _ Hex) as Hrd.
    destruct (listable NICENANO_VOLUME (fs w)).
    + apply result_ext; step_binds; rewrite ?fs_read_run, access_exists, Hex;
        step_binds; rewrite Hrd; step_binds;
        rewrite (access_writable _ _ Hex);
        destruct (writable NICENANO_VOLUME (fs w)); reflexivity.
    + destruct Hrd as [e Hrd].
      apply result_ext; step_binds; rewrite ?fs_read_run, access_exists, Hex;
        step_binds; rewrite Hrd; reflexivity.
  - apply result_ext; step_binds; rewrite ?fs_read_run, access_exists, Hex;
      reflexivity.
Qed.

(* ================================================================== *)
(** * Counting events *)
(* ================================================================== *)

Lemma count_app (p : Event -> bool) (t u : list Event) :
  count p (t ++ u) = (count p t + count p u)%nat.
Proof. unfold count. now rewrite filter_app, length_app. Qed.

Lemma count_cons (p : Event -> bool) (e : Event) (t : list Event) :
  count p (e :: t) = ((if p e then 1 else 0) + count p t)%nat.
Proof. unfold count. simpl. now destruct (p e). Qed.

Lemma count_nil (p : Event -> bool) : count p [] = 0%nat.
Proof. reflexivity. Qed.

Lemma count_none (p : Event -> bool) (t : list Event) :
  Forall (fun e => p e = false) t -> count p t = 0%nat.
Proof.
  induction 1 as [|e t He _ IH]; [reflexivity|].
  now rewrite count_cons, He, IH.
Qed.

Lemma observations_ready_events (fs : Fs.t) :
  count is_observation (ready_events fs) = 1%nat.
Proof.
  unfold ready_events.
  destruct (path_exists _ _); [destruct (listable _ _)|]; reflexivity.
Qed.

Lemma sleeps_ready_events (ms : Z) (fs : Fs.t) :
  count (is_sleep ms) (ready_events fs) = 0%nat.
Proof.
  unfold ready_events.
  destruct (path_exists _ _); [destruct (listable _ _)|]; reflexivity.
Qed.

Lemma ready_events_ready (fs : Fs.t) :
  ready fs = true ->
  ready_events fs
  = [EvFs (CAccess NICENANO_VOLUME Fs.F_OK) true;
     EvFs (CReaddir NICENANO_VOLUME) true;
     EvFs (CAccess NICENANO_VOLUME Fs.W_OK) true].
Proof.
  unfold ready, ready_events. intros H.
  apply andb_true_iff in H as [H Hw]. apply andb_true_iff in H as [He Hl].
  now rewrite He, Hl, Hw.
Qed.

(* ================================================================== *)
(** * The polling loop *)
(* ================================================================== *)

Lemma wait_loop_step (fuel : nat) (side : Side) (w : World) :
  wait_loop (S fuel) side w
  = if ready (fs w) then
      mkResult (Ret tt) (after_sleep 1500 w)
        (ready_events (fs w) ++ [detected side; EvSleep 1500])
    else
      let r := wait_loop fuel side (after_sleep 1000 w) in
      mkResult (outcome r) (world r)
        (ready_events (fs w) ++ EvSleep 1000 :: events r).
Proof.
  cbn [wait_loop]. unfold bind at 1. rewrite isVolumeReady_run.
  cbn [outcome world events]. destruct (ready (fs w)).
  - reflexivity.
  - unfold bind, sleep, after_sleep. cbn [outcome world events].
    destruct (outcome (wait_loop fuel side _)); reflexivity.
Qed.

Lemma poll_world_succ (w : World) (k : nat) :
  poll_world w (S k) = poll_world (after_sleep 1000 w) k.
Proof. unfold poll_world. apply Nat.iter_succ_r. Qed.

Lemma observation_succ (w : World) (k : nat) :
  observation w (S k) = observation (after_sleep 1000 w) k.
Proof. unfold observation. now rewrite poll_world_succ. Qed.

(** The loop returns at the first observation that is true. *)
Lemma wait_loop_first_ready (side : Side) (k : nat) :
  forall (fuel : nat) (w : World),
    (forall j, (j < k)%nat -> observation w j = false) ->
    observation w k = true ->
    (k < fuel)%nat ->
    exists t,
      wait_loop fuel side w
      = mkResult (Ret tt) (after_sleep 1500 (poll_world w k))
          (t ++ ready_events (fs (poll_world w k)) ++ [detected side; EvSleep 1500])
      /\ count is_observation t = k
      /\ count (is_sleep 1000) t = k
      /\ count (is_sleep 1500) t = 0%nat.
Proof.
  induction k as [|k IH]; intros fuel w Hfalse Htrue Hfuel;
    (destruct fuel as [|fuel]; [lia|]); rewrite wait_loop_step.
  - unfold observation in Htrue. simpl in Htrue. rewrite Htrue.
    exists []. repeat split.
  - assert (H0 : ready (fs w) = false) by (apply (Hfalse 0%nat); lia).
    rewrite H0.
    destruct (IH fuel (after_sleep 1000 w)) as (t & Hrun & Hobs & Hs & Hs').
    + intros j Hj. rewrite <- observation_succ. apply Hfalse. lia.
    + now rewrite <- observation_succ.
    + lia.
    + exists (ready_events (fs w) ++ EvSleep 1000 :: t)%list.
      rewrite Hrun, poll_world_succ. cbn [outcome world events].
      repeat split.
      * now rewrite <- app_assoc.
      * now rewrite count_app, count_cons, observations_ready_events, Hobs.
      * now rewrite count_app, count_cons, sleeps_ready_events, Hs.
      * now rewrite count_app, count_cons, sleeps_ready_events, Hs'.
Qed.

(** Without a true observation the loop uses up any fuel. *)
Lemma wait_loop_never_ready (side : Side) (fuel : nat) :
  forall (w : World),
    (forall k, observation w k = false) ->
    outcome (wait_loop fuel side w) = OutOfFuel
    /\ count is_observation (events (wait_loop fuel side w)) = fuel.
Proof.
  induction fuel as [|fuel IH]; intros w Hnever.
  - split; reflexivity.
  - rewrite wait_loop_step.
    assert (H0 : ready (fs w) = false) by apply (Hnever 0%nat).
    rewrite H0. cbn [outcome world events].
    destruct (IH (after_sleep 1000 w)) as [Ho Hc].
    + intros k. rewrite <- observation_succ. apply Hnever.
    + split; [exact Ho|].
      now rewrite count_app, count_cons, observations_ready_events, Hc.
Qed.

Lemma waitForBootloaderMode_run (fuel : nat) (side : Side) (w : World) :
  waitForBootloaderMode fuel side w
  = let r := wait_loop fuel side w in
    mkResult (outcome r) (world r)
      (EvConsole Log ("Waiting for " ++ side_str side
                        ++ " keyboard to be in bootloader mode...") None
       :: EvConsole Log ("Please put the " ++ side_str side
                           ++ " keyboard in bootloader mode by pressing and holding the reset button while plugging in the USB cable.") None
       :: events r).
Proof.
  unfold waitForBootloaderMode, bind, console_log, emit.
  cbn [outcome world events app].
  destruct (outcome (wait_loop fuel side w)); reflexivity.
Qed.

(* ================================================================== *)
(** * The progress bar *)
(* ================================================================== *)

Lemma bar_loop_run (stepSize stepTimeMs : Z) (status : string) :
  (0 < stepSize)%Z ->
  forall (fuel : nat) (i : Z) (w : World),
    (Z.to_nat (101 - i) < fuel)%nat ->
    let r := bar_loop fuel i stepSize stepTimeMs status w in
    outcome r = Ret tt
    /\ Forall (fun e => is_quiet e = true) (events r)
    /\ env (world r) = env w.
Proof.
  intros Hstep. induction fuel as [|fuel IH]; intros i w Hfuel; [lia|].
  cbn [bar_loop]. destruct (i <=? 100)%Z eqn:Hi.
  - apply Z.leb_le in Hi.
    destruct (IH (i + stepSize)%Z (world (sleep stepTimeMs w))) as (Ho & He & Hw);
      [lia|].
    cbn zeta. unfold bind at 1. cbn [emit outcome world events].
    unfold bind at 1. cbn [sleep outcome world events].
    cbn [sleep world] in Ho, He, Hw. rewrite Ho. cbn [outcome world events].
    repeat split.
    + repeat constructor. exact He.
    + exact Hw.
  - cbn. repeat split. constructor.
Qed.

Lemma animateProgressBar_run (durationMs : Z) (status : string) (steps : Z)
    (w : World) :
  (0 < 100 / steps)%Z ->
  let r := animateProgressBar durationMs status steps w in
  outcome r = Ret tt
  /\ Forall (fun e => is_quiet e = true) (events r)
  /\ env (world r) = env w.
Proof.
  intros Hsteps. unfold animateProgressBar.
  destruct (bar_loop_run (100 / steps) (durationMs / steps) status Hsteps
              102 0%Z w) as (Ho & He & Hw); [simpl; lia|].
  cbn zeta in *. step_binds. rewrite Ho. step_binds. repeat split.
  - constructor; [reflexivity|]. apply Forall_app. split; [exact He|].
    repeat constructor.
  - exact Hw.
Qed.

(* ================================================================== *)
(** * One copy attempt *)
(* ================================================================== *)

Lemma prepare_copy_run (side : Side) (w : World) :
  outcome (prepare_copy side w) = Ret tt
  /\ env (checked_world side w) = env w
  /\ exists q, Forall (fun e => is_quiet e = true) q
               /\ events (prepare_copy side w) = attempt_start side :: ensuring :: q.
Proof.
  unfold checked_world, prepare_copy.
  destruct (animateProgressBar_run 500 "Preparing keyboard for writing..." 10 w)
    as (Ho & He & Hw); [reflexivity|].
  cbn zeta in *. step_binds. rewrite Ho. step_binds.
  split; [reflexivity|]. split; [exact Hw|].
  eexists. split; [exact He|]. reflexivity.
Qed.

(** An attempt: after the preparation the volume is checked, and only
    after a passed check the file is copied, in the same file system. *)
Lemma copy_attempt_run (firmwarePath : string) (side : Side) (w : World) :
  let w1 := checked_world side w in
  exists q,
    Forall (fun e => is_quiet e = true) q
    /\ match Fs.access NICENANO_VOLUME Fs.W_OK (fs w1) with
       | inl e =>
           copy_attempt firmwarePath side w
           = mkResult (Throw e) w1
               (attempt_start side :: ensuring :: q
                  ++ [EvFs (CAccess NICENANO_VOLUME Fs.W_OK) false])
       | inr _ =>
           match Fs.copy (clock w1) firmwarePath (destination firmwarePath) (fs w1) with
           | inl e =>
               copy_attempt firmwarePath side w
               = mkResult (Throw e) w1
                   (attempt_start side :: ensuring :: q
                      ++ [check_passed;
                          EvFs (CCopy firmwarePath (destination firmwarePath)) false])
           | inr fs2 =>
               exists q2,
                 Forall (fun e => is_quiet e = true) q2
                 /\ copy_attempt firmwarePath side w
                    = mkResult (Ret tt)
                        (world (animateProgressBar 1000 "Restarting keyboard..." 20
                                  (set_fs fs2 w1)))
                        (attempt_start side :: ensuring :: q
                           ++ check_passed
                           :: EvFs (CCopy firmwarePath (destination firmwarePath)) true
                           :: copied side ++ q2)
           end
       end.
Proof.
  cbn zeta. unfold checked_world.
  destruct (prepare_copy_run side w) as (Ho & _ & q & Hq & He).
  exists q. split; [exact Hq|].
  unfold copy_attempt, fs_access, fs_copy.
  remember (prepare_copy side w) as rp eqn:Hrp.
  assert (Hb : forall k : unit -> M unit,
             bind (prepare_copy side) k w
             = mkResult (outcome (k tt (world rp))) (world (k tt (world rp)))
                 (events rp ++ events (k tt (world rp)))).
  { intros k. unfold bind. rewrite <- Hrp, Ho. reflexivity. }
  rewrite Hb. clear Hb Hrp. rewrite He. clear He Ho.
  generalize (world rp). clear rp. intros w1.
  destruct (Fs.access NICENANO_VOLUME Fs.W_OK (fs w1)) as [e|[]] eqn:Hacc.
  - step_binds. rewrite !fs_read_run, Hacc. reflexivity.
  - destruct (Fs.copy (clock w1) firmwarePath (destination firmwarePath) (fs w1))
      as [e|fs2] eqn:Hcopy.
    + step_binds. rewrite !fs_read_run, Hacc. step_binds.
      unfold fs_update. rewrite Hcopy. reflexivity.
    + destruct (animateProgressBar_run 1000 "Restarting keyboard..." 20 (set_fs fs2 w1))
        as (Ho2 & He2 & _); [reflexivity|].
      cbn zeta in Ho2, He2.
      exists (events (animateProgressBar 1000 "Restarting keyboard..." 20 (set_fs fs2 w1))).
      split; [exact He2|].
      step_binds. rewrite !fs_read_run, Hacc. step_binds.
      unfold fs_update. rewrite Hcopy. step_binds. rewrite Ho2.
      remember (animateProgressBar 1000 "Restarting keyboard..." 20 (set_fs fs2 w1)) as ra.
      unfold copied, check_passed. cbn [app]. rewrite <- ?app_assoc. reflexivity.
Qed.

(* ================================================================== *)
(** * Checks before copies *)
(* ================================================================== *)

Lemma guarded_from_app (b : bool) (t u : list Event) :
  guarded_from b (t ++ u)
  = guarded_from b t && guarded_from (ends_checked b t) u.
Proof.
  revert b. induction t as [|e t IH]; intros b; simpl.
  - reflexivity.
  - now rewrite IH, andb_assoc.
Qed.

Lemma guarded_no_copy (t : list Event) :
  Forall (fun e => is_copy e = false) t -> forall b, guarded_from b t = true.
Proof.
  induction 1 as [|e t He _ IH]; intros b; simpl.
  - reflexivity.
  - now rewrite He, IH.
Qed.

Lemma guarded_app (t u : list Event) :
  (forall b, guarded_from b t = true) ->
  (forall b, guarded_from b u = true) ->
  forall b, guarded_from b (t ++ u) = true.
Proof. intros Ht Hu b. now rewrite guarded_from_app, Ht, Hu. Qed.

Lemma is_check_passed_true (e : Event) :
  is_check_passed e = true -> e = check_passed.
Proof.
  destruct e as [| |[p [] | | | | | | |] [] | | |]; try discriminate.
  simpl. intros H. apply String.eqb_eq in H. now subst p.
Qed.

Lemma ends_checked_snoc (b : bool) (t : list Event) (e : Event) :
  ends_checked b (t ++ [e]) = is_check_passed e.
Proof. revert b. induction t as [|x t IH]; intros b; simpl; auto. Qed.

Lemma ends_checked_true (b : bool) (t : list Event) :
  ends_checked b t = true ->
  (t = [] /\ b = true) \/ exists t0, t = (t0 ++ [check_passed])%list.
Proof.
  destruct t as [|e t _] using rev_ind.
  - simpl. intros ->. now left.
  - rewrite ends_checked_snoc. intros He. right. exists t.
    now rewrite (is_check_passed_true e He).
Qed.

(** What the checker says, in words: the event before a copy is a passed
    check of the volume. *)
Lemma guarded_spec (t : list Event) :
  guarded t = true ->
  forall t1 e t2,
    t = (t1 ++ e :: t2)%list -> is_copy e = true ->
    exists t0, t1 = (t0 ++ [check_passed])%list.
Proof.
  unfold guarded. intros Hg t1 e t2 -> He.
  rewrite guarded_from_app in Hg. apply andb_true_iff in Hg as [_ Hg].
  cbn [guarded_from] in Hg. rewrite He in Hg. apply andb_true_iff in Hg as [Hg _].
  apply ends_checked_true in Hg as [[_ Hg]|Hg]; [discriminate | exact Hg].
Qed.

Lemma quiet_no_copy (q : list Event) :
  Forall (fun e => is_quiet e = true) q -> Forall (fun e => is_copy e = false) q.
Proof. apply Forall_impl. now intros [| | | | |]. Qed.

Lemma quiet_count (p : Event -> bool) (q : list Event) :
  (forall e, is_quiet e = true -> p e = false) ->
  Forall (fun e => is_quiet e = true) q -> count p q = 0%nat.
Proof.
  intros Hp Hq. apply count_none. eapply Forall_impl; [|exact Hq]. exact Hp.
Qed.

Lemma quiet_not_attempt side e : is_quiet e = true -> is_attempt_start side e = false.
Proof. now destruct e. Qed.

Lemma quiet_not_check e : is_quiet e = true -> is_check e = false.
Proof. now destruct e. Qed.

Lemma attempt_start_counts (side : Side) :
  is_attempt_start side (attempt_start side) = true.
Proof. destruct side; reflexivity. Qed.

(** What every attempt does, whatever its result. *)
Lemma copy_attempt_facts (firmwarePath : string) (side : Side) (w : World) :
  let r := copy_attempt firmwarePath side w in
  (outcome r = Ret tt \/ exists e, outcome r = Throw e)
  /\ count (is_attempt_start side) (events r) = 1%nat
  /\ count is_check (events r) = 1%nat
  /\ (forall b, guarded_from b (events r) = true).
Proof.
  destruct (copy_attempt_run firmwarePath side w) as (q & Hq & Hrun).
  cbn zeta.
  assert (Hqa := quiet_count (is_attempt_start side) q (quiet_not_attempt side) Hq).
  assert (Hqc := quiet_count is_check q quiet_not_check Hq).
  assert (Hqg := guarded_no_copy q (quiet_no_copy q Hq)).
  destruct (Fs.access _ _ _) as [e|[]].
  - rewrite Hrun. cbn [outcome events]. repeat split.
    + right. now exists e.
    + rewrite !count_cons, count_app, Hqa, attempt_start_counts.
      destruct side; reflexivity.
    + rewrite !count_cons, count_app, Hqc. destruct side; reflexivity.
    + intros b. change (attempt_start side :: ensuring :: q ++ _)%list
        with ([attempt_start side; ensuring] ++ q ++ [EvFs (CAccess NICENANO_VOLUME Fs.W_OK) false])%list.
      apply guarded_app; [now destruct side|].
      apply guarded_app; [exact Hqg|]. reflexivity.
  - destruct (Fs.copy _ _ _ _) as [e|fs2].
    + rewrite Hrun. cbn [outcome events]. repeat split.
      * right. now exists e.
      * rewrite !count_cons, count_app, Hqa, attempt_start_counts.
        destruct side; reflexivity.
      * rewrite !count_cons, count_app, Hqc. destruct side; reflexivity.
      * intros b. change (attempt_start side :: ensuring :: q ++ ?t)%list
          with ([attempt_start side; ensuring] ++ q ++ t)%list.
        apply guarded_app; [now destruct side|].
        apply guarded_app; [exact Hqg|]. reflexivity.
    + destruct Hrun as (q2 & Hq2 & Hrun). rewrite Hrun. cbn [outcome events].
      assert (Hqa2 := quiet_count (is_attempt_start side) q2 (quiet_not_attempt side) Hq2).
      assert (Hqc2 := quiet_count is_check q2 quiet_not_check Hq2).
      assert (Hqg2 := guarded_no_copy q2 (quiet_no_copy q2 Hq2)).
      repeat split.
      * now left.
      * rewrite !count_cons, count_app, !count_cons, count_app, Hqa, Hqa2,
          attempt_start_counts.
        destruct side; reflexivity.
      * rewrite !count_cons, count_app, !count_cons, count_app, Hqc, Hqc2.
        destruct side; reflexivity.
      * intros b.
        change (attempt_start side :: ensuring :: q ++ check_passed :: ?c :: copied side ++ q2)%list
          with ([attempt_start side; ensuring] ++ q ++ ([check_passed; c] ++ copied side) ++ q2)%list.
        apply guarded_app; [now destruct side|].
        apply guarded_app; [exact Hqg|].
        apply guarded_app; [|exact Hqg2].
        intros b'. now destruct side.
Qed.

(* ================================================================== *)
(** * The retry loop *)
(* ================================================================== *)

Lemma retry_notice_run (side : Side) (retries : Z) (w : World) :
  outcome (retry_notice side retries w) = Ret tt
  /\ exists text q,
       events (retry_notice side retries w) = EvConsole Warn text None :: q
       /\ Forall (fun e => is_quiet e = true) q.
Proof.
  unfold retry_notice.
  match goal with
  | |- context [animateProgressBar ?d ?s ?n] =>
      destruct (animateProgressBar_run d s n w) as (Ho & He & _); [reflexivity|]
  end.
  cbn zeta in Ho, He. step_binds. rewrite Ho. split; [reflexivity|].
  eexists _, _. split; [reflexivity | exact He].
Qed.

Lemma copy_loop_step (fuel : nat) (firmwarePath : string) (side : Side)
    (retries : Z) (w : World) :
  copy_loop (S fuel) firmwarePath side retries w
  = if (retries <? maxRetries)%Z then
      let ra := copy_attempt firmwarePath side w in
      match outcome ra with
      | Throw e =>
          if (retries + 1 >=? maxRetries)%Z then
            mkResult (Throw e) (world ra) (events ra ++ [exhausted_report side e])
          else
            let rn := retry_notice side (retries + 1) (world ra) in
            let rl := copy_loop fuel firmwarePath side (retries + 1) (world rn) in
            mkResult (outcome rl) (world rl) (events ra ++ events rn ++ events rl)
      | _ => ra
      end
    else mkResult (Ret tt) w [].
Proof.
  cbn [copy_loop]. destruct (retries <? maxRetries)%Z; [|reflexivity].
  cbn zeta. unfold try_catch.
  remember (copy_attempt firmwarePath side w) as ra eqn:Hra. clear Hra.
  destruct (outcome ra) as [a|e|c|] eqn:Hra; try reflexivity.
  destruct (retries + 1 >=? maxRetries)%Z.
  - reflexivity.
  - destruct (retry_notice_run side (retries + 1) (world ra)) as (Hn & _).
    unfold bind. rewrite Hn.
    remember (retry_notice side (retries + 1) (world ra)) as rn. clear Heqrn.
    cbn [outcome world events].
    destruct (outcome (copy_loop fuel firmwarePath side (retries + 1) (world rn)));
      cbn [outcome world events]; now rewrite ?app_nil_r.
Qed.

Lemma copy_attempt_outcome (firmwarePath : string) (side : Side) (w : World) :
  outcome (copy_attempt firmwarePath side w)
  = match Fs.access NICENANO_VOLUME Fs.W_OK (fs (checked_world side w)) with
    | inl e => Throw e
    | inr _ =>
        match Fs.copy (clock (checked_world side w)) firmwarePath
                (destination firmwarePath) (fs (checked_world side w)) with
        | inl e => Throw e
        | inr _ => Ret tt
        end
    end.
Proof.
  destruct (copy_attempt_run firmwarePath side w) as (q & _ & Hrun).
  cbn zeta in Hrun.
  destruct (Fs.access _ _ _) as [e|u]; [now rewrite Hrun|].
  destruct (Fs.copy _ _ _ _) as [e|fs2]; [now rewrite Hrun|].
  destruct Hrun as (q2 & _ & Hrun). now rewrite Hrun.
Qed.

Lemma exhausted_report_counts (side : Side) (e : Error) :
  is_attempt_start side (exhausted_report side e) = false
  /\ is_check (exhausted_report side e) = false
  /\ is_copy (exhausted_report side e) = false.
Proof. repeat split. Qed.

(** Whatever the fuel: at most [maxRetries - retries] attempts, one check
    of the volume in each, and no copy without a passed check directly
    before it. *)
Lemma copy_loop_bounded (firmwarePath : string) (side : Side) (fuel : nat) :
  forall (retries : Z) (w : World),
    (0 <= retries)%Z ->
    let r := copy_loop fuel firmwarePath side retries w in
    (attempts side (events r) <= Z.to_nat (maxRetries - retries))%nat
    /\ checks (events r) = attempts side (events r)
    /\ (forall b, guarded_from b (events r) = true).
Proof.
  unfold attempts, checks.
  induction fuel as [|fuel IH]; intros retries w Hr; cbn zeta.
  - cbn. repeat split. lia.
  - rewrite copy_loop_step. destruct (retries <? maxRetries)%Z eqn:Hlt.
    2:{ cbn. repeat split. lia. }
    apply Z.ltb_lt in Hlt. unfold maxRetries in *.
    destruct (copy_attempt_facts firmwarePath side w) as (_ & Ha & Hc & Hg).
    cbn zeta in *.
    remember (copy_attempt firmwarePath side w) as ra eqn:Hra. clear Hra.
    assert (Hone : (1 <= Z.to_nat (5 - retries))%nat) by lia.
    destruct (outcome ra) as [a|e|c|];
      try (rewrite Ha, Hc; repeat split; [lia | exact Hg]).
    destruct (retries + 1 >=? 5)%Z eqn:Hge; cbn [events].
    + rewrite !count_app, Ha, Hc.
      change (count (is_attempt_start side) [exhausted_report side e]) with 0%nat.
      change (count is_check [exhausted_report side e]) with 0%nat.
      repeat split; [lia|].
      apply guarded_app; [exact Hg | reflexivity].
    + rewrite Z.geb_leb in Hge. apply Z.leb_gt in Hge.
      destruct (retry_notice_run side (retries + 1) (world ra))
        as (_ & text & q & Hev & Hq).
      remember (retry_notice side (retries + 1) (world ra)) as rn. clear Heqrn.
      destruct (IH (retries + 1)%Z (world rn)) as (IHa & IHc & IHg); [lia|].
      cbn zeta in *.
      remember (copy_loop fuel firmwarePath side (retries + 1) (world rn)) as rl.
      clear Heqrl. rewrite Hev, !count_app, !count_cons, Ha, Hc, IHc.
      rewrite (quiet_count _ q (quiet_not_attempt side) Hq).
      rewrite (quiet_count _ q quiet_not_check Hq). cbn [is_attempt_start is_check].
      repeat split; [lia|].
      apply guarded_app; [exact Hg|].
      apply (guarded_app (EvConsole Warn text None :: q)); [|exact IHg].
      apply guarded_no_copy. constructor; [reflexivity|]. now apply quiet_no_copy.
Qed.

(** When the attempts before attempt [n] fail and attempt [n] succeeds,
    the loop returns after exactly [n + 1] attempts. *)
Lemma copy_loop_succeeds (firmwarePath : string) (side : Side) (n : nat) :
  forall (fuel : nat) (retries : Z) (w : World),
    (0 <= retries)%Z ->
    (retries + Z.of_nat n < maxRetries)%Z ->
    (n < fuel)%nat ->
    (forall i, (i < n)%nat ->
       exists e, outcome (copy_attempt firmwarePath side
                            (attempt_world firmwarePath side retries w i)) = Throw e) ->
    outcome (copy_attempt firmwarePath side
               (attempt_world firmwarePath side retries w n)) = Ret tt ->
    let r := copy_loop fuel firmwarePath side retries w in
    outcome r = Ret tt /\ attempts side (events r) = S n.
Proof.
  unfold attempts.
  induction n as [|n IH]; intros fuel retries w Hr Hn Hfuel Hfail Hok;
    (destruct fuel as [|fuel]; [lia|]); cbn zeta; rewrite copy_loop_step;
    unfold maxRetries in *;
    (replace (retries <? 5)%Z with true by (symmetry; apply Z.ltb_lt; lia));
    destruct (copy_attempt_facts firmwarePath side w) as (_ & Ha & _).
  - cbn [attempt_world] in Hok. cbn zeta in *. rewrite Hok. split; [exact Hok | exact Ha].
  - destruct (Hfail 0%nat) as [e He]; [lia|]. cbn [attempt_world] in He.
    cbn zeta in *. rewrite He.
    replace (retries + 1 >=? 5)%Z with false
      by (symmetry; rewrite Z.geb_leb; apply Z.leb_gt; lia).
    destruct (retry_notice_run side (retries + 1) (world (copy_attempt firmwarePath side w)))
      as (_ & text & q & Hev & Hq).
    destruct (IH fuel (retries + 1)%Z
                (world (retry_notice side (retries + 1)
                          (world (copy_attempt firmwarePath side w)))))
      as (IHo & IHa); try lia.
    + intros i Hi. apply (Hfail (S i)). lia.
    + exact Hok.
    + cbn zeta in *. cbn [outcome events]. split; [exact IHo|].
      rewrite !count_app, Ha, IHa, Hev, count_cons.
      rewrite (quiet_count _ q (quiet_not_attempt side) Hq). reflexivity.
Qed.

(** When all the attempts that are left fail, the loop throws the error
    of the last one, after reporting it. *)
Lemma copy_loop_exhausted (firmwarePath : string) (side : Side) (n : nat) :
  forall (fuel : nat) (retries : Z) (w : World) (errs : nat -> Error),
    (0 <= retries)%Z ->
    (retries + Z.of_nat (S n) = maxRetries)%Z ->
    (n < fuel)%nat ->
    (forall i, (i <= n)%nat ->
       outcome (copy_attempt firmwarePath side
                  (attempt_world firmwarePath side retries w i)) = Throw (errs i)) ->
    let r := copy_loop fuel firmwarePath side retries w in
    outcome r = Throw (errs n)
    /\ attempts side (events r) = S n
    /\ exists t, events r = (t ++ [exhausted_report side (errs n)])%list.
Proof.
  unfold attempts.
  induction n as [|n IH]; intros fuel retries w errs Hr Hn Hfuel Hfail;
    (destruct fuel as [|fuel]; [lia|]); cbn zeta; rewrite copy_loop_step;
    unfold maxRetries in *;
    (replace (retries <? 5)%Z with true by (symmetry; apply Z.ltb_lt; lia));
    destruct (copy_attempt_facts firmwarePath side w) as (_ & Ha & _);
    (assert (He : outcome (copy_attempt firmwarePath side w) = Throw (errs 0%nat))
      by (apply (Hfail 0%nat); lia));
    cbn zeta in *; rewrite He.
  - replace (retries + 1 >=? 5)%Z with true
      by (symmetry; rewrite Z.geb_leb; apply Z.leb_le; lia).
    cbn [outcome events]. repeat split.
    + rewrite count_app, Ha. reflexivity.
    + eexists. reflexivity.
  - replace (retries + 1 >=? 5)%Z with false
      by (symmetry; rewrite Z.geb_leb; apply Z.leb_gt; lia).
    destruct (retry_notice_run side (retries + 1) (world (copy_attempt firmwarePath side w)))
      as (_ & text & q & Hev & Hq).
    destruct (IH fuel (retries + 1)%Z
                (world (retry_notice side (retries + 1)
                          (world (copy_attempt firmwarePath side w))))
                (fun i => errs (S i)))
      as (IHo & IHa & t & IHt); try lia.
    + intros i Hi. apply (Hfail (S i)). lia.
    + cbn zeta in *. cbn [outcome events]. repeat split.
      * exact IHo.
      * rewrite !count_app, Ha, IHa, Hev, count_cons.
        rewrite (quiet_count _ q (quiet_not_attempt side) Hq). reflexivity.
      * rewrite IHt. eexists. rewrite !app_assoc. reflexivity.
Qed.

(* ================================================================== *)
(** * Facts about paths *)
(* ================================================================== *)

Section PathFacts.

Lemma split_plain (n : list ascii) :
  existsb Path.is_slash n = false -> Path.split n = [n].
Proof.
  induction n as [|c n IH]; simpl; [reflexivity|].
  intros H. apply orb_false_iff in H as [Hc Hn].
  now rewrite Hc, (IH Hn).
Qed.

Lemma split_app (a b : list ascii) :
  existsb Path.is_slash a = false ->
  Path.split (a ++ Path.slash :: b) = a :: Path.split b.
Proof.
  induction a as [|c a IH]; simpl.
  - reflexivity.
  - intros H. apply orb_false_iff in H as [Hc Ha].
    now rewrite Hc, (IH Ha).
Qed.

Lemma plain_name_segment (allowAboveRoot : bool) (seg : list ascii) res segs :
  Fs.plain_name seg = true ->
  Path.normalizeSegments allowAboveRoot res (seg :: segs)
  = Path.normalizeSegments allowAboveRoot (seg :: res) segs.
Proof.
  unfold Fs.plain_name. intros H.
  apply andb_true_iff in H as [H Hdd]. apply andb_true_iff in H as [He Hd].
  apply negb_true_iff in He, Hd, Hdd.
  cbn [Path.normalizeSegments]. now rewrite He, Hd, Hdd.
Qed.

Lemma last_app_cons (a n : list ascii) (c d : ascii) :
  n <> [] -> last (a ++ c :: n) d = last n d.
Proof.
  intros Hn. induction a as [|x a IH].
  - simpl. destruct n; [congruence | reflexivity].
  - simpl. destruct (a ++ c :: n)%list eqn:E; [|exact IH].
    destruct a; discriminate.
Qed.

Lemma last_not_slash (n : list ascii) (d : ascii) :
  n <> [] -> existsb Path.is_slash n = false -> Path.is_slash (last n d) = false.
Proof.
  induction n as [|c n IH]; [congruence|]. intros _ H. simpl in H.
  apply orb_false_iff in H as [Hc Hn]. destruct n as [|c' n].
  - exact Hc.
  - change (last (c :: c' :: n) d) with (last (c' :: n) d). apply IH; [discriminate | exact Hn].
Qed.

(** Joining the volume path and a file name puts the name below the
    volume. *)
Lemma join_volume (name : string) :
  proper_name name = true ->
  Path.join NICENANO_VOLUME name = NICENANO_VOLUME ++ "/" ++ name.
Proof.
  unfold proper_name. intros H. apply andb_true_iff in H as [Hp Hs].
  apply negb_true_iff in Hs.
  assert (Hne : Js.chars name <> []).
  { intros E. rewrite E in Hp. discriminate. }
  apply chars_inj. rewrite !chars_app.
  unfold Path.join, Path.join_list. rewrite chars_str. cbn [map Path.joined].
  remember (Js.chars name) as n eqn:Hn. clear Hn name.
  assert (Hj : Path.joined [Js.chars NICENANO_VOLUME; n]
               = (Js.chars NICENANO_VOLUME ++ Path.slash :: n)%list).
  { destruct n; [congruence | reflexivity]. }
  cbn [Path.joined] in Hj. rewrite Hj. clear Hj.
  unfold Path.normalize_chars.
  change (Js.chars NICENANO_VOLUME ++ Path.slash :: n)%list
    with (Path.slash :: (Js.chars "Volumes" ++ Path.slash
                           :: (Js.chars "NICENANO" ++ Path.slash :: n)))%list at 1.
  cbv beta iota.
  change (Path.is_slash Path.slash) with true. cbn [negb].
  change (Path.slash :: (Js.chars "Volumes" ++ Path.slash
                           :: (Js.chars "NICENANO" ++ Path.slash :: n)))%list
    with (Js.chars NICENANO_VOLUME ++ Path.slash :: n)%list.
  rewrite (last_app_cons _ n _ _ Hne), (last_not_slash n _ Hne Hs).
  change (Js.chars NICENANO_VOLUME ++ Path.slash :: n)%list
    with ([] ++ Path.slash :: (Js.chars "Volumes" ++ Path.slash
                                 :: (Js.chars "NICENANO" ++ Path.slash :: n)))%list.
  rewrite !split_app by reflexivity. rewrite (split_plain n Hs).
  change (Path.normalizeSegments false []
            [[]; Js.chars "Volumes"; Js.chars "NICENANO"; n])
    with (Path.normalizeSegments false [Js.chars "NICENANO"; Js.chars "Volumes"] [n]).
  rewrite (plain_name_segment _ n _ _ Hp).
  cbn [Path.normalizeSegments rev app Path.unsplit].
  destruct n as [|c n]; [congruence|]. reflexivity.
Qed.

Lemma takeWhile_app {A} (p : A -> bool) (l1 l2 : list A) (x : A) :
  forallb p l1 = true -> p x = false ->
  Path.takeWhile p (l1 ++ x :: l2) = l1.
Proof.
  intros H1 Hx. induction l1 as [|y l1 IH]; simpl.
  - now rewrite Hx.
  - simpl in H1. apply andb_true_iff in H1 as [Hy H1]. now rewrite Hy, IH.
Qed.

Lemma forallb_rev_not_slash (n : list ascii) :
  existsb Path.is_slash n = false ->
  forallb (fun c => negb (Path.is_slash c)) (rev n) = true.
Proof.
  intros H. apply forallb_forall. intros c Hc. apply in_rev in Hc.
  apply negb_true_iff. destruct (Path.is_slash c) eqn:E; [|reflexivity].
  assert (existsb Path.is_slash n = true) by (apply existsb_exists; eauto).
  congruence.
Qed.

(** The base name of a path that ends with a file name is that name. *)
Lemma basename_of_child (d name : string) :
  proper_name name = true -> Path.basename (d ++ "/" ++ name) = name.
Proof.
  unfold proper_name. intros H. apply andb_true_iff in H as [Hp Hs].
  apply negb_true_iff in Hs.
  assert (Hne : Js.chars name <> []).
  { intros E. rewrite E in Hp. discriminate. }
  unfold Path.basename, Path.basename_chars. rewrite !chars_app.
  change (Js.chars "/") with [Path.slash]. cbn [app].
  rewrite rev_app_distr. cbn [rev]. rewrite <- app_assoc. cbn [app].
  pose proof (forallb_rev_not_slash _ Hs) as Hall.
  destruct (rev (Js.chars name)) as [|c r] eqn:Hrev.
  - apply (f_equal (@rev ascii)) in Hrev. rewrite rev_involutive in Hrev.
    simpl in Hrev. congruence.
  - cbn [forallb] in Hall. apply andb_true_iff in Hall as [Hc Hr].
    cbn [app Path.dropWhile]. apply negb_true_iff in Hc. rewrite Hc.
    change (c :: (r ++ Path.slash :: rev (Js.chars d)))%list
      with ((c :: r) ++ Path.slash :: rev (Js.chars d))%list.
    rewrite takeWhile_app.
    + rewrite <- Hrev, rev_involutive. apply str_chars.
    + cbn [forallb]. now rewrite Hc, Hr.
    + reflexivity.
Qed.

Lemma strip_prefix_app (pre l : list ascii) :
  Fs.strip_prefix pre (pre ++ l) = Some l.
Proof.
  induction pre as [|c pre IH]; simpl; [reflexivity|].
  unfold Js.ascii_eqb. now rewrite Ascii.eqb_refl.
Qed.

(** A file name joined to a directory is a child of that directory. *)
Lemma child_name_of_child (d name : string) :
  proper_name name = true -> Fs.child_name d (d ++ "/" ++ name) = Some name.
Proof.
  unfold proper_name. intros H. apply andb_true_iff in H as [Hp Hs].
  apply negb_true_iff in Hs.
  unfold Fs.child_name, Fs.below. rewrite !chars_app.
  change (Js.chars "/") with [Path.slash].
  rewrite app_assoc, strip_prefix_app.
  destruct (Js.chars name) as [|c r] eqn:Hn; [discriminate|].
  rewrite Hs, <- Hn. now rewrite str_chars.
Qed.

End PathFacts.

(* ================================================================== *)
(** * Facts about [copy] *)
(* ================================================================== *)

Lemma copy_content (now : Z) (src dest : string) (fs fs2 : Fs.t)
    (content : list Byte.byte) :
  file_content src fs = Some content ->
  Fs.copy now src dest fs = inr fs2 ->
  file_content dest fs2 = Some content
  /\ (forall p, p <> dest -> Fs.lookup p fs2 = Fs.lookup p fs).
Proof.
  unfold Fs.copy, Fs.put_file, file_content.
  destruct (Fs.lookup src fs) as [n|]; [|discriminate].
  destruct (Fs.kind n) as [c| |]; try discriminate.
  intros Hc. injection Hc as ->.
  destruct (negb (Fs.readable n)); [discriminate|].
  destruct (String.eqb src dest); [discriminate|].
  assert (Hw : forall fs', inr (Fs.write dest
                                  (Fs.mkNode (Fs.KFile content) now true (Fs.writable n)) fs)
                           = (inr fs' : Error + Fs.t) ->
               match Fs.lookup dest fs' with
               | Some n0 => match Fs.kind n0 with
                            | Fs.KFile c => Some c
                            | Fs.KDir | Fs.KLink => None
                            end
               | None => None
               end = Some content
               /\ (forall p, p <> dest -> Fs.lookup p fs' = Fs.lookup p fs)).
  { intros fs' E. injection E as <-. split.
    - now rewrite lookup_write_same.
    - intros p Hp. now apply lookup_write_other. }
  destruct (Fs.lookup dest fs) as [[[c| |] m r wr]|];
    try discriminate;
    (destruct (Fs.writable_dir (Fs.dirname dest) fs); [discriminate|]);
    intros E; exact (Hw fs2 E).
Qed.

(** A successful attempt is a successful copy, followed by the wait for
    the restart. *)
Lemma copy_attempt_success (firmwarePath : string) (side : Side) (w : World) :
  outcome (copy_attempt firmwarePath side w) = Ret tt ->
  exists fs2,
    Fs.copy (clock (checked_world side w)) firmwarePath
      (destination firmwarePath) (fs (checked_world side w)) = inr fs2
    /\ world (copy_attempt firmwarePath side w)
       = world (animateProgressBar 1000 "Restarting keyboard..." 20
                  (set_fs fs2 (checked_world side w))).
Proof.
  intros Hok.
  destruct (copy_attempt_run firmwarePath side w) as (q & _ & Hrun).
  cbn zeta in Hrun.
  remember (checked_world side w) as w1 eqn:Hw1. clear Hw1.
  remember (copy_attempt firmwarePath side w) as r eqn:Hr. clear Hr.
  destruct (Fs.access NICENANO_VOLUME Fs.W_OK (fs w1)) as [e|u].
  { rewrite Hrun in Hok. discriminate. }
  destruct (Fs.copy (clock w1) firmwarePath (destination firmwarePath) (fs w1))
    as [e|fs2].
  { rewrite Hrun in Hok. discriminate. }
  destruct Hrun as (q2 & _ & Hrun). exists fs2. split; [reflexivity|].
  remember (animateProgressBar 1000 "Restarting keyboard..." 20 (set_fs fs2 w1))
    as ra eqn:Hra.
  clear Hra. rewrite Hrun. cbn [world]. reflexivity.
Qed.

(* ================================================================== *)
(** * Listing the archives *)
(* ================================================================== *)

Lemma formatRelativeTime_run (date : Z) (w : World) :
  exists s, formatRelativeTime date w = mkResult (Ret s) w [].
Proof.
  unfold formatRelativeTime, bind, date_now. cbn [outcome world events].
  repeat match goal with
         | |- context [if ?c then _ else _] => destruct c
         end; eexists; reflexivity.
Qed.

Lemma zip_stat_run (folder file : string) (w : World) :
  match Fs.stat (Path.join folder file) (fs w) with
  | inl e =>
      zip_stat folder file w
      = mkResult (Throw e) w [EvFs (CStat (Path.join folder file)) false]
  | inr st =>
      exists rel,
        zip_stat folder file w
        = mkResult (Ret (mkFileInfo file (Path.join folder file) (Fs.st_mtime st) rel))
            w [EvFs (CStat (Path.join folder file)) true]
  end.
Proof.
  unfold zip_stat, fs_stat. cbn zeta.
  remember (Path.join folder file) as p eqn:Hp. clear Hp.
  destruct (Fs.stat p (fs w)) as [e|st] eqn:Hst.
  - apply result_ext; step_binds; rewrite fs_read_run, Hst; reflexivity.
  - destruct (formatRelativeTime_run (Fs.st_mtime st) w) as [rel Hrel].
    exists rel.
    apply result_ext; step_binds; rewrite fs_read_run, Hst; step_binds;
      rewrite Hrel; reflexivity.
Qed.

Lemma promise_all_zip_stat (folder : string) (names : list string) (w : World) :
  let r := promise_all (map (zip_stat folder) names) w in
  world r = w
  /\ ((exists infos, outcome r = Ret infos
                     /\ Forall2 (info_of folder (fs w)) names infos)
      \/ (exists e, outcome r = Throw e
                    /\ exists f e', In f names
                                    /\ Fs.stat (Path.join folder f) (fs w) = inl e')).
Proof.
  induction names as [|f names IH]; cbn zeta.
  - split; [reflexivity|]. left. exists []. split; [reflexivity | constructor].
  - cbn [map promise_all]. cbn zeta in IH. destruct IH as [IHw IH].
    pose proof (zip_stat_run folder f w) as Hz.
    remember (zip_stat folder f w) as rz eqn:Hrz. clear Hrz.
    destruct (Fs.stat (Path.join folder f) (fs w)) as [e|st] eqn:Hst.
    + subst rz. cbn [outcome world events].
      remember (promise_all (map (zip_stat folder) names) w) as rr eqn:Hrr. clear Hrr.
      split; [exact IHw|]. right. exists e.
      split; [|exists f, e; split; [now left | exact Hst]].
      destruct IH as [(infos & Ho & _) | (e2 & Ho & _)]; now rewrite Ho.
    + destruct Hz as [rel ->]. cbn [outcome world events].
      remember (promise_all (map (zip_stat folder) names) w) as rr eqn:Hrr. clear Hrr.
      split; [exact IHw|].
      destruct IH as [(infos & Ho & Hall) | (e2 & Ho & f' & e' & Hin & Hf')].
      * left. eexists. rewrite Ho. split; [reflexivity|].
        constructor; [|exact Hall].
        repeat split. exists st. split; [exact Hst | reflexivity].
      * right. exists e2. rewrite Ho. split; [reflexivity|].
        exists f', e'. split; [now right | exact Hf'].
Qed.

Lemma info_of_names folder fs names infos :
  Forall2 (info_of folder fs) names infos -> map name infos = names.
Proof.
  induction 1 as [|f i names infos (Hn & _) _ IH]; simpl; [reflexivity|].
  now rewrite Hn, IH.
Qed.

Lemma newest_first_total (a b : FileInfo) :
  Js.before newest_first a b \/ Js.before newest_first b a.
Proof. unfold Js.before, newest_first. lia. Qed.

Lemma newest_first_trans (a b c : FileInfo) :
  Js.before newest_first a b -> Js.before newest_first b c ->
  Js.before newest_first a c.
Proof. unfold Js.before, newest_first. lia. Qed.

(** The three ways [getZipFiles] can go. *)
Lemma getZipFiles_cases (w : World) :
  world (getZipFiles w) = w
  /\ match Fs.readdir (DOWNLOADS_FOLDER (env w)) (fs w) with
     | inl e => outcome (getZipFiles w) = Ret []
     | inr files =>
         (exists infos,
            outcome (getZipFiles w) = Ret (Js.sort newest_first infos)
            /\ Forall2 (info_of (DOWNLOADS_FOLDER (env w)) (fs w))
                 (filter is_zip files) infos)
         \/ (outcome (getZipFiles w) = Ret []
             /\ exists f e, In f (filter is_zip files)
                            /\ Fs.stat (Path.join (DOWNLOADS_FOLDER (env w)) f) (fs w)
                               = inl e)
     end.
Proof.
  unfold getZipFiles, fs_readdir.
  remember (DOWNLOADS_FOLDER (env w)) as folder eqn:Hfolder.
  destruct (Fs.readdir folder (fs w)) as [e|files] eqn:Hrd.
  - split; step_binds; rewrite <- ?Hfolder, ?fs_read_run, ?Hrd; step_binds;
      reflexivity.
  - destruct (promise_all_zip_stat folder (filter is_zip files) w) as (Hw & Hcases).
    cbn zeta in Hw, Hcases.
    destruct Hcases as [(infos & Ho & Hall) | (e & Ho & f & e' & Hf)].
    + split; [|left; exists infos; split; [|exact Hall]];
        step_binds; rewrite <- ?Hfolder, ?fs_read_run, ?Hrd; step_binds;
        change (fun file : string => Js.endsWith file ".zip") with is_zip;
        rewrite ?Ho, ?Hw; step_binds; rewrite ?Ho, ?Hw; reflexivity.
    + split; [|right; split; [|exists f, e'; exact Hf]];
        step_binds; rewrite <- ?Hfolder, ?fs_read_run, ?Hrd; step_binds;
        change (fun file : string => Js.endsWith file ".zip") with is_zip;
        rewrite ?Ho, ?Hw; step_binds; rewrite ?Ho, ?Hw; reflexivity.
Qed.

Lemma sorted_newest_first (l : list FileInfo) :
  StronglySorted (Js.before newest_first) l -> StronglySorted newer_or_same l.
Proof.
  induction 1 as [|a l _ IH Ha]; constructor; [exact IH|].
  eapply Forall_impl; [|exact Ha].
  intros b Hb. unfold Js.before, newest_first in Hb. unfold newer_or_same. lia.
Qed.

Lemma info_of_members folder fs names infos :
  Forall2 (info_of folder fs) names infos ->
  Forall (fun i => exists f, In f names /\ info_of folder fs f i) infos.
Proof.
  induction 1 as [|f i names infos Hi _ IH]; constructor.
  - exists f. split; [now left | exact Hi].
  - eapply Forall_impl; [|exact IH].
    intros j (g & Hg & Hj). exists g. split; [now right | exact Hj].
Qed.

(* ================================================================== *)
(** * Extraction *)
(* ================================================================== *)

Lemma fs_update_run (call : FsCall) (f : Z -> Fs.t -> Error + Fs.t) (w : World) :
  fs_update call f w
  = match f (clock w) (fs w) with
    | inl e => mkResult (Throw e) w [EvFs call false]
    | inr fs' => mkResult (Ret tt) (set_fs fs' w) [EvFs call true]
    end.
Proof. reflexivity. Qed.

Lemma extract_run (zip dir : string) (w : World) :
  extract zip dir w
  = match Fs.extract (unzip (env w)) (clock w) zip dir (fs w) with
    | (Some e, fs') => mkResult (Throw e) (set_fs fs' w) [EvFs (CExtract zip dir) false]
    | (None, fs') => mkResult (Ret tt) (set_fs fs' w) [EvFs (CExtract zip dir) true]
    end.
Proof. reflexivity. Qed.

Lemma found_not_falsy (side : Side) (files : list string) (x : string) :
  Js.find (RegExp.test (firmware_pattern side)) files = Some x ->
  falsy (Some x) = false.
Proof.
  intros H. apply find_some in H as (_ & _ & _ & _ & Hx).
  unfold falsy. destruct (String.eqb x "") eqn:E; [|reflexivity].
  apply String.eqb_eq in E. subst x. destruct side; vm_compute in Hx; discriminate.
Qed.

(** [find_firmware] on a listing. *)
Lemma find_firmware_run (tempDir : string) (w : World) :
  world (find_firmware tempDir w) = w
  /\ match Fs.readdir tempDir (fs w) with
     | inl e => outcome (find_firmware tempDir w) = Throw e
     | inr files =>
         match Js.find (RegExp.test LEFT_FIRMWARE_PATTERN) files,
               Js.find (RegExp.test RIGHT_FIRMWARE_PATTERN) files with
         | Some l, Some r =>
             outcome (find_firmware tempDir w)
             = Ret (mkFirmware (Path.join tempDir l) (Path.join tempDir r))
         | _, _ => outcome (find_firmware tempDir w) = Throw not_found
         end
     end.
Proof.
  unfold find_firmware, fs_readdir.
  destruct (Fs.readdir tempDir (fs w)) as [e|files] eqn:Hrd.
  - split; step_binds; rewrite fs_read_run, Hrd; reflexivity.
  - destruct (Js.find (RegExp.test LEFT_FIRMWARE_PATTERN) files) as [l|] eqn:Hl.
    + destruct (Js.find (RegExp.test RIGHT_FIRMWARE_PATTERN) files) as [r|] eqn:Hr.
      * pose proof (found_not_falsy Left files l Hl) as Hfl.
        pose proof (found_not_falsy Right files r Hr) as Hfr.
        split; step_binds; rewrite fs_read_run, Hrd; step_binds; cbn zeta;
          rewrite Hl, Hr, Hfl, Hfr; reflexivity.
      * split; step_binds; rewrite fs_read_run, Hrd; step_binds; cbn zeta;
          rewrite Hl, Hr; cbn [falsy]; rewrite orb_true_r; reflexivity.
    + split; step_binds; rewrite fs_read_run, Hrd; step_binds; cbn zeta;
        rewrite Hl; reflexivity.
Qed.

(** The ways [extractFirmwareFiles] can go. *)
Lemma extractFirmwareFiles_cases (zipFilePath : string) (w : World) :
  let d := scratch_dir w in
  let r := extractFirmwareFiles zipFilePath w in
  match Fs.ensureDir (clock w) d (fs w) with
  | inl e => outcome r = Throw e /\ fs (world r) = fs w
  | inr fs1 =>
      match Fs.extract (unzip (env w)) (clock w) zipFilePath d fs1 with
      | (Some e, fs2) => outcome r = Throw e /\ fs (world r) = Fs.remove d fs2
      | (None, fs2) =>
          match Fs.readdir d fs2 with
          | inl e => outcome r = Throw e /\ fs (world r) = Fs.remove d fs2
          | inr files =>
              match Js.find (RegExp.test LEFT_FIRMWARE_PATTERN) files,
                    Js.find (RegExp.test RIGHT_FIRMWARE_PATTERN) files with
              | Some l, Some rt =>
                  outcome r = Ret (mkFirmware (Path.join d l) (Path.join d rt))
                  /\ fs (world r) = fs2
              | _, _ => outcome r = Throw not_found /\ fs (world r) = Fs.remove d fs2
              end
          end
      end
  end.
Proof.
  cbn zeta. unfold extractFirmwareFiles, scratch_dir, fs_ensureDir, fs_remove.
  remember (tempDir_at (env w) (clock w)) as d eqn:Hd.
  destruct (Fs.ensureDir (clock w) d (fs w)) as [e|fs1] eqn:Hens.
  - split; step_binds; cbn zeta; rewrite <- ?Hd, ?fs_update_run, ?Hens; reflexivity.
  - destruct (Fs.extract (unzip (env w)) (clock w) zipFilePath d fs1)
      as [[e|] fs2] eqn:Hext.
    + split; step_binds; cbn zeta; rewrite <- ?Hd, ?fs_update_run, ?Hens; step_binds;
        rewrite ?extract_run; cbn [set_fs env clock fs]; rewrite ?Hext;
        step_binds; rewrite ?fs_update_run; step_binds; reflexivity.
    + destruct (find_firmware_run d (set_fs fs2 (set_fs fs1 w))) as [Hfw Hff].
      cbn [set_fs fs] in Hff.
      assert (Hpre : forall X (g : Result Firmware -> X),
                 g (find_firmware d (set_fs fs2 (set_fs fs1 w)))
                 = g (find_firmware d (world (extract zipFilePath d (set_fs fs1 w))))).
      { intros X g. rewrite extract_run. cbn [set_fs env clock fs]. now rewrite Hext. }
      assert (Hex : outcome (extract zipFilePath d (set_fs fs1 w)) = Ret tt).
      { rewrite extract_run. cbn [set_fs env clock fs]. now rewrite Hext. }
      rewrite (Hpre _ outcome) in Hff. rewrite (Hpre _ world) in Hfw.
      assert (Hwx : world (extract zipFilePath d (set_fs fs1 w)) = set_fs fs2 (set_fs fs1 w)).
      { rewrite extract_run. cbn [set_fs env clock fs]. now rewrite Hext. }
      clear Hpre.
      destruct (Fs.readdir d fs2) as [e|files].
      * split; step_binds; cbn zeta; rewrite <- ?Hd, ?fs_update_run, ?Hens; step_binds;
          rewrite ?Hex; step_binds; rewrite ?Hff; step_binds;
          rewrite ?fs_update_run; step_binds; rewrite ?Hfw, ?Hwx; reflexivity.
      * destruct (Js.find (RegExp.test LEFT_FIRMWARE_PATTERN) files) as [l|];
          [destruct (Js.find (RegExp.test RIGHT_FIRMWARE_PATTERN) files) as [rt|]|];
          split; step_binds; cbn zeta; rewrite <- ?Hd, ?fs_update_run, ?Hens; step_binds;
          rewrite ?Hex; step_binds; rewrite ?Hff; step_binds;
          rewrite ?fs_update_run; step_binds; rewrite ?Hfw, ?Hwx; reflexivity.
Qed.

(* ================================================================== *)
(** * What the pieces of the script emit *)
(* ================================================================== *)

Section EmitsKit.

Variable P : Event -> Prop.

Lemma emits_ret {A} (a : A) : emits P (ret a).
Proof. intros w. split; [constructor | reflexivity]. Qed.

Lemma emits_throw {A} (e : Error) : emits P (@throw A e).
Proof. intros w. split; [constructor | reflexivity]. Qed.

Lemma emits_out_of_fuel {A} : emits P (@out_of_fuel A).
Proof. intros w. split; [constructor | reflexivity]. Qed.

Lemma emits_get_env : emits P get_env.
Proof. intros w. split; [constructor | reflexivity]. Qed.

Lemma emits_date_now : emits P date_now.
Proof. intros w. split; [constructor | reflexivity]. Qed.

Lemma emits_emit (e : Event) : P e -> emits P (emit e).
Proof. intros He w. split; [repeat constructor; exact He | reflexivity]. Qed.

Lemma emits_exit {A} (code : Z) : P (EvExit code) -> emits P (@process_exit A code).
Proof. intros He w. split; [repeat constructor; exact He | reflexivity]. Qed.

Lemma emits_sleep (ms : Z) : P (EvSleep ms) -> emits P (sleep ms).
Proof. intros He w. split; [repeat constructor; exact He | reflexivity]. Qed.

Lemma emits_bind {A B} (m : M A) (k : A -> M B) :
  emits P m -> (forall a, emits P (k a)) -> emits P (bind m k).
Proof.
  intros Hm Hk w. destruct (Hm w) as [Hf He].
  rewrite bind_events, bind_world.
  remember (m w) as r eqn:Hr. clear Hr.
  destruct (outcome r) as [a|e|c|].
  - destruct (Hk a (world r)) as [Hf' He']. split.
    + apply Forall_app. split; assumption.
    + now rewrite He'.
  - split; [now rewrite app_nil_r | exact He].
  - split; [now rewrite app_nil_r | exact He].
  - split; [now rewrite app_nil_r | exact He].
Qed.

Lemma emits_try_catch {A} (m : M A) (h : Error -> M A) :
  emits P m -> (forall e, emits P (h e)) -> emits P (try_catch m h).
Proof.
  intros Hm Hh w. destruct (Hm w) as [Hf He].
  rewrite try_catch_events, try_catch_world.
  remember (m w) as r eqn:Hr. clear Hr.
  destruct (outcome r) as [a|e|c|].
  - split; [now rewrite app_nil_r | exact He].
  - destruct (Hh e (world r)) as [Hf' He']. split.
    + apply Forall_app. split; assumption.
    + now rewrite He'.
  - split; [now rewrite app_nil_r | exact He].
  - split; [now rewrite app_nil_r | exact He].
Qed.

Lemma emits_if {A} (c : bool) (m1 m2 : M A) :
  emits P m1 -> emits P m2 -> emits P (if c then m1 else m2).
Proof. now destruct c. Qed.

Lemma emits_promise_all {A} (ms : list (M A)) :
  Forall (emits P) ms -> emits P (promise_all ms).
Proof.
  induction 1 as [|m ms Hm _ IH]; [apply emits_ret|].
  intros w. cbn [promise_all]. destruct (Hm w) as [Hf He].
  remember (m w) as r eqn:Hr. clear Hr.
  cbn zeta. destruct (IH (world r)) as [Hf' He'].
  remember (promise_all ms (world r)) as r' eqn:Hr'. clear Hr'.
  destruct (outcome r) as [a|e|c|]; cbn [events world].
  - split; [apply Forall_app; split; assumption | now rewrite He'].
  - split; [apply Forall_app; split; assumption | now rewrite He'].
  - split; assumption.
  - split; assumption.
Qed.

Hypothesis P_fs : forall call ok, P (EvFs call ok).
Hypothesis P_sleep : forall ms, P (EvSleep ms).
Hypothesis P_bar : forall call, P (EvBar call).
Hypothesis P_prompt : forall message, P (EvPrompt message).
Hypothesis P_exit : forall code, P (EvExit code).

Lemma emits_fs_read {A} (call : FsCall) (f : Fs.t -> Error + A) :
  emits P (fs_read call f).
Proof.
  intros w. rewrite fs_read_run. destruct (f (fs w));
    (split; [repeat constructor; apply P_fs | reflexivity]).
Qed.

Lemma emits_fs_update (call : FsCall) (f : Z -> Fs.t -> Error + Fs.t) :
  emits P (fs_update call f).
Proof.
  intros w. rewrite fs_update_run. destruct (f (clock w) (fs w));
    (split; [repeat constructor; apply P_fs | reflexivity]).
Qed.

Lemma emits_extract (zip dir : string) : emits P (extract zip dir).
Proof.
  intros w. rewrite extract_run.
  destruct (Fs.extract _ _ _ _ _) as [[e|] fs'];
    (split; [repeat constructor; apply P_fs | reflexivity]).
Qed.

Lemma emits_prompt_list (message : string) choices :
  emits P (prompt_list message choices).
Proof.
  intros w. unfold prompt_list.
  destruct (answer_after (env w) message) as [ms|];
    [|split; [repeat constructor; apply P_prompt | reflexivity]].
  destruct (select_answer (env w) choices) as [e|i];
    [|destruct (nth_error choices i) as [[? ?]|]];
    (split; [repeat constructor; apply P_prompt | reflexivity]).
Qed.

Lemma emits_prompt_confirm (message : string) :
  emits P (prompt_confirm message).
Proof.
  intros w. unfold prompt_confirm.
  destruct (answer_after (env w) message) as [ms|];
    [|split; [repeat constructor; apply P_prompt | reflexivity]].
  destruct (confirm_answer (env w));
    (split; [repeat constructor; apply P_prompt | reflexivity]).
Qed.

Lemma emits_isVolumeReady : emits P isVolumeReady.
Proof.
  unfold isVolumeReady, fs_access, fs_readdir.
  apply emits_try_catch; [|intros e; apply emits_ret].
  repeat (apply emits_bind; [apply emits_fs_read | intros ?]).
  apply emits_ret.
Qed.

Lemma emits_bar_loop (fuel : nat) :
  forall i stepSize stepTimeMs status,
    emits P (bar_loop fuel i stepSize stepTimeMs status).
Proof.
  induction fuel as [|fuel IH]; intros i stepSize stepTimeMs status;
    cbn [bar_loop]; [apply emits_out_of_fuel|].
  apply emits_if; [|apply emits_ret].
  apply emits_bind; [apply emits_emit, P_bar | intros _].
  apply emits_bind; [apply emits_sleep, P_sleep | intros _]. apply IH.
Qed.

Lemma emits_animateProgressBar durationMs status steps :
  emits P (animateProgressBar durationMs status steps).
Proof.
  unfold animateProgressBar. cbn zeta.
  apply emits_bind; [apply emits_emit, P_bar | intros _].
  apply emits_bind; [apply emits_bar_loop | intros _].
  apply emits_emit, P_bar.
Qed.

Lemma emits_wait_loop (fuel : nat) (side : Side) :
  P (detected side) -> emits P (wait_loop fuel side).
Proof.
  intros Hd. induction fuel as [|fuel IH]; cbn [wait_loop];
    [apply emits_out_of_fuel|].
  apply emits_bind; [apply emits_isVolumeReady | intros ready].
  apply emits_if.
  - apply emits_bind; [apply emits_emit, Hd | intros _].
    apply emits_bind; [apply emits_sleep, P_sleep | intros _]. apply emits_ret.
  - apply emits_bind; [apply emits_sleep, P_sleep | intros _]. exact IH.
Qed.

Lemma emits_waitForBootloaderMode (fuel : nat) (side : Side) :
  (forall text, is_wait_text side text = true -> P (EvConsole Log text None)) ->
  emits P (waitForBootloaderMode fuel side).
Proof.
  intros Hw. unfold waitForBootloaderMode, console_log.
  apply emits_bind; [apply emits_emit, Hw; now destruct side | intros _].
  apply emits_bind; [apply emits_emit, Hw; now destruct side | intros _].
  apply emits_wait_loop. apply Hw. now destruct side.
Qed.

Lemma emits_copy_attempt (firmwarePath : string) (side : Side) :
  (forall text, is_copy_text side text = true -> P (EvConsole Log text None)) ->
  P ensuring ->
  P (EvConsole Log "Waiting for keyboard to restart..." None) ->
  emits P (copy_attempt firmwarePath side).
Proof.
  intros Hc He Hr. unfold copy_attempt, prepare_copy, console_log, fs_access, fs_copy.
  apply emits_bind.
  { apply emits_bind; [apply emits_emit, Hc; now destruct side | intros _].
    apply emits_bind; [apply emits_emit, He | intros _].
    apply emits_animateProgressBar. }
  intros _. apply emits_bind; [apply emits_fs_read | intros _].
  apply emits_bind; [apply emits_fs_update | intros _].
  apply emits_bind; [apply emits_emit, Hc; now destruct side | intros _].
  apply emits_bind; [apply emits_emit, Hr | intros _].
  apply emits_animateProgressBar.
Qed.

Lemma copy_text_warning (side : Side) (retries : Z) :
  is_copy_text side
    ("Error copying " ++ side_str side ++ " firmware (attempt "
       ++ Js.number_to_string retries ++ "/"
       ++ Js.number_to_string maxRetries ++ "). Retrying in "
       ++ Js.number_to_string (retryDelay / 1000) ++ " seconds...") = true.
Proof.
  remember (Js.number_to_string retries) as n eqn:Hn. clear Hn.
  destruct side; cbn; now rewrite ?orb_true_r.
Qed.

Lemma emits_copy_loop (firmwarePath : string) (side : Side) (fuel : nat) :
  (forall m text d, is_copy_text side text = true -> P (EvConsole m text d)) ->
  P ensuring ->
  P (EvConsole Log "Waiting for keyboard to restart..." None) ->
  forall retries, emits P (copy_loop fuel firmwarePath side retries).
Proof.
  intros Hc He Hr. induction fuel as [|fuel IH]; intros retries; cbn [copy_loop];
    [apply emits_out_of_fuel|].
  apply emits_if; [|apply emits_ret].
  apply emits_try_catch.
  - apply emits_copy_attempt; auto.
  - intros e. cbn zeta. apply emits_if.
    + unfold report_exhausted, console_error.
      apply emits_bind; [apply emits_emit, Hc; now destruct side | intros _].
      apply emits_throw.
    + apply emits_bind; [|intros _; apply IH].
      unfold retry_notice, console_warn.
      apply emits_bind; [apply emits_emit, Hc, copy_text_warning | intros _].
      apply emits_animateProgressBar.
Qed.

Lemma emits_formatRelativeTime (date : Z) : emits P (formatRelativeTime date).
Proof.
  intros w. destruct (formatRelativeTime_run date w) as [s ->].
  split; [constructor | reflexivity].
Qed.

Lemma emits_getZipFiles :
  (forall e, P (EvConsole ConsoleError "Error reading downloads folder:" (Some e))) ->
  emits P getZipFiles.
Proof.
  intros He. unfold getZipFiles, fs_readdir, console_error.
  apply emits_try_catch.
  - apply emits_bind; [apply emits_get_env | intros e].
    apply emits_bind; [apply emits_fs_read | intros files].
    cbn zeta. apply emits_bind; [|intros ?; apply emits_ret].
    apply emits_promise_all. apply Forall_map, Forall_forall. intros f _.
    unfold zip_stat, fs_stat. cbn zeta.
    apply emits_bind; [apply emits_fs_read | intros st].
    apply emits_bind; [apply emits_formatRelativeTime | intros ?]. apply emits_ret.
  - intros e. apply emits_bind; [apply emits_emit, He | intros _]. apply emits_ret.
Qed.

Lemma emits_extractFirmwareFiles (zipFilePath : string) :
  emits P (extractFirmwareFiles zipFilePath).
Proof.
  unfold extractFirmwareFiles, fs_ensureDir, fs_remove, find_firmware, fs_readdir.
  apply emits_bind; [apply emits_get_env | intros e].
  apply emits_bind; [apply emits_date_now | intros now]. cbn zeta.
  apply emits_bind; [apply emits_fs_update | intros _].
  apply emits_try_catch.
  - apply emits_bind; [apply emits_extract | intros _].
    apply emits_bind; [apply emits_fs_read | intros files]. cbn zeta.
    apply emits_if; [apply emits_throw|].
    destruct (Js.find _ files); [destruct (Js.find _ files)|];
      first [apply emits_ret | apply emits_throw].
  - intros err. apply emits_bind; [apply emits_fs_update | intros _].
    apply emits_throw.
Qed.

End EmitsKit.

(* ================================================================== *)
(** * The steps of a run *)
(* ================================================================== *)

Lemma prefix_comparable (p1 p2 t : string) :
  String.prefix p1 t = true -> String.prefix p2 t = true ->
  String.prefix p1 p2 = true \/ String.prefix p2 p1 = true.
Proof.
  revert p2 t. induction p1 as [|a p1 IH]; intros p2 t H1 H2.
  - left. now destruct p2.
  - destruct p2 as [|b p2]; [right; now destruct p1|].
    destruct t as [|c t]; [discriminate|]. simpl in *.
    destruct (ascii_dec a c) as [->|]; [|discriminate].
    destruct (ascii_dec b c) as [->|]; [|discriminate].
    destruct (ascii_dec c c) as [_|Hn]; [|congruence].
    apply (IH p2 t); assumption.
Qed.

(** Two prefixes that differ cannot both start the same text. *)
Lemma prefix_excludes (p1 p2 t : string) :
  String.prefix p1 p2 = false -> String.prefix p2 p1 = false ->
  String.prefix p1 t = true -> String.prefix p2 t = false.
Proof.
  intros H12 H21 H1. destruct (String.prefix p2 t) eqn:H2; [|reflexivity].
  destruct (prefix_comparable p1 p2 t H1 H2); congruence.
Qed.

Ltac other_prefixes H :=
  match type of H with
  | String.prefix ?p1 _ = true =>
      repeat match goal with
             | |- context [String.prefix ?p ?t] =>
                 rewrite (prefix_excludes p1 p t eq_refl eq_refl H)
             end
  end.

Lemma wait_text_phase (side : Side) m text d :
  is_wait_text side text = true ->
  phase_of (EvConsole m text d) = Some (wait_phase side).
Proof.
  intros H. unfold phase_of. destruct side; [now rewrite H|].
  unfold is_wait_text, is_copy_text in *. cbn [side_str side_upper] in *.
  cbn [String.append] in *.
  apply orb_true_iff in H as [H|H]; [apply orb_true_iff in H as [H|H]|];
    rewrite H; other_prefixes H; cbn [orb]; rewrite ?orb_true_r; reflexivity.
Qed.

Lemma copy_text_phase (side : Side) m text d :
  is_copy_text side text = true ->
  phase_of (EvConsole m text d) = Some (copy_phase side).
Proof.
  intros H. unfold phase_of.
  unfold is_wait_text, is_copy_text in *. destruct side;
    cbn [side_str side_upper] in *; cbn [String.append] in *;
    (apply orb_true_iff in H as [H|H]; [apply orb_true_iff in H as [H|H]|]);
    rewrite H; other_prefixes H; cbn [orb]; rewrite ?orb_true_r; reflexivity.
Qed.

Lemma phase_not_completed (e : Event) (p : Phase) :
  phase_of e = Some p -> e <> completed.
Proof. intros H ->. vm_compute in H. discriminate. Qed.

Lemma within_phase (e : Event) (p : Phase) :
  phase_of e = Some p -> within (Some p) e.
Proof.
  intros H. split; [now right | now apply (phase_not_completed e p)].
Qed.

Lemma within_untagged (p : option Phase) (e : Event) :
  phase_of e = None -> e <> completed -> within p e.
Proof. intros H Hc. split; [now left | exact Hc]. Qed.

Lemma phases_app (t u : list Event) :
  phases (t ++ u) = (phases t ++ phases u)%list.
Proof.
  induction t as [|e t IH]; simpl; [reflexivity|].
  destruct (phase_of e); simpl; now rewrite IH.
Qed.

Lemma phases_within (p : Phase) (t : list Event) :
  Forall (within (Some p)) t -> phases t = repeat p (List.length (phases t)).
Proof.
  induction 1 as [|e t [[He|He] _] _ IH]; simpl; [reflexivity| |]; rewrite He.
  - exact IH.
  - simpl. now rewrite <- IH.
Qed.

Lemma phases_untagged (t : list Event) :
  Forall (within None) t -> phases t = [].
Proof.
  induction 1 as [|e t [[He|He] _] _ IH]; simpl; [reflexivity| |]; now rewrite He.
Qed.

Lemma within_not_completed (p : option Phase) (t : list Event) :
  Forall (within p) t -> ~ In completed t.
Proof.
  intros H Hin. rewrite Forall_forall in H. destruct (H _ Hin) as [_ Hc]. congruence.
Qed.

Lemma within_not_phase (p : option Phase) (q : Phase) (t : list Event) :
  p <> Some q -> Forall (within p) t -> Forall (fun e => phase_of e <> Some q) t.
Proof.
  intros Hpq. apply Forall_impl. intros e [[He|He] _]; congruence.
Qed.

Section WithinPieces.

Variable p : option Phase.

Lemma within_fs call ok : within p (EvFs call ok).
Proof. now apply within_untagged. Qed.

Lemma within_sleep ms : within p (EvSleep ms).
Proof. now apply within_untagged. Qed.

Lemma within_bar call : within p (EvBar call).
Proof. now apply within_untagged. Qed.

Lemma within_prompt message : within p (EvPrompt message).
Proof. now apply within_untagged. Qed.

Lemma within_exit code : within p (EvExit code).
Proof. now apply within_untagged. Qed.

End WithinPieces.

Lemma waitForBootloaderMode_within (fuel : nat) (side : Side) :
  emits (within (Some (wait_phase side))) (waitForBootloaderMode fuel side).
Proof.
  apply emits_waitForBootloaderMode;
    auto using within_fs, within_sleep, within_bar, within_prompt, within_exit.
  intros text H. apply within_phase. now apply wait_text_phase.
Qed.

Lemma copyFirmwareToKeyboard_within (fuel : nat) (firmwarePath : string) (side : Side) :
  emits (within (Some (copy_phase side)))
    (copyFirmwareToKeyboard fuel firmwarePath side).
Proof.
  unfold copyFirmwareToKeyboard. apply emits_copy_loop;
    auto using within_fs, within_sleep, within_bar, within_prompt, within_exit.
  - intros m text d H. apply within_phase. now apply copy_text_phase.
  - now apply within_untagged.
  - now apply within_untagged.
Qed.

Lemma waitForBootloaderMode_tagged (fuel : nat) (side : Side) (w : World) :
  exists ps, phases (events (waitForBootloaderMode fuel side w)) = wait_phase side :: ps.
Proof.
  rewrite waitForBootloaderMode_run. cbn zeta. cbn [events phases].
  rewrite (wait_text_phase side); [eexists; reflexivity | now destruct side].
Qed.

Lemma copyFirmwareToKeyboard_tagged (fuel : nat) (firmwarePath : string)
    (side : Side) (w : World) :
  outcome (copyFirmwareToKeyboard fuel firmwarePath side w) = Ret tt ->
  exists ps,
    phases (events (copyFirmwareToKeyboard fuel firmwarePath side w))
    = copy_phase side :: ps.
Proof.
  unfold copyFirmwareToKeyboard. destruct fuel as [|fuel]; [discriminate|].
  rewrite copy_loop_step. change (0 <? maxRetries)%Z with true. cbn iota zeta.
  destruct (copy_attempt_run firmwarePath side w) as (q & _ & Hrun). cbn zeta in Hrun.
  assert (Hstart : exists t, events (copy_attempt firmwarePath side w)
                             = attempt_start side :: t).
  { destruct (Fs.access _ _ _) as [e|u]; [rewrite Hrun; eexists; reflexivity|].
    destruct (Fs.copy _ _ _ _) as [e|fs2]; [rewrite Hrun; eexists; reflexivity|].
    destruct Hrun as (q2 & _ & ->). eexists. reflexivity. }
  clear Hrun. destruct Hstart as [t Ht].
  assert (Hp : forall u, exists ps,
               phases ((attempt_start side :: t) ++ u) = copy_phase side :: ps).
  { intros u. cbn [app phases]. unfold attempt_start.
    rewrite (copy_text_phase side); [eexists; reflexivity | now destruct side]. }
  remember (copy_attempt firmwarePath side w) as ra eqn:Hra. clear Hra.
  destruct (outcome ra) as [a|e|c|]; intros Ho.
  - rewrite Ht. destruct (Hp []) as [ps Hps]. rewrite app_nil_r in Hps. eauto.
  - destruct (0 + 1 >=? maxRetries)%Z; cbn [events]; rewrite Ht; apply Hp.
  - rewrite Ht. destruct (Hp []) as [ps Hps]. rewrite app_nil_r in Hps. eauto.
  - rewrite Ht. destruct (Hp []) as [ps Hps]. rewrite app_nil_r in Hps. eauto.
Qed.

Lemma exhausted_report_phase (side : Side) (err : Error) :
  phase_of (exhausted_report side err) = Some (copy_phase side).
Proof. now destruct side. Qed.

Lemma within_excludes (p : option Phase) (q : Phase) (t : list Event) (e : Event) :
  Forall (within p) t -> phase_of e = Some q -> p <> Some q -> ~ In e t.
Proof.
  intros H He Hpq Hin. rewrite Forall_forall in H.
  destruct (H e Hin) as [[Hn|Hp] _]; congruence.
Qed.

(** Only the last, failed attempt produces the report, and then the loop
    throws the reported error. *)
Lemma copy_loop_reports (firmwarePath : string) (side : Side) (fuel : nat) :
  forall retries w err,
    In (exhausted_report side err) (events (copy_loop fuel firmwarePath side retries w)) ->
    outcome (copy_loop fuel firmwarePath side retries w) = Throw err.
Proof.
  set (P := fun e : Event => forall err, e <> exhausted_report side err).
  assert (Hatt : emits P (copy_attempt firmwarePath side)).
  { apply emits_copy_attempt; unfold P; discriminate. }
  induction fuel as [|fuel IH]; intros retries w err; [intros []|].
  rewrite copy_loop_step. destruct (retries <? maxRetries)%Z; [|intros []].
  cbn zeta. destruct (Hatt w) as [Hra _].
  remember (copy_attempt firmwarePath side w) as ra eqn:Heqra. clear Heqra.
  assert (Hnot : ~ In (exhausted_report side err) (events ra)).
  { intros Hin. rewrite Forall_forall in Hra. now apply (Hra _ Hin err). }
  destruct (outcome ra) as [a|e|c|]; try (intros Hin; contradiction).
  destruct (retries + 1 >=? maxRetries)%Z; cbn [outcome events].
  - intros Hin. apply in_app_or in Hin as [Hin|[Hin|[]]]; [contradiction|].
    unfold exhausted_report in Hin. now injection Hin as ->.
  - destruct (retry_notice_run side (retries + 1) (world ra)) as (_ & text & q & Hev & Hq).
    remember (retry_notice side (retries + 1) (world ra)) as rn eqn:Heqrn. clear Heqrn.
    intros Hin. apply in_app_or in Hin as [Hin|Hin]; [contradiction|].
    apply in_app_or in Hin as [Hin|Hin]; [|now apply IH].
    rewrite Hev in Hin. destruct Hin as [Hin|Hin]; [discriminate|].
    rewrite Forall_forall in Hq. apply Hq in Hin. discriminate.
Qed.

Lemma within_no_right (p : option Phase) (t : list Event) :
  p <> Some WaitRight -> p <> Some CopyRight ->
  Forall (within p) t -> Forall no_right_step t.
Proof.
  intros H1 H2. apply Forall_impl. intros e [[He|He] _]; split; congruence.
Qed.

Lemma bind_const {A B} (r : Result A) (k : A -> M B) (w : World) :
  bind (fun _ => r) k w
  = match outcome r with
    | Ret a =>
        mkResult (outcome (k a (world r))) (world (k a (world r)))
          (events r ++ events (k a (world r)))
    | Throw e => mkResult (Throw e) (world r) (events r)
    | Exit c => mkResult (Exit c) (world r) (events r)
    | OutOfFuel => mkResult OutOfFuel (world r) (events r)
    end.
Proof. reflexivity. Qed.

(** The two halves, one after the other. *)
Lemma process_keyboards_steps (fuel : nat) (firmware : Firmware) (w : World) :
  let r := process_keyboards fuel firmware w in
  in_order (phases (events r))
  /\ ~ In completed (events r)
  /\ env (world r) = env w
  /\ (forall err,
        In (exhausted_report Left err) (events r) ->
        outcome r = Throw err /\ Forall no_right_step (events r)).
Proof.
  cbn zeta. unfold process_keyboards.
  destruct (waitForBootloaderMode_within fuel Left w) as [H1 E1].
  destruct (waitForBootloaderMode_tagged fuel Left w) as [ps1 T1].
  remember (waitForBootloaderMode fuel Left w) as r1 eqn:Hr1.
  assert (B1 : forall k : unit -> M unit,
             bind (waitForBootloaderMode fuel Left) k w = bind (fun _ => r1) k w).
  { intros k. unfold bind. now rewrite <- Hr1. }
  rewrite B1. clear B1 Hr1.
  destruct (copyFirmwareToKeyboard_within fuel (leftFirmware firmware) Left (world r1))
    as [H2 E2].
  pose proof (copyFirmwareToKeyboard_tagged fuel (leftFirmware firmware) Left (world r1))
    as T2.
  pose proof (copy_loop_reports (leftFirmware firmware) Left fuel 0%Z (world r1)) as R2.
  fold (copyFirmwareToKeyboard fuel (leftFirmware firmware) Left) in R2.
  remember (copyFirmwareToKeyboard fuel (leftFirmware firmware) Left (world r1))
    as r2 eqn:Hr2.
  assert (B2 : forall k : unit -> M unit,
             bind (copyFirmwareToKeyboard fuel (leftFirmware firmware) Left) k (world r1)
             = bind (fun _ => r2) k (world r1)).
  { intros k. unfold bind. now rewrite <- Hr2. }
  destruct (waitForBootloaderMode_within fuel Right (world r2)) as [H3 E3].
  destruct (waitForBootloaderMode_tagged fuel Right (world r2)) as [ps3 T3].
  remember (waitForBootloaderMode fuel Right (world r2)) as r3 eqn:Hr3.
  assert (B3 : forall k : unit -> M unit,
             bind (waitForBootloaderMode fuel Right) k (world r2)
             = bind (fun _ => r3) k (world r2)).
  { intros k. unfold bind. now rewrite <- Hr3. }
  destruct (copyFirmwareToKeyboard_within fuel (rightFirmware firmware) Right (world r3))
    as [H4 E4].
  remember (copyFirmwareToKeyboard fuel (rightFirmware firmware) Right (world r3))
    as r4 eqn:Hr4.
  clear Hr2 Hr3.
  assert (X1 : forall err, ~ In (exhausted_report Left err) (events r1)).
  { intros err. apply (within_excludes _ CopyLeft _ _ H1); [reflexivity | discriminate]. }
  assert (X3 : forall err, ~ In (exhausted_report Left err) (events r3)).
  { intros err. apply (within_excludes _ CopyLeft _ _ H3); [reflexivity | discriminate]. }
  assert (X4 : forall err, ~ In (exhausted_report Left err) (events r4)).
  { intros err. apply (within_excludes _ CopyLeft _ _ H4); [reflexivity | discriminate]. }
  pose proof (within_not_completed _ _ H1) as C1.
  pose proof (within_not_completed _ _ H2) as C2.
  pose proof (within_not_completed _ _ H3) as C3.
  pose proof (within_not_completed _ _ H4) as C4.
  assert (N1 : Forall no_right_step (events r1))
    by (apply (within_no_right (Some WaitLeft)); [discriminate | discriminate | exact H1]).
  assert (N2 : Forall no_right_step (events r2))
    by (apply (within_no_right (Some CopyLeft)); [discriminate | discriminate | exact H2]).
  pose proof (phases_within _ _ H1) as P1. pose proof (phases_within _ _ H2) as P2.
  pose proof (phases_within _ _ H3) as P3. pose proof (phases_within _ _ H4) as P4.
  cbn [wait_phase copy_phase] in *.
  assert (L1 : (0 < List.length (phases (events r1)))%nat) by (rewrite T1; simpl; lia).
  assert (L3 : (0 < List.length (phases (events r3)))%nat) by (rewrite T3; simpl; lia).
  rewrite bind_const.
  destruct (outcome r1) as [[]|e1|c1|] eqn:O1; cbn [outcome world events].
  2,3,4: (repeat split;
          [ exists (List.length (phases (events r1))), 0%nat, 0%nat, 0%nat;
            cbn [repeat app]; rewrite app_nil_r; repeat split; [exact P1 | lia..]
          | exact C1 | exact E1 | now apply X1 in H | now apply X1 in H ]).
  rewrite B2, bind_const.
  destruct (outcome r2) as [[]|e2|c2|] eqn:O2; cbn [outcome world events].
  2,3,4: (repeat split;
          [ exists (List.length (phases (events r1))), (List.length (phases (events r2))),
              0%nat, 0%nat;
            cbn [repeat app]; rewrite app_nil_r, phases_app, <- P1, <- P2;
            repeat split; lia
          | intros Hin; apply in_app_or in Hin as [Hin|Hin]; contradiction
          | congruence
          | apply in_app_or in H as [H|H]; [now apply X1 in H | apply R2 in H; congruence]
          | apply Forall_app; split; assumption ]).
  destruct (T2 eq_refl) as [ps2 T2'].
  assert (L2 : (0 < List.length (phases (events r2)))%nat) by (rewrite T2'; simpl; lia).
  assert (X2 : forall err, ~ In (exhausted_report Left err) (events r2)).
  { intros err Hin. apply R2 in Hin. congruence. }
  rewrite B3, bind_const.
  destruct (outcome r3) as [[]|e3|c3|] eqn:O3; cbn [outcome world events].
  2,3,4: (repeat split;
          [ exists (List.length (phases (events r1))), (List.length (phases (events r2))),
              (List.length (phases (events r3))), 0%nat;
            cbn [repeat app]; rewrite app_nil_r, !phases_app, <- P1, <- P2, <- P3;
            repeat split; lia
          | intros Hin; apply in_app_or in Hin as [Hin|Hin]; [contradiction|];
            apply in_app_or in Hin as [Hin|Hin]; contradiction
          | congruence
          | apply in_app_or in H as [H|H]; [now apply X1 in H|];
            apply in_app_or in H as [H|H]; [now apply X2 in H | now apply X3 in H]
          | apply in_app_or in H as [H|H]; [now apply X1 in H|];
            apply in_app_or in H as [H|H]; [now apply X2 in H | now apply X3 in H] ]).
  rewrite <- Hr4. clear Hr4.
  repeat split.
  - exists (List.length (phases (events r1))), (List.length (phases (events r2))),
      (List.length (phases (events r3))), (List.length (phases (events r4))).
    rewrite !phases_app, <- P1, <- P2, <- P3, <- P4. repeat split; lia.
  - intros Hin. apply in_app_or in Hin as [Hin|Hin]; [contradiction|].
    apply in_app_or in Hin as [Hin|Hin]; [contradiction|].
    apply in_app_or in Hin as [Hin|Hin]; contradiction.
  - congruence.
  - apply in_app_or in H as [H|H]; [now apply X1 in H|].
    apply in_app_or in H as [H|H]; [now apply X2 in H|].
    apply in_app_or in H as [H|H]; [now apply X3 in H | now apply X4 in H].
  - apply in_app_or in H as [H|H]; [now apply X1 in H|].
    apply in_app_or in H as [H|H]; [now apply X2 in H|].
    apply in_app_or in H as [H|H]; [now apply X3 in H | now apply X4 in H].
Qed.

Lemma select_archive_within : emits (within None) select_archive.
Proof.
  unfold select_archive, console_error.
  apply emits_bind; [|intros zipFiles].
  { apply emits_getZipFiles;
      auto using within_fs, within_sleep, within_bar, within_prompt, within_exit.
    intros e. now apply within_untagged. }
  apply emits_bind; [|intros _; apply emits_prompt_list; apply within_prompt].
  apply emits_if; [|apply emits_ret].
  apply emits_bind; [apply emits_emit; now apply within_untagged | intros _].
  apply emits_exit, within_exit.
Qed.

Lemma extract_and_report_within (zipFile : string) :
  emits (within None) (extract_and_report zipFile).
Proof.
  unfold extract_and_report, console_log.
  apply emits_bind; [apply emits_emit; now apply within_untagged | intros _].
  apply emits_bind; [|intros firmware].
  { apply emits_extractFirmwareFiles;
      auto using within_fs, within_sleep, within_bar, within_prompt, within_exit. }
  apply emits_bind; [apply emits_emit; now apply within_untagged | intros _].
  apply emits_bind; [apply emits_emit; now apply within_untagged | intros _].
  apply emits_bind; [apply emits_emit; now apply within_untagged | intros _].
  apply emits_ret.
Qed.

Lemma delete_zip_within (zipFile : string) : emits (within None) (delete_zip zipFile).
Proof.
  unfold delete_zip, fs_unlinkSync, console_warn, console_error.
  apply emits_try_catch.
  - apply emits_bind; [apply emits_fs_update, within_fs | intros _].
    apply emits_emit. now apply within_untagged.
  - intros err. apply emits_emit. now apply within_untagged.
Qed.

Lemma offer_delete_within (zipFile : string) : emits (within None) (offer_delete zipFile).
Proof.
  unfold offer_delete.
  apply emits_bind; [apply emits_prompt_confirm, within_prompt | intros b].
  apply emits_if; [apply delete_zip_within | apply emits_ret].
Qed.

(** Whether the archive can be deleted or not, [delete_zip] returns. *)
Lemma delete_zip_returns (zipFile : string) (w : World) :
  outcome (delete_zip zipFile w) = Ret tt.
Proof.
  unfold delete_zip, fs_unlinkSync. step_binds. rewrite fs_update_run.
  destruct (Fs.unlink zipFile (fs w)); reflexivity.
Qed.

Lemma offer_delete_status (zipFile : string) (w : World) :
  exit_status (outcome (offer_delete zipFile w)) = status_after_completion (env w).
Proof.
  unfold offer_delete, status_after_completion. rewrite bind_outcome.
  unfold prompt_confirm.
  destruct (answer_after (env w) _) as [ms|]; [|reflexivity].
  destruct (confirm_answer (env w)) as [e|b]; [reflexivity|].
  cbn [outcome world]. destruct b; [|reflexivity].
  now rewrite delete_zip_returns.
Qed.

Lemma bind_emit {B} (e : Event) (k : unit -> M B) (w : World) :
  bind (emit e) k w
  = mkResult (outcome (k tt w)) (world (k tt w)) (e :: events (k tt w)).
Proof. reflexivity. Qed.

Lemma in_order_nil : in_order [].
Proof. exists 0%nat, 0%nat, 0%nat, 0%nat. repeat split; lia. Qed.

Lemma shape_stop (e : Env) (r : Result unit) :
  Forall (within None) (events r) -> run_shape e r.
Proof.
  intros H. exists (events r), [], []. rewrite !app_nil_r.
  split; [reflexivity|]. split; [exact H|]. split; [apply in_order_nil|].
  split; [intros []|]. split; [intros err []| now left].
Qed.

Lemma shape_bind {A} (m : M A) (k : A -> M unit) (w : World) :
  emits (within None) m ->
  (forall a w', env w' = env w -> run_shape (env w) (k a w')) ->
  run_shape (env w) (bind m k w).
Proof.
  intros Hm Hk. destruct (Hm w) as [Hf He].
  remember (m w) as r eqn:Hr.
  assert (Hb : bind m k w = bind (fun _ => r) k w).
  { unfold bind. now rewrite <- Hr. }
  rewrite Hb, bind_const. clear Hb Hr.
  destruct (outcome r) as [a|e|c|]; try (apply shape_stop; exact Hf).
  destruct (Hk a (world r) He) as (pre & proc & post & Hev & Hpre & Hord & Hc & Hx & Hpost).
  remember (k a (world r)) as r' eqn:Hr'. clear Hr'.
  exists (events r ++ pre)%list, proc, post. cbn [outcome world events].
  split; [now rewrite Hev, <- app_assoc|].
  split; [apply Forall_app; split; assumption|].
  split; [exact Hord|]. split; [exact Hc|]. split; [exact Hx | exact Hpost].
Qed.

(** The two halves, the report of completion and the offer to delete. *)
Lemma shape_core (fuel : nat) (firmware : Firmware) (zipFile : string) (w : World) :
  run_shape (env w)
    (bind (process_keyboards fuel firmware)
       (fun _ => bind (console_log "Firmware loading completed successfully!")
                   (fun _ => offer_delete zipFile)) w).
Proof.
  destruct (process_keyboards_steps fuel firmware w) as (H2 & C2 & E2 & X2).
  cbn zeta in H2, C2, E2, X2.
  remember (process_keyboards fuel firmware w) as r2 eqn:Hr2.
  assert (B2 : forall k : unit -> M unit,
             bind (process_keyboards fuel firmware) k w = bind (fun _ => r2) k w).
  { intros k. unfold bind. now rewrite <- Hr2. }
  rewrite B2, bind_const. clear B2 Hr2.
  destruct (outcome r2) as [[]|e2|c2|] eqn:O2.
  2,3,4: (exists [], (events r2), []; cbn [outcome world events app];
          rewrite !app_nil_r;
          split; [reflexivity|]; split; [constructor|];
          split; [exact H2|]; split; [exact C2|];
          split; [|now left];
          intros err Hin; destruct (X2 err Hin) as [Ho Hn];
          split; [congruence|]; split; [exact Hn | reflexivity]).
  unfold console_log. rewrite bind_emit.
  destruct (offer_delete_within zipFile (world r2)) as [H3 E3].
  pose proof (offer_delete_status zipFile (world r2)) as R3.
  remember (offer_delete zipFile (world r2)) as r3 eqn:Hr3. clear Hr3.
  cbn [outcome world events].
  exists [], (events r2), (completed :: events r3). cbn [app].
  split; [reflexivity|]. split; [constructor|].
  split; [exact H2|]. split; [exact C2|]. split.
  - intros err Hin. destruct (X2 err Hin) as [Ho _]. congruence.
  - right. exists (events r3). split; [reflexivity|]. split; [exact H3|].
    cbn [outcome]. rewrite R3. now rewrite E2.
Qed.

Lemma main_body_shape (fuel : nat) (w : World) :
  run_shape (env w) (main_body fuel w).
Proof.
  unfold main_body, console_log.
  apply shape_bind; [apply emits_emit; now apply within_untagged | intros _ w1 E1].
  rewrite <- E1.
  apply shape_bind; [apply emits_emit; now apply within_untagged | intros _ w2 E2].
  rewrite <- E2.
  apply shape_bind; [apply select_archive_within | intros zipFile w3 E3].
  rewrite <- E3.
  apply shape_bind; [apply extract_and_report_within | intros firmware w4 E4].
  rewrite <- E4. apply shape_core.
Qed.

Lemma main_unfold (fuel : nat) (w : World) :
  outcome (main fuel w)
  = match outcome (main_body fuel w) with
    | Throw e => Exit 1
    | o => o
    end
  /\ events (main fuel w)
     = (events (main_body fuel w)
        ++ match outcome (main_body fuel w) with
           | Throw e => [EvConsole ConsoleError "Error:" (Some e); EvExit 1]
           | _ => []
           end)%list.
Proof.
  unfold main. rewrite try_catch_outcome, try_catch_events.
  remember (main_body fuel w) as rb eqn:Hrb. clear Hrb.
  destruct (outcome rb); split; reflexivity.
Qed.

Lemma untagged_no_right (t : list Event) :
  Forall (within None) t -> Forall no_right_step t.
Proof. apply within_no_right; discriminate. Qed.

(* ================================================================== *)
(** * The course of a run *)
(* ================================================================== *)

Lemma bind_cases {A B} (m : M A) (k : A -> M B) (w : World) :
  (exists a,
     outcome (m w) = Ret a
     /\ outcome (bind m k w) = outcome (k a (world (m w)))
     /\ world (bind m k w) = world (k a (world (m w)))
     /\ events (bind m k w) = (events (m w) ++ events (k a (world (m w))))%list)
  \/ ((forall a, outcome (m w) <> Ret a)
      /\ (forall b, outcome (bind m k w) <> Ret b)
      /\ world (bind m k w) = world (m w)
      /\ events (bind m k w) = events (m w)
      /\ exit_status (outcome (bind m k w)) = exit_status (outcome (m w))).
Proof.
  rewrite bind_outcome, bind_world, bind_events.
  generalize (m w) as r. intros r.
  destruct (outcome r) as [a|e|c|] eqn:Hr.
  - left. exists a. repeat split.
  - right. rewrite app_nil_r. repeat split; discriminate.
  - right. rewrite app_nil_r. repeat split; discriminate.
  - right. rewrite app_nil_r. repeat split; discriminate.
Qed.

(** How far [main_body] gets: it stops in the selection, in the
    extraction or in the processing of the keyboards, or it reports
    completion and offers to delete the archive. *)
Lemma main_body_cases (fuel : nat) (w : World) :
  let rb := main_body fuel w in
  let rs := select_archive w in
  ((forall b, outcome rb <> Ret b)
   /\ exit_status (outcome rb) = exit_status (outcome rs)
   /\ events rb = (banner ++ events rs)%list)
  \/ exists zip,
       outcome rs = Ret zip
       /\ let re := extract_and_report zip (world rs) in
          ((forall b, outcome rb <> Ret b)
           /\ exit_status (outcome rb) = exit_status (outcome re)
           /\ events rb = (banner ++ events rs ++ events re)%list)
          \/ exists fw,
               outcome re = Ret fw
               /\ let rp := process_keyboards fuel fw (world re) in
                  ((forall b, outcome rb <> Ret b)
                   /\ exit_status (outcome rb) = exit_status (outcome rp)
                   /\ events rb = (banner ++ events rs ++ events re ++ events rp)%list)
                  \/ (outcome rp = Ret tt
                      /\ let rd := offer_delete zip (world rp) in
                         outcome rb = outcome rd
                         /\ events rb
                            = (banner ++ events rs ++ events re ++ events rp
                                 ++ completed :: events rd)%list).
Proof.
  cbn zeta. unfold main_body, console_log, banner. rewrite !bind_emit.
  match goal with
  | |- context [bind select_archive ?k w] =>
      pose proof (bind_cases select_archive k w) as Hc; cbn beta in Hc;
      revert Hc; generalize (bind select_archive k w) as r1; intros r1 Hc
  end.
  cbn [outcome events app].
  destruct Hc as [(zip & Hs & Ho & _ & He) | (_ & Ho & _ & He & Hx)];
    [|left; rewrite He; split; [exact Ho | split; [exact Hx | reflexivity]]].
  rewrite Ho, He. clear Ho He r1.
  right. exists zip. split; [exact Hs|]. clear Hs.
  generalize (events (select_archive w)) as ts.
  generalize (world (select_archive w)) as w1. intros w1 ts.
  match goal with
  | |- context [bind (extract_and_report zip) ?k w1] =>
      pose proof (bind_cases (extract_and_report zip) k w1) as Hc; cbn beta in Hc;
      revert Hc; generalize (bind (extract_and_report zip) k w1) as r2; intros r2 Hc
  end.
  destruct Hc as [(fw & Hx & Ho & _ & He) | (_ & Ho & _ & He & Hx)];
    [|left; rewrite He; split; [exact Ho | split; [exact Hx | reflexivity]]].
  rewrite Ho, He. clear Ho He r2.
  right. exists fw. split; [exact Hx|]. clear Hx.
  generalize (events (extract_and_report zip w1)) as te.
  generalize (world (extract_and_report zip w1)) as w2. intros w2 te.
  match goal with
  | |- context [bind (process_keyboards fuel fw) ?k w2] =>
      pose proof (bind_cases (process_keyboards fuel fw) k w2) as Hc; cbn beta in Hc;
      revert Hc; generalize (bind (process_keyboards fuel fw) k w2) as r3; intros r3 Hc
  end.
  destruct Hc as [([] & Hp & Ho & _ & He) | (_ & Ho & _ & He & Hx)];
    [|left; rewrite He; split; [exact Ho | split; [exact Hx | reflexivity]]].
  rewrite Ho, He. clear Ho He r3.
  right. split; [exact Hp|]. clear Hp.
  generalize (events (process_keyboards fuel fw w2)) as tp.
  generalize (world (process_keyboards fuel fw w2)) as w3. intros w3 tp.
  rewrite bind_emit.
  generalize (offer_delete zip w3) as rd. intros rd.
  split; reflexivity.
Qed.

(** ** Events of a decidable kind *)

Lemma emits_fs_read_call (P : Event -> Prop) {A} (call : FsCall)
    (f : Fs.t -> Error + A) :
  (forall ok, P (EvFs call ok)) -> emits P (fs_read call f).
Proof.
  intros Hp w. rewrite fs_read_run.
  destruct (f (fs w)); (split; [repeat constructor; apply Hp | reflexivity]).
Qed.

Lemma emits_fs_update_call (P : Event -> Prop) (call : FsCall)
    (f : Z -> Fs.t -> Error + Fs.t) :
  (forall ok, P (EvFs call ok)) -> emits P (fs_update call f).
Proof.
  intros Hp w. rewrite fs_update_run.
  destruct (f (clock w) (fs w)); (split; [repeat constructor; apply Hp | reflexivity]).
Qed.

Lemma emits_extract_call (P : Event -> Prop) (zip dir : string) :
  (forall ok, P (EvFs (CExtract zip dir) ok)) -> emits P (extract zip dir).
Proof.
  intros Hp w. rewrite extract_run.
  destruct (Fs.extract _ _ _ _ _) as [[e|] fs'];
    (split; [repeat constructor; apply Hp | reflexivity]).
Qed.

(** The side condition of a step: the event is of the kind in question,
    by computation or by the hypothesis at hand. *)
Ltac event_ok :=
  intros;
  first
    [ reflexivity
    | match goal with
      | H : forall e : Event, _ |- _ => apply H; reflexivity
      | H : forall ok : bool, _ |- _ => apply H
      end ].

(** One step of the proof that a piece of the script emits only events
    of a decidable kind. *)
Ltac emits_step :=
  lazymatch goal with
  | |- emits _ (ret _) => apply emits_ret
  | |- emits _ (throw _) => apply emits_throw
  | |- emits _ out_of_fuel => apply emits_out_of_fuel
  | |- emits _ get_env => apply emits_get_env
  | |- emits _ date_now => apply emits_date_now
  | |- emits _ (formatRelativeTime _) => apply emits_formatRelativeTime
  | |- emits _ (emit _) => apply emits_emit; event_ok
  | |- emits _ (sleep _) => apply emits_sleep; event_ok
  | |- emits _ (process_exit _) => apply emits_exit; event_ok
  | |- emits _ (fs_read _ _) => apply emits_fs_read_call; event_ok
  | |- emits _ (fs_update _ _) => apply emits_fs_update_call; event_ok
  | |- emits _ (extract _ _) => apply emits_extract_call; event_ok
  | |- emits _ (prompt_list _ _) => apply emits_prompt_list; event_ok
  | |- emits _ (prompt_confirm _) => apply emits_prompt_confirm; event_ok
  | |- emits _ (animateProgressBar _ _ _) =>
      apply emits_animateProgressBar; event_ok
  | |- emits _ (bind _ _) => apply emits_bind; [|intros ?]
  | |- emits _ (try_catch _ _) => apply emits_try_catch; [|intros ?]
  | |- emits _ (if _ then _ else _) => apply emits_if
  end.


(** ** What is copied, and when *)

(** The copy loop calls [fs.copy] for its image only, and does not look
    for the volume. *)
Section CopyCalls.

Variable firmwarePath : string.
Variable P : Event -> Prop.
Hypothesis P_other :
  forall e : Event, is_copy e = false -> is_observation e = false -> P e.
Hypothesis P_copy :
  forall ok : bool, P (EvFs (CCopy firmwarePath (destination firmwarePath)) ok).

Lemma copy_calls_copy_loop (side : Side) (fuel : nat) :
  forall retries, emits P (copy_loop fuel firmwarePath side retries).
Proof.
  induction fuel as [|fuel IH]; intros retries; cbn [copy_loop];
    [apply emits_out_of_fuel|].
  apply emits_if; [|apply emits_ret].
  apply emits_try_catch.
  - unfold copy_attempt, prepare_copy, console_log, fs_access, fs_copy.
    repeat emits_step.
  - intros e. cbn zeta. apply emits_if.
    + unfold report_exhausted, console_error. repeat emits_step.
    + apply emits_bind; [|intros _; apply IH].
      unfold retry_notice, console_warn. repeat emits_step.
Qed.

End CopyCalls.

Lemma copies_only_copy_loop (firmwarePath : string) (side : Side) (fuel : nat)
    (retries : Z) :
  emits (copies_only firmwarePath) (copy_loop fuel firmwarePath side retries).
Proof.
  apply copy_calls_copy_loop.
  - intros e He _. now left.
  - intros ok. right. now exists ok.
Qed.

Lemma no_observation_copy_loop (firmwarePath : string) (side : Side) (fuel : nat)
    (retries : Z) :
  emits (fun e => is_observation e = false)
    (copy_loop fuel firmwarePath side retries).
Proof.
  apply (copy_calls_copy_loop firmwarePath).
  - intros e _ He. exact He.
  - reflexivity.
Qed.

Lemma no_copy_waitForBootloaderMode (fuel : nat) (side : Side) :
  emits (fun e => is_copy e = false) (waitForBootloaderMode fuel side).
Proof.
  unfold waitForBootloaderMode, console_log.
  do 2 (apply emits_bind; [emits_step | intros _]).
  induction fuel as [|fuel IH]; cbn [wait_loop]; [apply emits_out_of_fuel|].
  unfold isVolumeReady, fs_access, fs_readdir, console_log.
  apply emits_bind; [repeat emits_step | intros ready].
  apply emits_if; [repeat emits_step|].
  apply emits_bind; [emits_step | intros _; exact IH].
Qed.

Lemma no_copy_select_archive :
  emits (fun e => is_copy e = false) select_archive.
Proof.
  unfold select_archive, getZipFiles, fs_readdir, console_error.
  apply emits_bind; [|intros zipFiles; repeat emits_step].
  apply emits_try_catch; [|intros e; repeat emits_step].
  apply emits_bind; [emits_step | intros e].
  apply emits_bind; [emits_step | intros files]. cbn zeta.
  apply emits_bind; [|intros ?; emits_step].
  apply emits_promise_all. apply Forall_map, Forall_forall. intros f _.
  unfold zip_stat, fs_stat. cbn zeta. repeat emits_step.
Qed.

Lemma no_copy_extract_and_report (zipFile : string) :
  emits (fun e => is_copy e = false) (extract_and_report zipFile).
Proof.
  unfold extract_and_report, console_log, extractFirmwareFiles, fs_ensureDir,
    fs_remove, find_firmware, fs_readdir.
  apply emits_bind; [emits_step | intros _].
  apply emits_bind; [|intros fw; repeat emits_step].
  apply emits_bind; [emits_step | intros e].
  apply emits_bind; [emits_step | intros now]. cbn zeta.
  apply emits_bind; [emits_step | intros _].
  apply emits_try_catch; [|intros err; repeat emits_step].
  apply emits_bind; [emits_step | intros _].
  apply emits_bind; [emits_step | intros files]. cbn zeta.
  apply emits_if; [emits_step|].
  destruct (Js.find _ files); [destruct (Js.find _ files)|]; emits_step.
Qed.

(** A wait that returns ends with the report of detection. *)
Lemma wait_loop_detected (side : Side) (fuel : nat) :
  forall w,
    outcome (wait_loop fuel side w) = Ret tt ->
    exists t,
      events (wait_loop fuel side w) = (t ++ [detected side; EvSleep 1500])%list.
Proof.
  induction fuel as [|fuel IH]; intros w; [discriminate|].
  rewrite wait_loop_step. destruct (ready (fs w)).
  - intros _. now exists (ready_events (fs w)).
  - cbv zeta. generalize (IH (after_sleep 1000 w)).
    generalize (wait_loop fuel side (after_sleep 1000 w)) as r.
    intros r Hr. cbn [outcome events]. intros Ho.
    destruct (Hr Ho) as [t ->].
    exists (ready_events (fs w) ++ EvSleep 1000 :: t)%list.
    now rewrite <- app_assoc.
Qed.

Lemma waitForBootloaderMode_detected (fuel : nat) (side : Side) (w : World) :
  outcome (waitForBootloaderMode fuel side w) = Ret tt ->
  exists t,
    events (waitForBootloaderMode fuel side w)
    = (t ++ [detected side; EvSleep 1500])%list
    /\ Forall (fun e => is_copy e = false) t.
Proof.
  intros Ho.
  destruct (no_copy_waitForBootloaderMode fuel side w) as [Hnc _].
  revert Ho Hnc. rewrite waitForBootloaderMode_run. cbv zeta.
  generalize (wait_loop_detected side fuel w).
  generalize (wait_loop fuel side w) as r. intros r Hr.
  cbn [outcome events]. intros Ho Hnc.
  destruct (Hr Ho) as [t Ht]. rewrite Ht in Hnc |- *.
  rewrite !app_comm_cons in Hnc |- *.
  apply Forall_app in Hnc as [Hnc _].
  eexists. split; [reflexivity | exact Hnc].
Qed.

(** An attempt that succeeds copies the image once, and nothing after
    it. *)
Lemma copy_attempt_copied (firmwarePath : string) (side : Side) (w : World) :
  outcome (copy_attempt firmwarePath side w) = Ret tt ->
  exists t1 t2,
    events (copy_attempt firmwarePath side w)
    = (t1 ++ image_copied firmwarePath :: t2)%list
    /\ Forall (fun e => is_copy e = false) t2.
Proof.
  destruct (copy_attempt_run firmwarePath side w) as (q & _ & Hrun).
  cbn zeta in Hrun. revert Hrun.
  generalize (checked_world side w) as w1.
  generalize (copy_attempt firmwarePath side w) as rc. intros rc w1 Hrun Hret.
  destruct (Fs.access NICENANO_VOLUME Fs.W_OK (fs w1)) as [e|u];
    [subst rc; discriminate Hret|].
  destruct (Fs.copy (clock w1) firmwarePath (destination firmwarePath) (fs w1))
    as [e|fs2]; [subst rc; discriminate Hret|].
  destruct Hrun as (q2 & Hq2 & ->). cbn [events].
  exists (attempt_start side :: ensuring :: q ++ [check_passed])%list,
    (copied side ++ q2)%list.
  split.
  - cbn [app]. rewrite <- app_assoc. reflexivity.
  - apply Forall_app. split; [repeat constructor | now apply quiet_no_copy].
Qed.

Lemma copy_loop_copied (firmwarePath : string) (side : Side) (fuel : nat) :
  forall (retries : Z) (w : World),
    (retries < maxRetries)%Z ->
    outcome (copy_loop fuel firmwarePath side retries w) = Ret tt ->
    exists t1 t2,
      events (copy_loop fuel firmwarePath side retries w)
      = (t1 ++ image_copied firmwarePath :: t2)%list
      /\ Forall (fun e => is_copy e = false) t2.
Proof.
  induction fuel as [|fuel IH]; intros retries w Hlt; [discriminate|].
  rewrite copy_loop_step. apply Z.ltb_lt in Hlt. rewrite Hlt. cbn zeta.
  pose proof (copy_attempt_copied firmwarePath side w) as Hcopied.
  revert Hcopied. generalize (copy_attempt firmwarePath side w) as ra.
  intros ra Hcopied.
  destruct (outcome ra) as [[]|e|c|] eqn:Hra;
    try (intros Hret; rewrite Hra in Hret; discriminate Hret).
  - intros _. now apply Hcopied.
  - destruct (retries + 1 >=? maxRetries)%Z eqn:Hge; [discriminate|].
    rewrite Z.geb_leb in Hge. apply Z.leb_gt in Hge.
    cbn [outcome events]. intros Hret.
    destruct (IH (retries + 1)%Z _ Hge Hret) as (t1 & t2 & Hev & Hnc).
    exists (events ra ++ events (retry_notice side (retries + 1) (world ra)) ++ t1)%list,
      t2.
    split; [|exact Hnc]. rewrite Hev, <- !app_assoc. reflexivity.
Qed.

(** A copy that returns: what came before the successful copy, and what
    came after it. *)
Lemma copyFirmwareToKeyboard_copied (fuel : nat) (firmwarePath : string)
    (side : Side) (w : World) :
  outcome (copyFirmwareToKeyboard fuel firmwarePath side w) = Ret tt ->
  exists t1 t2,
    events (copyFirmwareToKeyboard fuel firmwarePath side w)
    = (t1 ++ image_copied firmwarePath :: t2)%list
    /\ Forall (copies_only firmwarePath) t1
    /\ Forall (fun e => is_observation e = false) t1
    /\ Forall (fun e => is_copy e = false) t2.
Proof.
  unfold copyFirmwareToKeyboard. intros Ho.
  destruct (copies_only_copy_loop firmwarePath side fuel 0 w) as [Hc _].
  destruct (no_observation_copy_loop firmwarePath side fuel 0 w) as [Hn _].
  destruct (copy_loop_copied firmwarePath side fuel 0%Z w eq_refl Ho)
    as (t1 & t2 & Hev & Hnc).
  revert Hc Hn Hev. generalize (events (copy_loop fuel firmwarePath side 0 w)) as t.
  intros t Hc Hn ->. exists t1, t2.
  apply Forall_app in Hc as [Hc _]. apply Forall_app in Hn as [Hn _].
  repeat split; assumption.
Qed.

(** Both halves, when their processing returns. *)
Lemma process_keyboards_loads (fuel : nat) (fw : Firmware) (w : World) :
  outcome (process_keyboards fuel fw w) = Ret tt ->
  exists t0 t1 t2 t3 t4,
    events (process_keyboards fuel fw w)
    = (t0 ++ detected Left
          :: t1 ++ image_copied (leftFirmware fw)
          :: t2 ++ detected Right
          :: t3 ++ image_copied (rightFirmware fw) :: t4)%list
    /\ Forall (fun e => is_copy e = false) (t0 ++ t2 ++ t4)
    /\ Forall (copies_only (leftFirmware fw)) t1
    /\ Forall (copies_only (rightFirmware fw)) t3
    /\ Forall (fun e => is_observation e = false) (t1 ++ t3).
Proof.
  unfold process_keyboards. intros Hret.
  match goal with
  | |- context [bind (waitForBootloaderMode fuel Left) ?k w] =>
      destruct (bind_cases (waitForBootloaderMode fuel Left) k w)
        as [([] & Hs & Ho & _ & He) | (_ & Ho & _)];
      [rewrite Ho in Hret; rewrite He; clear Ho He | now destruct (Ho tt)]
  end.
  destruct (waitForBootloaderMode_detected fuel Left w Hs) as (ta & -> & Hta).
  clear Hs. revert Hret.
  generalize (world (waitForBootloaderMode fuel Left w)) as w1. intros w1 Hret.
  match goal with
  | |- context [bind (copyFirmwareToKeyboard fuel ?p Left) ?k w1] =>
      destruct (bind_cases (copyFirmwareToKeyboard fuel p Left) k w1)
        as [([] & Hs & Ho & _ & He) | (_ & Ho & _)];
      [rewrite Ho in Hret; rewrite He; clear Ho He | now destruct (Ho tt)]
  end.
  destruct (copyFirmwareToKeyboard_copied fuel _ Left w1 Hs)
    as (l1 & l2 & -> & Hlc & Hln & Hl2).
  clear Hs. revert Hret.
  generalize (world (copyFirmwareToKeyboard fuel (leftFirmware fw) Left w1)) as w2.
  intros w2 Hret.
  match goal with
  | |- context [bind (waitForBootloaderMode fuel Right) ?k w2] =>
      destruct (bind_cases (waitForBootloaderMode fuel Right) k w2)
        as [([] & Hs & Ho & _ & He) | (_ & Ho & _)];
      [rewrite Ho in Hret; rewrite He; clear Ho He | now destruct (Ho tt)]
  end.
  destruct (waitForBootloaderMode_detected fuel Right w2 Hs) as (tb & -> & Htb).
  clear Hs. revert Hret.
  generalize (world (waitForBootloaderMode fuel Right w2)) as w3. intros w3 Hret.
  destruct (copyFirmwareToKeyboard_copied fuel _ Right w3 Hret)
    as (r1 & r2 & -> & Hrc & Hrn & Hr2).
  exists ta, (EvSleep 1500 :: l1), (l2 ++ tb)%list, (EvSleep 1500 :: r1), r2.
  split; [|split; [|split; [|split]]].
  - repeat (progress (rewrite <- ?app_assoc; cbn [app])). reflexivity.
  - repeat first [assumption | apply Forall_app; split].
  - constructor; [now left | exact Hlc].
  - constructor; [now left | exact Hrc].
  - apply Forall_app. split; (constructor; [reflexivity | assumption]).
Qed.

Lemma extract_and_report_returns (zipFile : string) (w : World) (fw : Firmware) :
  outcome (extract_and_report zipFile w) = Ret fw ->
  outcome (extractFirmwareFiles zipFile w) = Ret fw.
Proof.
  unfold extract_and_report, console_log. rewrite bind_emit. cbn [outcome].
  rewrite bind_outcome.
  generalize (extractFirmwareFiles zipFile w) as r. intros r.
  destruct (outcome r) as [a|e|c|]; try discriminate.
  rewrite !bind_emit. cbn [outcome ret]. congruence.
Qed.

Lemma loads_both_halves_app (fw : Firmware) (t u : list Event) :
  loads_both_halves fw t -> loads_both_halves fw (t ++ u).
Proof.
  intros (t0 & t1 & t2 & t3 & t4 & t5 & -> & H).
  exists t0, t1, t2, t3, t4, (t5 ++ u)%list. split; [|exact H].
  repeat (progress (rewrite <- ?app_assoc; cbn [app])). reflexivity.
Qed.

(** A run that reports completion has selected an archive, extracted
    the two images from it, and loaded both halves with them. *)
Lemma main_body_loads (fuel : nat) (w : World) :
  In completed (events (main_body fuel w)) ->
  exists zip fw,
    outcome (select_archive w) = Ret zip
    /\ outcome (extractFirmwareFiles zip (world (select_archive w))) = Ret fw
    /\ loads_both_halves fw (events (main_body fuel w)).
Proof.
  pose proof (main_body_cases fuel w) as Hc. cbn zeta in Hc.
  destruct (select_archive_within w) as [Hsw _].
  destruct (no_copy_select_archive w) as [Hsc _].
  assert (Hreport : forall zip w1,
             Forall (within None) (events (extract_and_report zip w1))
             /\ Forall (fun e => is_copy e = false)
                  (events (extract_and_report zip w1))
             /\ forall fw, outcome (extract_and_report zip w1) = Ret fw ->
                           outcome (extractFirmwareFiles zip w1) = Ret fw).
  { intros zip w1. split; [apply extract_and_report_within|].
    split; [apply no_copy_extract_and_report|].
    intros fw. apply extract_and_report_returns. }
  assert (Hprocess : forall fw w2,
             ~ In completed (events (process_keyboards fuel fw w2))
             /\ (outcome (process_keyboards fuel fw w2) = Ret tt ->
                 exists t0 t1 t2 t3 t4,
                   events (process_keyboards fuel fw w2)
                   = (t0 ++ detected Left
                         :: t1 ++ image_copied (leftFirmware fw)
                         :: t2 ++ detected Right
                         :: t3 ++ image_copied (rightFirmware fw) :: t4)%list
                   /\ Forall (fun e => is_copy e = false) (t0 ++ t2 ++ t4)
                   /\ Forall (copies_only (leftFirmware fw)) t1
                   /\ Forall (copies_only (rightFirmware fw)) t3
                   /\ Forall (fun e => is_observation e = false) (t1 ++ t3))).
  { intros fw w2. split; [|apply process_keyboards_loads].
    now destruct (process_keyboards_steps fuel fw w2) as (_ & Hn & _). }
  assert (Hbanner : ~ In completed banner
                    /\ Forall (fun e => is_copy e = false) banner).
  { split; [|repeat constructor].
    intros [H|[H|[]]]; discriminate H. }
  revert Hc Hsw Hsc Hreport Hprocess.
  generalize (process_keyboards fuel) as process.
  generalize extract_and_report as report.
  generalize extractFirmwareFiles as extractor.
  generalize offer_delete as offer.
  generalize (select_archive w) as rs.
  generalize (main_body fuel w) as rb.
  intros rb rs offer extractor report process Hc Hsw Hsc Hreport Hprocess Hin.
  destruct Hbanner as [Hbn Hbc].
  destruct Hc as [(_ & _ & Hev) | (zip & Hzip & Hc)].
  { exfalso. rewrite Hev in Hin. apply in_app_or in Hin as [Hin|Hin];
      [now apply Hbn | now apply (within_not_completed None _ Hsw)]. }
  destruct (Hreport zip (world rs)) as (Hrw & Hrc & Hrx).
  destruct Hc as [(_ & _ & Hev) | (fw & Hfw & Hc)].
  { exfalso. rewrite Hev in Hin. apply in_app_or in Hin as [Hin|Hin];
      [now apply Hbn|].
    apply in_app_or in Hin as [Hin|Hin];
      [now apply (within_not_completed None _ Hsw)
      | now apply (within_not_completed None _ Hrw)]. }
  destruct (Hprocess fw (world (report zip (world rs)))) as (Hpn & Hpl).
  destruct Hc as [(_ & _ & Hev) | (Hp & _ & Hev)].
  { exfalso. rewrite Hev in Hin. apply in_app_or in Hin as [Hin|Hin];
      [now apply Hbn|].
    apply in_app_or in Hin as [Hin|Hin];
      [now apply (within_not_completed None _ Hsw)|].
    apply in_app_or in Hin as [Hin|Hin];
      [now apply (within_not_completed None _ Hrw) | now apply Hpn]. }
  exists zip, fw. split; [exact Hzip|]. split; [now apply Hrx|].
  destruct (Hpl Hp) as (t0 & t1 & t2 & t3 & t4 & Hpe & Hnc & Hl & Hr & Hno).
  rewrite Hev, Hpe.
  exists (banner ++ events rs ++ events (report zip (world rs)) ++ t0)%list,
    t1, t2, t3, t4,
    (events (offer zip (world (process fw (world (report zip (world rs))))))).
  split; [|split; [|split; [|split]]]; try assumption.
  - repeat (progress (rewrite <- ?app_assoc; cbn [app])). reflexivity.
  - apply Forall_app in Hnc as (H0 & Hnc). apply Forall_app in Hnc as (H2 & H4).
    repeat first [assumption | apply Forall_app; split].
Qed.

(* ================================================================== *)
(** * The properties of the script *)
(* ================================================================== *)

(** ** Copy with retry *)

(** C1.  Every attempt of [copyFirmwareToKeyboard] checks that the volume
    is writable, and a copy only ever comes directly after a check that
    passed.  An attempt fails exactly when the check or the copy fails,
    and a failed attempt that leaves retries continues the loop with the
    counter incremented.  When the attempts before attempt [n] fail and
    attempt [n] succeeds, the call returns after exactly [n + 1] attempts
    (failures on attempts 1 to 4 and success on attempt 5: exactly 5
    attempts).  When all 5 attempts fail the call throws the error of the
    fifth attempt, after reporting it.  There are never more than 5
    attempts. *)
Theorem copyFirmwareToKeyboard_retries
    (firmwarePath : string) (side : Side) (w : World) :
  (forall fuel,
     let t := events (copyFirmwareToKeyboard fuel firmwarePath side w) in
     (attempts side t <= 5)%nat
     /\ checks t = attempts side t
     /\ (forall t1 e t2,
           t = (t1 ++ e :: t2)%list -> is_copy e = true ->
           exists t0, t1 = (t0 ++ [check_passed])%list))
  /\ (forall w',
        outcome (copy_attempt firmwarePath side w')
        = match Fs.access NICENANO_VOLUME Fs.W_OK (fs (checked_world side w')) with
          | inl e => Throw e
          | inr _ =>
              match Fs.copy (clock (checked_world side w')) firmwarePath
                      (destination firmwarePath) (fs (checked_world side w')) with
              | inl e => Throw e
              | inr _ => Ret tt
              end
          end)
  /\ (forall fuel retries w' e,
        (0 <= retries)%Z -> (retries + 1 < maxRetries)%Z ->
        outcome (copy_attempt firmwarePath side w') = Throw e ->
        outcome (copy_loop (S fuel) firmwarePath side retries w')
        = outcome (copy_loop fuel firmwarePath side (retries + 1)
                     (world (retry_notice side (retries + 1)
                               (world (copy_attempt firmwarePath side w'))))))
  /\ (forall n fuel,
        (n < 5)%nat -> (n < fuel)%nat ->
        (forall i, (i < n)%nat ->
           exists e, outcome (copy_attempt firmwarePath side
                                (attempt_world firmwarePath side 0 w i)) = Throw e) ->
        outcome (copy_attempt firmwarePath side
                   (attempt_world firmwarePath side 0 w n)) = Ret tt ->
        let r := copyFirmwareToKeyboard fuel firmwarePath side w in
        outcome r = Ret tt /\ attempts side (events r) = S n)
  /\ (forall fuel (errs : nat -> Error),
        (5 <= fuel)%nat ->
        (forall i, (i < 5)%nat ->
           outcome (copy_attempt firmwarePath side
                      (attempt_world firmwarePath side 0 w i)) = Throw (errs i)) ->
        let r := copyFirmwareToKeyboard fuel firmwarePath side w in
        outcome r = Throw (errs 4%nat)
        /\ attempts side (events r) = 5%nat
        /\ exists t, events r = (t ++ [exhausted_report side (errs 4%nat)])%list).
Proof.
  unfold copyFirmwareToKeyboard. repeat apply conj.
  - intros fuel. cbn zeta.
    destruct (copy_loop_bounded firmwarePath side fuel 0%Z w) as (Ha & Hc & Hg);
      [lia|].
    cbn zeta in *. repeat split.
    + exact Ha.
    + exact Hc.
    + apply guarded_spec. apply Hg.
  - intros w'. apply copy_attempt_outcome.
  - intros fuel retries w' e Hr Hlt He. rewrite copy_loop_step.
    replace (retries <? maxRetries)%Z with true by (symmetry; apply Z.ltb_lt; lia).
    cbn zeta. rewrite He.
    replace (retries + 1 >=? maxRetries)%Z with false
      by (symmetry; rewrite Z.geb_leb; apply Z.leb_gt; lia).
    reflexivity.
  - intros n fuel Hn Hfuel Hfail Hok.
    apply copy_loop_succeeds; unfold maxRetries; auto; lia.
  - intros fuel errs Hfuel Hfail.
    apply (copy_loop_exhausted firmwarePath side 4); unfold maxRetries; try lia.
    intros i Hi. apply Hfail. lia.
Qed.

(** The volume turns writable just before the fifth check: success after
    exactly five attempts. *)
Lemma copyFirmwareToKeyboard_retries_witness :
  let r := copyFirmwareToKeyboard 5 Sample.firmwarePath Left Sample.w_flaky in
  outcome r = Ret tt /\ attempts Left (events r) = 5%nat.
Proof.
  destruct (copyFirmwareToKeyboard_retries Sample.firmwarePath Left Sample.w_flaky)
    as (_ & _ & _ & H & _).
  apply (H 4%nat 5%nat); [lia | lia | | vm_compute; reflexivity].
  intros i Hi.
  destruct i as [|[|[|[|i]]]]; [| | | | lia];
    eexists; vm_compute; reflexivity.
Defined.

(** ** Readiness of the volume *)

(** C2.  [isVolumeReady] never throws and leaves the world as it is; it
    returns [true] exactly when the volume path exists, its contents can
    be listed and it is writable in the file system of the call. *)
Theorem isVolumeReady_all_three (w : World) :
  exists b,
    outcome (isVolumeReady w) = Ret b
    /\ world (isVolumeReady w) = w
    /\ (b = true <->
        path_exists NICENANO_VOLUME (fs w) = true
        /\ listable NICENANO_VOLUME (fs w) = true
        /\ writable NICENANO_VOLUME (fs w) = true).
Proof.
  rewrite isVolumeReady_run. exists (ready (fs w)). cbn [outcome world].
  split; [reflexivity|]. split; [reflexivity|]. unfold ready.
  rewrite !andb_true_iff. tauto.
Qed.

(** ** Waiting for the bootloader *)

(** C3.  [waitForBootloaderMode] returns at the first readiness
    observation that is true: when the observations before the [k]-th are
    false and the [k]-th is true, it returns after exactly [k + 1]
    observations and [k] polling intervals, and the trace ends with that
    observation, the message and one settle delay.  When no observation is
    ever true it never returns: whatever the fuel, it is used up, with one
    observation per unit.  When the volume is ready at entry there is
    exactly one observation. *)
Theorem waitForBootloaderMode_first_ready (side : Side) (w : World) :
  (forall k fuel,
     (forall j, (j < k)%nat -> observation w j = false) ->
     observation w k = true ->
     (k < fuel)%nat ->
     let r := waitForBootloaderMode fuel side w in
     outcome r = Ret tt
     /\ count is_observation (events r) = S k
     /\ count (is_sleep 1000) (events r) = k
     /\ count (is_sleep 1500) (events r) = 1%nat
     /\ (exists t,
           events r
           = (t ++ [EvFs (CAccess NICENANO_VOLUME Fs.F_OK) true;
                    EvFs (CReaddir NICENANO_VOLUME) true;
                    EvFs (CAccess NICENANO_VOLUME Fs.W_OK) true;
                    detected side;
                    EvSleep 1500])%list)
     /\ world r = after_sleep 1500 (poll_world w k))
  /\ ((forall k, observation w k = false) ->
      forall fuel,
        let r := waitForBootloaderMode fuel side w in
        outcome r = OutOfFuel /\ count is_observation (events r) = fuel)
  /\ (observation w 0 = true ->
      forall fuel,
        (0 < fuel)%nat ->
        let r := waitForBootloaderMode fuel side w in
        outcome r = Ret tt /\ count is_observation (events r) = 1%nat).
Proof.
  assert (Hfirst : forall k fuel,
     (forall j, (j < k)%nat -> observation w j = false) ->
     observation w k = true ->
     (k < fuel)%nat ->
     let r := waitForBootloaderMode fuel side w in
     outcome r = Ret tt
     /\ count is_observation (events r) = S k
     /\ count (is_sleep 1000) (events r) = k
     /\ count (is_sleep 1500) (events r) = 1%nat
     /\ (exists t,
           events r
           = (t ++ [EvFs (CAccess NICENANO_VOLUME Fs.F_OK) true;
                    EvFs (CReaddir NICENANO_VOLUME) true;
                    EvFs (CAccess NICENANO_VOLUME Fs.W_OK) true;
                    detected side;
                    EvSleep 1500])%list)
     /\ world r = after_sleep 1500 (poll_world w k)).
  { intros k fuel Hfalse Htrue Hfuel. cbn zeta. rewrite waitForBootloaderMode_run.
    destruct (wait_loop_first_ready side k fuel w Hfalse Htrue Hfuel)
      as (t & Hrun & Hobs & Hs & Hs').
    rewrite Hrun. cbn [outcome world events].
    rewrite (ready_events_ready _ Htrue).
    repeat split.
    - rewrite !count_cons, count_app, Hobs. cbn. lia.
    - rewrite !count_cons, count_app, Hs. cbn. lia.
    - rewrite !count_cons, count_app, Hs'. cbn. lia.
    - eexists (_ :: _ :: t). reflexivity. }
  split; [exact Hfirst|]. split.
  - intros Hnever fuel. cbn zeta. rewrite waitForBootloaderMode_run.
    destruct (wait_loop_never_ready side fuel w Hnever) as [Ho Hc].
    cbn [outcome world events]. split; [exact Ho|].
    rewrite !count_cons, Hc. reflexivity.
  - intros Hready fuel Hfuel.
    destruct (Hfirst 0%nat fuel) as (Ho & Hc & _); auto. intros j Hj. lia.
Qed.

(** The volume is mounted during the third polling interval: the call
    returns after four observations.  The volume never shows up: twenty
    units of fuel are used up by twenty observations. *)
Lemma waitForBootloaderMode_first_ready_witness :
  (let r := waitForBootloaderMode 10 Left Sample.w_plugging in
   outcome r = Ret tt /\ count is_observation (events r) = 4%nat)
  /\ (let r := waitForBootloaderMode 20 Left Sample.w_unplugged in
      outcome r = OutOfFuel /\ count is_observation (events r) = 20%nat)
  /\ (let r := waitForBootloaderMode 10 Left Sample.w_mounted in
      outcome r = Ret tt /\ count is_observation (events r) = 1%nat).
Proof.
  split; [|split].
  - destruct (waitForBootloaderMode_first_ready Left Sample.w_plugging) as (H & _).
    destruct (H 3%nat 10%nat) as (Ho & Hc & _).
    + intros j Hj. destruct j as [|[|[|j]]]; [| | | lia]; vm_compute; reflexivity.
    + vm_compute. reflexivity.
    + lia.
    + split; [exact Ho | exact Hc].
  - destruct (waitForBootloaderMode_first_ready Left Sample.w_unplugged) as (_ & H & _).
    apply H. intros k. unfold observation.
    assert (Hfs : env (poll_world Sample.w_unplugged k) = env Sample.w_unplugged
                  /\ fs (poll_world Sample.w_unplugged k) = Sample.fs_unplugged).
    { induction k as [|k [IHe IHf]]; [split; reflexivity|].
      change (poll_world Sample.w_unplugged (S k))
        with (after_sleep 1000 (poll_world Sample.w_unplugged k)).
      unfold after_sleep, sleep. cbn [world fs env].
      split; [exact IHe|]. rewrite IHe, IHf. reflexivity. }
    destruct Hfs as [_ Hfs]. rewrite Hfs. vm_compute. reflexivity.
  - destruct (waitForBootloaderMode_first_ready Left Sample.w_mounted) as (_ & _ & H).
    apply H; [vm_compute; reflexivity | lia].
Defined.

(** ** The copy itself *)

(** C4.  When the source is a file at the time of the copy, with
    whatever content (none at all included), and the attempt succeeds,
    then its copy call wrote that content to the destination
    [path.join(NICENANO_VOLUME, path.basename(firmwarePath))], whether or
    not a file was there before, and changed nothing else; the attempt
    then only waits.  For a source path that ends with a file name, the
    destination is that name directly below the volume. *)
Theorem copy_attempt_writes_base_name
    (firmwarePath : string) (side : Side) (w : World) (content : list Byte.byte) :
  let w1 := checked_world side w in
  file_content firmwarePath (fs w1) = Some content ->
  outcome (copy_attempt firmwarePath side w) = Ret tt ->
  exists fs2,
    Fs.copy (clock w1) firmwarePath (destination firmwarePath) (fs w1) = inr fs2
    /\ world (copy_attempt firmwarePath side w)
       = world (animateProgressBar 1000 "Restarting keyboard..." 20 (set_fs fs2 w1))
    /\ file_content (destination firmwarePath) fs2 = Some content
    /\ (forall p, p <> destination firmwarePath ->
                  Fs.lookup p fs2 = Fs.lookup p (fs w1))
    /\ (forall d name,
          firmwarePath = d ++ "/" ++ name -> proper_name name = true ->
          destination firmwarePath = NICENANO_VOLUME ++ "/" ++ name
          /\ Fs.child_name NICENANO_VOLUME (destination firmwarePath) = Some name).
Proof.
  intros w1 Hsrc Hok. subst w1.
  destruct (copy_attempt_success firmwarePath side w Hok) as (fs2 & Hcopy & Hworld).
  destruct (copy_content _ _ _ _ _ _ Hsrc Hcopy) as (Hdst & Hother).
  exists fs2.
  split; [exact Hcopy|]. split; [exact Hworld|].
  split; [exact Hdst|]. split; [exact Hother|].
  intros d name Hpath Hname. unfold destination.
  rewrite Hpath, (basename_of_child d name Hname), (join_volume name Hname).
  split; [reflexivity|]. now apply child_name_of_child.
Qed.

(** On the mounted volume the image replaces the old file of the same
    name, and an empty file is copied as an empty file. *)
Lemma copy_attempt_writes_base_name_witness :
  (destination Sample.firmwarePath = "/Volumes/NICENANO/sofle_left-nice_nano_v2.uf2"
   /\ file_content (destination Sample.firmwarePath)
        (fs (checked_world Left Sample.w_mounted)) = Some Sample.right_image
   /\ exists fs2,
        Fs.copy (clock (checked_world Left Sample.w_mounted)) Sample.firmwarePath
          (destination Sample.firmwarePath)
          (fs (checked_world Left Sample.w_mounted)) = inr fs2
        /\ file_content (destination Sample.firmwarePath) fs2
           = Some Sample.left_image)
  /\ (exists fs2,
        Fs.copy (clock (checked_world Right Sample.w_mounted)) Sample.emptyPath
          (destination Sample.emptyPath)
          (fs (checked_world Right Sample.w_mounted)) = inr fs2
        /\ file_content (destination Sample.emptyPath) fs2 = Some []).
Proof.
  split; [split; [|split]|].
  - vm_compute. reflexivity.
  - vm_compute. reflexivity.
  - destruct (copy_attempt_writes_base_name Sample.firmwarePath Left Sample.w_mounted
                Sample.left_image)
      as (fs2 & Hcopy & _ & Hdst & _ & _).
    + vm_compute. reflexivity.
    + vm_compute. reflexivity.
    + exists fs2. split; [exact Hcopy | exact Hdst].
  - destruct (copy_attempt_writes_base_name Sample.emptyPath Right Sample.w_mounted [])
      as (fs2 & Hcopy & _ & Hdst & _ & _).
    + vm_compute. reflexivity.
    + vm_compute. reflexivity.
    + exists fs2. split; [exact Hcopy | exact Hdst].
Defined.

(** ** Firmware names *)

(** C7, as the code has it.  A name is taken for a role's firmware image
    exactly when, up to the case of letters, it contains the role prefix
    (anywhere, not only at the start), followed by any characters other
    than line terminators, followed by [.uf2] at the very end. *)
Theorem firmware_name_shape (side : Side) (name : string) :
  RegExp.test (firmware_pattern side) name = true <-> accepted_shape side name.
Proof. apply firmware_pattern_accepts. Qed.

(** C7 as stated fails: a name can match without starting with the
    prefix. *)
Lemma firmware_name_prefix_not_at_start :
  ~ (RegExp.test (firmware_pattern Left) "my_sofle_left_v2.uf2" = true
     <-> claimed_shape Left "my_sofle_left_v2.uf2" = true).
Proof.
  intros [H _].
  assert (Hc : claimed_shape Left "my_sofle_left_v2.uf2" = false)
    by (vm_compute; reflexivity).
  rewrite H in Hc; [discriminate|]. vm_compute. reflexivity.
Qed.

(** ** Archive candidates *)

(** C8, as the code has it.  When the archive folder cannot be read,
    [getZipFiles] returns the empty list.  When it can be read and the
    timestamp of one of the entries whose name ends with [.zip] cannot be
    read, it returns the empty list as well.  When the timestamp of
    every such entry can be read, it returns exactly these entries, each
    with its path and timestamp, newest first. *)
Theorem getZipFiles_newest_first (w : World) :
  (forall e,
     Fs.readdir (DOWNLOADS_FOLDER (env w)) (fs w) = inl e ->
     outcome (getZipFiles w) = Ret [])
  /\ (forall files f e,
        Fs.readdir (DOWNLOADS_FOLDER (env w)) (fs w) = inr files ->
        In f files -> is_zip f = true ->
        Fs.stat (Path.join (DOWNLOADS_FOLDER (env w)) f) (fs w) = inl e ->
        outcome (getZipFiles w) = Ret [])
  /\ (forall files,
        Fs.readdir (DOWNLOADS_FOLDER (env w)) (fs w) = inr files ->
        (forall f, In f files -> is_zip f = true ->
                   exists st, Fs.stat (Path.join (DOWNLOADS_FOLDER (env w)) f) (fs w)
                              = inr st) ->
        exists infos,
          outcome (getZipFiles w) = Ret infos
          /\ Permutation (map name infos) (filter is_zip files)
          /\ StronglySorted newer_or_same infos
          /\ Forall (fun i => exists f,
                         In f (filter is_zip files)
                         /\ info_of (DOWNLOADS_FOLDER (env w)) (fs w) f i) infos).
Proof.
  destruct (getZipFiles_cases w) as [_ Hcases]. split; [|split].
  - intros e He. now rewrite He in Hcases.
  - intros files f e Hrd Hin Hz Hst. rewrite Hrd in Hcases.
    destruct Hcases as [(infos & _ & Hall) | (Ho & _)]; [|exact Ho].
    exfalso.
    assert (Hf : In f (filter is_zip files)) by (apply filter_In; now split).
    clear Hrd Hin Hz. revert Hf.
    induction Hall as [|g i names infos (_ & _ & st & Hg & _) _ IH];
      [intros []|].
    intros [<-|Hf]; [congruence | now apply IH].
  - intros files Hrd Hstat. rewrite Hrd in Hcases.
    destruct Hcases as [(infos & Ho & Hall) | (_ & f & e & Hin & Hf)].
    + exists (Js.sort newest_first infos). split; [exact Ho|].
      pose proof (sort_perm newest_first infos) as Hperm.
      repeat split.
      * rewrite <- (info_of_names _ _ _ _ Hall). now apply Permutation_map.
      * apply sorted_newest_first.
        apply sort_sorted; [apply newest_first_total | apply newest_first_trans].
      * apply (Permutation_Forall (Permutation_sym Hperm)).
        now apply info_of_members.
    + apply filter_In in Hin as [Hin Hz].
      destruct (Hstat f Hin Hz) as [st Hst]. congruence.
Qed.

(** A folder with an old and a new archive and two other files: the new
    archive comes first.  A missing folder: the empty list.  A folder
    with the same files and a link named like an archive whose target is
    gone: the empty list. *)
Lemma getZipFiles_newest_first_witness :
  (exists infos,
     outcome (getZipFiles Sample.w_downloads) = Ret infos
     /\ Permutation (map name infos) ["a.zip"; "b.zip"]
     /\ StronglySorted newer_or_same infos)
  /\ outcome (getZipFiles Sample.w_no_downloads) = Ret []
  /\ outcome (getZipFiles Sample.w_dangling) = Ret [].
Proof.
  split; [|split].
  - destruct (getZipFiles_newest_first Sample.w_downloads) as (_ & _ & H).
    destruct (H ["FIRMWARE.ZIP"; "a.zip"; "b.zip"; "c.txt"]) as (infos & Ho & Hp & Hs & _).
    + vm_compute. reflexivity.
    + intros f [<-|[<-|[<-|[<-|[]]]]] Hz; try discriminate Hz;
        eexists; vm_compute; reflexivity.
    + exists infos. split; [exact Ho|]. split; [exact Hp | exact Hs].
  - destruct (getZipFiles_newest_first Sample.w_no_downloads) as (H & _ & _).
    eapply H. vm_compute. reflexivity.
  - destruct (getZipFiles_newest_first Sample.w_dangling) as (_ & H & _).
    apply (H ["FIRMWARE.ZIP"; "a.zip"; "b.zip"; "c.txt"; "gone.zip"] "gone.zip"
             (Fs.SystemError Fs.ENOENT "stat" "/home/u/Downloads/Personal/gone.zip")).
    + vm_compute. reflexivity.
    + vm_compute. tauto.
    + vm_compute. reflexivity.
    + vm_compute. reflexivity.
Defined.

(** C8 as stated fails: the folder is read, three of the listed names
    end with [.zip], and [getZipFiles] returns none of them, because one
    is a link whose target is gone. *)
Lemma getZipFiles_dangling_candidate :
  Fs.readdir (DOWNLOADS_FOLDER (env Sample.w_dangling)) (fs Sample.w_dangling)
  = inr ["FIRMWARE.ZIP"; "a.zip"; "b.zip"; "c.txt"; "gone.zip"]
  /\ ~ (exists infos,
          outcome (getZipFiles Sample.w_dangling) = Ret infos
          /\ Permutation (map name infos)
               (filter is_zip ["FIRMWARE.ZIP"; "a.zip"; "b.zip"; "c.txt"; "gone.zip"])).
Proof.
  split; [vm_compute; reflexivity|].
  intros (infos & Ho & Hp).
  assert (Hn : outcome (getZipFiles Sample.w_dangling) = Ret [])
    by (vm_compute; reflexivity).
  rewrite Hn in Ho. injection Ho as <-.
  apply Permutation_length in Hp. vm_compute in Hp. discriminate Hp.
Qed.

(** C9.  [getZipFiles] always returns a list, and every entry of it has
    a name that ends with the exact characters [.zip]; a file named
    [FIRMWARE.ZIP] is never in it. *)
Theorem getZipFiles_extension_case_sensitive (w : World) :
  exists infos,
    outcome (getZipFiles w) = Ret infos
    /\ Forall (fun i => exists stem, name i = stem ++ ".zip") infos
    /\ ~ In "FIRMWARE.ZIP" (map name infos).
Proof.
  destruct (getZipFiles_cases w) as [_ Hcases].
  assert (Hempty : outcome (getZipFiles w) = Ret [] ->
                   exists infos,
                     outcome (getZipFiles w) = Ret infos
                     /\ Forall (fun i => exists stem, name i = stem ++ ".zip") infos
                     /\ ~ In "FIRMWARE.ZIP" (map name infos)).
  { intros Ho. exists []. split; [exact Ho|]. split; [constructor | intros []]. }
  destruct (Fs.readdir _ _) as [e|files]; [now apply Hempty|].
  destruct Hcases as [(infos & Ho & Hall) | (Ho & _)]; [|now apply Hempty].
  exists (Js.sort newest_first infos). split; [exact Ho|].
  pose proof (sort_perm newest_first infos) as Hperm.
  assert (Hzip : forall f, In f (map name (Js.sort newest_first infos)) ->
                           is_zip f = true).
  { intros f Hf.
    apply (Permutation_in _ (Permutation_map name Hperm)) in Hf.
    rewrite (info_of_names _ _ _ _ Hall) in Hf.
    now apply filter_In in Hf as [_ Hf]. }
  split.
  - apply Forall_forall. intros i Hi. apply endsWith_true. apply Hzip.
    now apply in_map.
  - intros Hin. apply Hzip in Hin. vm_compute in Hin. discriminate.
Qed.

(** ** Extraction *)

(** C6.  Once the scratch directory exists: when the extraction fails,
    [extractFirmwareFiles] throws the error of the extraction; when the
    extraction succeeds and the left or the right pattern matches none of
    the extracted names, it throws the error with the message that both
    files could not be found; and whenever it throws, the scratch
    directory and everything below it are gone.  It returns a value only
    when both patterns match, and then the value holds both paths. *)
Theorem extractFirmwareFiles_all_or_nothing (zipFilePath : string) (w : World) :
  let d := scratch_dir w in
  let r := extractFirmwareFiles zipFilePath w in
  (forall fs1,
     Fs.ensureDir (clock w) d (fs w) = inr fs1 ->
     (forall e fs2,
        Fs.extract (unzip (env w)) (clock w) zipFilePath d fs1 = (Some e, fs2) ->
        outcome r = Throw e)
     /\ (forall fs2 files,
           Fs.extract (unzip (env w)) (clock w) zipFilePath d fs1 = (None, fs2) ->
           Fs.readdir d fs2 = inr files ->
           Js.find (RegExp.test LEFT_FIRMWARE_PATTERN) files = None
           \/ Js.find (RegExp.test RIGHT_FIRMWARE_PATTERN) files = None ->
           outcome r = Throw not_found)
     /\ (forall e, outcome r = Throw e -> scratch_absent d (fs (world r))))
  /\ (forall fw,
        outcome r = Ret fw ->
        exists files l rt,
          scratch_listing zipFilePath w = Some files
          /\ Js.find (RegExp.test LEFT_FIRMWARE_PATTERN) files = Some l
          /\ Js.find (RegExp.test RIGHT_FIRMWARE_PATTERN) files = Some rt
          /\ fw = mkFirmware (Path.join d l) (Path.join d rt)).
Proof.
  cbn zeta. pose proof (extractFirmwareFiles_cases zipFilePath w) as Hc.
  cbn zeta in Hc. unfold scratch_listing.
  remember (extractFirmwareFiles zipFilePath w) as r eqn:Hr. clear Hr.
  remember (scratch_dir w) as d eqn:Hd. clear Hd.
  assert (Hgone : forall fs2, fs (world r) = Fs.remove d fs2 ->
                              scratch_absent d (fs (world r))).
  { intros fs2 -> p Hp. now apply lookup_remove_under. }
  split.
  - intros fs1 Hens. rewrite Hens in Hc. repeat split.
    + intros e fs2 Hext. rewrite Hext in Hc. apply Hc.
    + intros fs2 files Hext Hrd Hnone. rewrite Hext, Hrd in Hc.
      destruct Hnone as [Hn|Hn]; rewrite Hn in Hc.
      * apply Hc.
      * destruct (Js.find (RegExp.test LEFT_FIRMWARE_PATTERN) files); apply Hc.
    + intros e He.
      destruct (Fs.extract _ _ _ _ _) as [[e'|] fs2]; [now apply (Hgone fs2)|].
      destruct (Fs.readdir d fs2) as [e'|files]; [now apply (Hgone fs2)|].
      destruct (Js.find (RegExp.test LEFT_FIRMWARE_PATTERN) files);
        [destruct (Js.find (RegExp.test RIGHT_FIRMWARE_PATTERN) files)|];
        try (now apply (Hgone fs2)).
      destruct Hc as [Hc _]. congruence.
  - intros fw Hfw.
    destruct (Fs.ensureDir _ _ _) as [e|fs1]; [destruct Hc; congruence|].
    destruct (Fs.extract _ _ _ _ _) as [[e|] fs2]; [destruct Hc; congruence|].
    destruct (Fs.readdir d fs2) as [e|files]; [destruct Hc; congruence|].
    destruct (Js.find (RegExp.test LEFT_FIRMWARE_PATTERN) files) as [l|] eqn:Hl;
      [destruct (Js.find (RegExp.test RIGHT_FIRMWARE_PATTERN) files) as [rt|] eqn:Hrt|];
      try (destruct Hc; congruence).
    exists files, l, rt. destruct Hc as [Hc _].
    split; [reflexivity|]. split; [exact Hl|]. split; [exact Hrt|]. congruence.
Qed.

(** An archive with only the left image: the call throws the message
    error and leaves no scratch directory.  An archive with both images:
    both paths are returned. *)
Lemma extractFirmwareFiles_all_or_nothing_witness :
  (outcome (extractFirmwareFiles "/home/u/Downloads/Personal/left.zip" Sample.w_left_only)
   = Throw not_found
   /\ scratch_absent (scratch_dir Sample.w_left_only)
        (fs (world (extractFirmwareFiles "/home/u/Downloads/Personal/left.zip"
                      Sample.w_left_only))))
  /\ exists l rt,
       outcome (extractFirmwareFiles "/home/u/Downloads/Personal/a.zip" Sample.w_downloads)
       = Ret (mkFirmware (Path.join (scratch_dir Sample.w_downloads) l)
                (Path.join (scratch_dir Sample.w_downloads) rt)).
Proof.
  split.
  - destruct (extractFirmwareFiles_all_or_nothing
                "/home/u/Downloads/Personal/left.zip" Sample.w_left_only) as [H _].
    destruct (H (Fs.write (scratch_dir Sample.w_left_only) (Fs.mkNode Fs.KDir 100000 true true)
                   (fs Sample.w_left_only))) as (_ & Hmiss & Hgone).
    + vm_compute. reflexivity.
    + assert (Ho : outcome (extractFirmwareFiles "/home/u/Downloads/Personal/left.zip"
                              Sample.w_left_only) = Throw not_found).
      { eapply Hmiss.
        - vm_compute. reflexivity.
        - vm_compute. reflexivity.
        - right. vm_compute. reflexivity. }
      split; [exact Ho | exact (Hgone _ Ho)].
  - destruct (extractFirmwareFiles_all_or_nothing
                "/home/u/Downloads/Personal/a.zip" Sample.w_downloads) as [_ H].
    destruct (H (mkFirmware "/tmp/keyboard-firmware-100000/sofle_left-nice_nano_v2.uf2"
                   "/tmp/keyboard-firmware-100000/sofle_right-nice_nano_v2.uf2"))
      as (files & l & rt & _ & _ & _ & Hfw).
    + vm_compute. reflexivity.
    + exists l, rt. rewrite <- Hfw. vm_compute. reflexivity.
Defined.

(** C10.  Once the archive is extracted and the scratch directory is
    listed: whenever each pattern matches at least one of the listed
    names, however many, [extractFirmwareFiles] returns, and the path it
    returns for a role is the scratch directory joined with the first
    name of the listing that matches the role's pattern.  When one name
    is the first match of both patterns, the two returned paths are that
    same path.  And the call returns in no other way: what it returns
    are the first matches of a listing. *)
Theorem extractFirmwareFiles_first_match (zipFilePath : string) (w : World) :
  let d := scratch_dir w in
  let r := extractFirmwareFiles zipFilePath w in
  (forall files x y,
     scratch_listing zipFilePath w = Some files ->
     In x files -> RegExp.test LEFT_FIRMWARE_PATTERN x = true ->
     In y files -> RegExp.test RIGHT_FIRMWARE_PATTERN y = true ->
     exists l rt,
       first_match (RegExp.test LEFT_FIRMWARE_PATTERN) files l
       /\ first_match (RegExp.test RIGHT_FIRMWARE_PATTERN) files rt
       /\ outcome r = Ret (mkFirmware (Path.join d l) (Path.join d rt)))
  /\ (forall files l rt,
        scratch_listing zipFilePath w = Some files ->
        first_match (RegExp.test LEFT_FIRMWARE_PATTERN) files l ->
        first_match (RegExp.test RIGHT_FIRMWARE_PATTERN) files rt ->
        outcome r = Ret (mkFirmware (Path.join d l) (Path.join d rt))
        /\ (l = rt ->
            exists fw, outcome r = Ret fw /\ leftFirmware fw = rightFirmware fw))
  /\ (forall fw,
        outcome r = Ret fw ->
        exists files l rt,
          scratch_listing zipFilePath w = Some files
          /\ first_match (RegExp.test LEFT_FIRMWARE_PATTERN) files l
          /\ first_match (RegExp.test RIGHT_FIRMWARE_PATTERN) files rt
          /\ leftFirmware fw = Path.join d l
          /\ rightFirmware fw = Path.join d rt).
Proof.
  cbn zeta. pose proof (extractFirmwareFiles_cases zipFilePath w) as Hc.
  cbn zeta in Hc. unfold scratch_listing.
  remember (extractFirmwareFiles zipFilePath w) as r eqn:Hr. clear Hr.
  remember (scratch_dir w) as d eqn:Hd. clear Hd.
  assert (Hfirst : forall files l rt,
             match Fs.ensureDir (clock w) d (fs w) with
             | inl _ => None
             | inr fs1 =>
                 match Fs.extract (unzip (env w)) (clock w) zipFilePath d fs1 with
                 | (Some _, _) => None
                 | (None, fs2) =>
                     match Fs.readdir d fs2 with
                     | inl _ => None
                     | inr files => Some files
                     end
                 end
             end = Some files ->
             Js.find (RegExp.test LEFT_FIRMWARE_PATTERN) files = Some l ->
             Js.find (RegExp.test RIGHT_FIRMWARE_PATTERN) files = Some rt ->
             outcome r = Ret (mkFirmware (Path.join d l) (Path.join d rt))).
  { intros files l rt Hlist Hl Hrt.
    destruct (Fs.ensureDir _ _ _) as [e|fs1]; [discriminate|].
    destruct (Fs.extract _ _ _ _ _) as [[e|] fs2]; [discriminate|].
    destruct (Fs.readdir d fs2) as [e|files']; [discriminate|].
    injection Hlist as ->. rewrite Hl, Hrt in Hc. apply Hc. }
  split; [|split].
  - intros files x y Hlist Hx Hxm Hy Hym.
    destruct (find_exists _ _ x Hx Hxm) as [l Hl].
    destruct (find_exists _ _ y Hy Hym) as [rt Hrt].
    exists l, rt. split; [now apply find_some|]. split; [now apply find_some|].
    now apply (Hfirst files).
  - intros files l rt Hlist (pl & ql & El & Hpl & Hl) (pr & qr & Er & Hpr & Hrt).
    assert (Ho : outcome r = Ret (mkFirmware (Path.join d l) (Path.join d rt))).
    { apply (Hfirst files); [exact Hlist| |].
      - rewrite El. now apply find_first.
      - rewrite Er. now apply find_first. }
    split; [exact Ho|]. intros <-. eexists. split; [exact Ho | reflexivity].
  - intros fw Hfw.
    destruct (Fs.ensureDir _ _ _) as [e|fs1]; [destruct Hc; congruence|].
    destruct (Fs.extract _ _ _ _ _) as [[e|] fs2]; [destruct Hc; congruence|].
    destruct (Fs.readdir d fs2) as [e|files]; [destruct Hc; congruence|].
    destruct (Js.find (RegExp.test LEFT_FIRMWARE_PATTERN) files) as [l|] eqn:Hl;
      [destruct (Js.find (RegExp.test RIGHT_FIRMWARE_PATTERN) files) as [rt|] eqn:Hrt|];
      try (destruct Hc; congruence).
    exists files, l, rt. destruct Hc as [Hc _].
    assert (Heq : fw = mkFirmware (Path.join d l) (Path.join d rt)) by congruence.
    subst fw. repeat split.
    + now apply find_some.
    + now apply find_some.
Qed.

(** An archive that holds two images for each half, stored in the order
    b, a: the names are listed sorted, and the images named a, the first
    of the listing, are returned.  An archive whose only entry matches
    both patterns: both returned paths are the path of that entry. *)
Lemma extractFirmwareFiles_first_match_witness :
  (scratch_listing "/home/u/Downloads/Personal/two.zip" Sample.w_two_each
   = Some ["sofle_left_a.uf2"; "sofle_left_b.uf2";
           "sofle_right_a.uf2"; "sofle_right_b.uf2"]
   /\ outcome (extractFirmwareFiles "/home/u/Downloads/Personal/two.zip"
                 Sample.w_two_each)
      = Ret (mkFirmware "/tmp/keyboard-firmware-100000/sofle_left_a.uf2"
               "/tmp/keyboard-firmware-100000/sofle_right_a.uf2")
   /\ exists l rt,
        first_match (RegExp.test LEFT_FIRMWARE_PATTERN)
          ["sofle_left_a.uf2"; "sofle_left_b.uf2";
           "sofle_right_a.uf2"; "sofle_right_b.uf2"] l
        /\ first_match (RegExp.test RIGHT_FIRMWARE_PATTERN)
             ["sofle_left_a.uf2"; "sofle_left_b.uf2";
              "sofle_right_a.uf2"; "sofle_right_b.uf2"] rt
        /\ outcome (extractFirmwareFiles "/home/u/Downloads/Personal/two.zip"
                      Sample.w_two_each)
           = Ret (mkFirmware (Path.join (scratch_dir Sample.w_two_each) l)
                    (Path.join (scratch_dir Sample.w_two_each) rt)))
  /\ (scratch_listing "/home/u/Downloads/Personal/both.zip" Sample.w_both
      = Some ["sofle_left_sofle_right.uf2"]
      /\ exists fw,
           outcome (extractFirmwareFiles "/home/u/Downloads/Personal/both.zip"
                      Sample.w_both) = Ret fw
           /\ leftFirmware fw = rightFirmware fw).
Proof.
  split.
  - assert (Hlist : scratch_listing "/home/u/Downloads/Personal/two.zip"
                      Sample.w_two_each
                    = Some ["sofle_left_a.uf2"; "sofle_left_b.uf2";
                            "sofle_right_a.uf2"; "sofle_right_b.uf2"])
      by (vm_compute; reflexivity).
    split; [exact Hlist|].
    destruct (extractFirmwareFiles_first_match
                "/home/u/Downloads/Personal/two.zip" Sample.w_two_each)
      as (Hany & Hfirst & _).
    split.
    + destruct (Hfirst _ "sofle_left_a.uf2" "sofle_right_a.uf2" Hlist) as (Ho & _).
      * exists [], ["sofle_left_b.uf2"; "sofle_right_a.uf2"; "sofle_right_b.uf2"].
        split; [reflexivity|]. split; [constructor | vm_compute; reflexivity].
      * exists ["sofle_left_a.uf2"; "sofle_left_b.uf2"], ["sofle_right_b.uf2"].
        split; [reflexivity|].
        split; [repeat constructor | vm_compute; reflexivity].
      * rewrite Ho. vm_compute. reflexivity.
    + apply (Hany _ "sofle_left_b.uf2" "sofle_right_b.uf2" Hlist).
      * vm_compute. tauto.
      * vm_compute. reflexivity.
      * vm_compute. tauto.
      * vm_compute. reflexivity.
  - assert (Hlist : scratch_listing "/home/u/Downloads/Personal/both.zip" Sample.w_both
                    = Some ["sofle_left_sofle_right.uf2"])
      by (vm_compute; reflexivity).
    split; [exact Hlist|].
    destruct (extractFirmwareFiles_first_match
                "/home/u/Downloads/Personal/both.zip" Sample.w_both)
      as (_ & H & _).
    destruct (H _ "sofle_left_sofle_right.uf2" "sofle_left_sofle_right.uf2" Hlist)
      as (_ & Hboth).
    + exists [], []. split; [reflexivity|]. split; [constructor | vm_compute; reflexivity].
    + exists [], []. split; [reflexivity|]. split; [constructor | vm_compute; reflexivity].
    + exact (Hboth eq_refl).
Defined.

(** ** The whole run *)

(** C5, as the code has it.  In every run the steps come in order: the
    messages of waiting for the left half, then those of copying to it,
    then those of waiting for the right half, then those of copying to
    it, none starting unless the one before took place.  When the left
    copy reports that its attempts are exhausted, no step of the right
    half takes place and the process exits with status 1.  When the run
    reports completion, it has selected an archive, extracted the two
    images from it and loaded both halves: left half detected, left
    image copied, right half detected, right image copied, with no copy
    outside these steps and no other image tried.  Such a run ends as
    the operator reacts to the question about the archive: with status 0
    when the question is answered, whatever the answer and whether or
    not the deletion works; with status 1 when the prompt is closed
    instead; and not at all when no answer comes. *)
Theorem main_steps_in_order (fuel : nat) (w : World) :
  in_order (phases (events (main fuel w)))
  /\ (forall err,
        In (exhausted_report Left err) (events (main fuel w)) ->
        run fuel w = Some 1%Z
        /\ Forall no_right_step (events (main fuel w)))
  /\ (In completed (events (main fuel w)) ->
      (exists zip fw,
         outcome (select_archive w) = Ret zip
         /\ outcome (extractFirmwareFiles zip (world (select_archive w))) = Ret fw
         /\ loads_both_halves fw (events (main fuel w)))
      /\ (forall ms b,
            answer_after (env w) "Do you want to delete the firmware zip file?"
            = Some ms ->
            confirm_answer (env w) = inr b ->
            run fuel w = Some 0%Z)
      /\ (forall ms e,
            answer_after (env w) "Do you want to delete the firmware zip file?"
            = Some ms ->
            confirm_answer (env w) = inl e ->
            run fuel w = Some 1%Z)
      /\ (answer_after (env w) "Do you want to delete the firmware zip file?"
          = None ->
          run fuel w = None)).
Proof.
  destruct (main_unfold fuel w) as [Ho Hev]. unfold run. rewrite Ho, Hev.
  clear Ho Hev.
  pose proof (main_body_shape fuel w) as Hshape.
  pose proof (main_body_loads fuel w) as Hloads.
  revert Hshape Hloads.
  generalize extractFirmwareFiles as extractor.
  generalize (select_archive w) as rs.
  generalize (main_body fuel w) as rb.
  intros rb rs extractor
    (pre & proc & post & Hev & Hpre & Hord & Hc & Hx & Hpost) Hloads.
  set (hnd := match outcome rb with
              | Throw e => [EvConsole ConsoleError "Error:" (Some e); EvExit 1]
              | _ => []
              end).
  assert (Hhnd : Forall (within None) hnd).
  { unfold hnd. destruct (outcome rb); try constructor.
    - now apply within_untagged.
    - constructor; [now apply within_untagged | constructor]. }
  assert (Hstatus : exit_status match outcome rb with
                                | Throw _ => Exit 1
                                | o => o
                                end
                    = exit_status (outcome rb)).
  { now destruct (outcome rb). }
  rewrite Hstatus. clear Hstatus.
  assert (Hpost' : Forall (fun e => phase_of e = None) post
                   /\ forall err, ~ In (exhausted_report Left err) post).
  { destruct Hpost as [->|(del & -> & Hdel & _)]; [split; [constructor | intros err []]|].
    split.
    - constructor; [reflexivity|]. eapply Forall_impl; [|exact Hdel].
      intros e [[He|He] _]; congruence.
    - intros err [Hin|Hin]; [discriminate|].
      now apply (within_excludes None CopyLeft del _ Hdel) in Hin. }
  destruct Hpost' as [Hpn Hpx].
  assert (Hphases : phases (events rb ++ hnd) = phases proc).
  { rewrite Hev, !phases_app, (phases_untagged pre Hpre), (phases_untagged hnd Hhnd).
    assert (Hp : phases post = []).
    { clear -Hpn. induction Hpn as [|e t He _ IH]; simpl; [reflexivity|].
      now rewrite He. }
    rewrite Hp. cbn [app]. now rewrite !app_nil_r. }
  split; [rewrite Hphases; exact Hord|]. split.
  - intros err Hin. rewrite Hev in Hin |- *.
    apply in_app_or in Hin as [Hin|Hin];
      [|now apply (within_excludes None CopyLeft hnd _ Hhnd) in Hin].
    apply in_app_or in Hin as [Hin|Hin];
      [now apply (within_excludes None CopyLeft pre _ Hpre) in Hin|].
    apply in_app_or in Hin as [Hin|Hin]; [|now apply Hpx in Hin].
    destruct (Hx err Hin) as (Hthrow & Hnr & ->).
    rewrite Hthrow. split; [reflexivity|].
    rewrite app_nil_r. apply Forall_app. split; [|now apply untagged_no_right].
    apply Forall_app. split; [now apply untagged_no_right | exact Hnr].
  - intros Hin.
    apply in_app_or in Hin as [Hin|Hin];
      [|now apply (within_not_completed None hnd Hhnd) in Hin].
    split.
    + destruct (Hloads Hin) as (zip & fw & Hzip & Hfw & Hl).
      exists zip, fw. split; [exact Hzip|]. split; [exact Hfw|].
      now apply loads_both_halves_app.
    + rewrite Hev in Hin.
      apply in_app_or in Hin as [Hin|Hin];
        [now apply (within_not_completed None pre Hpre) in Hin|].
      apply in_app_or in Hin as [Hin|Hin]; [contradiction|].
      destruct Hpost as [->|(del & _ & _ & Hret)]; [destruct Hin|].
      rewrite Hret. unfold status_after_completion.
      split; [|split].
      * intros ms b -> ->. reflexivity.
      * intros ms e -> ->. reflexivity.
      * intros ->. reflexivity.
Qed.

(** A run in which the volume is unplugged after it was detected: the
    left copy is exhausted and the process exits with status 1.  A run
    with the volume in place: completion is reported and both halves are
    loaded; the process exits with status 0 when the operator has the
    archive deleted, also when the deletion fails, and is still waiting
    when the operator does not answer. *)
Lemma main_steps_in_order_witness :
  (run 20 Sample.w_unplugging = Some 1%Z
   /\ Forall no_right_step (events (main 20 Sample.w_unplugging)))
  /\ (run 20 Sample.w_run = Some 0%Z
      /\ exists fw, loads_both_halves fw (events (main 20 Sample.w_run)))
  /\ (In (EvFs (CUnlink "/home/u/Downloads/Personal/a.zip") false)
        (events (main 20 Sample.w_protected))
      /\ run 20 Sample.w_protected = Some 0%Z)
  /\ run 20 Sample.w_silent = None.
Proof.
  split; [|split; [|split]].
  - destruct (main_steps_in_order 20 Sample.w_unplugging) as (_ & H & _).
    apply (H (Fs.SystemError Fs.ENOENT "access" NICENANO_VOLUME)).
    apply (nth_error_In _ 335). vm_compute. reflexivity.
  - destruct (main_steps_in_order 20 Sample.w_run) as (_ & _ & H).
    destruct H as ((zip & fw & _ & _ & Hl) & H & _).
    + apply (nth_error_In _ 175). vm_compute. reflexivity.
    + split; [|now exists fw].
      apply (H 0%N true); reflexivity.
  - split; [apply (nth_error_In _ 176); vm_compute; reflexivity|].
    destruct (main_steps_in_order 20 Sample.w_protected) as (_ & _ & H).
    destruct H as (_ & H & _).
    + apply (nth_error_In _ 174). vm_compute. reflexivity.
    + apply (H 0%N true); reflexivity.
  - destruct (main_steps_in_order 20 Sample.w_silent) as (_ & _ & H).
    destruct H as (_ & _ & _ & H).
    + apply (nth_error_In _ 175). vm_compute. reflexivity.
    + apply H. reflexivity.
Defined.

(** C5 as stated fails: in this run both images are copied and
    completion is reported, the operator closes the question about the
    archive, and the process exits with status 1. *)
Lemma main_closed_prompt_exits_1 :
  In completed (events (main 20 Sample.w_closing))
  /\ ~ (In completed (events (main 20 Sample.w_closing)) ->
        run 20 Sample.w_closing = Some 0%Z).
Proof.
  assert (Hin : In completed (events (main 20 Sample.w_closing)))
    by (apply (nth_error_In _ 175); vm_compute; reflexivity).
  split; [exact Hin|].
  intros H. specialize (H Hin).
  assert (Hrun : run 20 Sample.w_closing = Some 1%Z) by (vm_compute; reflexivity).
  rewrite Hrun in H. discriminate H.
Qed.

(* ================================================================== *)
(** * Further properties of the script *)
(* ================================================================== *)

(** ** Relative time *)

Lemma div_positive (a b : Z) : (0 < b)%Z -> (0 <? a / b)%Z = (b <=? a)%Z.
Proof.
  intros Hb. destruct (b <=? a)%Z eqn:E.
  - apply Z.leb_le in E. apply Z.ltb_lt.
    assert (1 <= a / b)%Z by (apply Z.div_le_lower_bound; lia). lia.
  - apply Z.leb_gt in E. apply Z.ltb_ge.
    assert (a / b < 1)%Z by (apply Z.div_lt_upper_bound; lia). lia.
Qed.

(** The label by the age in milliseconds. *)
Lemma formatRelativeTime_label (date : Z) (w : World) :
  formatRelativeTime date w = mkResult (Ret (age_label (clock w - date))) w [].
Proof.
  unfold formatRelativeTime, bind, date_now. cbn [outcome world events].
  remember (clock w - date)%Z as diff eqn:Hd. clear Hd.
  assert (Hmin : (diff / 1000 / 60 = diff / 60000)%Z)
    by (rewrite Zdiv.Zdiv_Zdiv by lia; reflexivity).
  assert (Hhour : (diff / 1000 / 60 / 60 = diff / 3600000)%Z)
    by (rewrite !Zdiv.Zdiv_Zdiv by lia; reflexivity).
  assert (Hday : (diff / 1000 / 60 / 60 / 24 = diff / 86400000)%Z)
    by (rewrite !Zdiv.Zdiv_Zdiv by lia; reflexivity).
  rewrite Hday, Hhour, Hmin, !div_positive by lia.
  unfold age_label, counted.
  destruct (86400000 <=? diff)%Z eqn:E1.
  - apply Z.leb_le in E1.
    replace (diff <? 60000)%Z with false by (symmetry; apply Z.ltb_ge; lia).
    replace (diff <? 3600000)%Z with false by (symmetry; apply Z.ltb_ge; lia).
    replace (diff <? 86400000)%Z with false by (symmetry; apply Z.ltb_ge; lia).
    destruct (diff / 86400000 =? 1)%Z; reflexivity.
  - apply Z.leb_gt in E1.
    replace (diff <? 86400000)%Z with true by (symmetry; apply Z.ltb_lt; lia).
    destruct (3600000 <=? diff)%Z eqn:E2.
    + apply Z.leb_le in E2.
      replace (diff <? 60000)%Z with false by (symmetry; apply Z.ltb_ge; lia).
      replace (diff <? 3600000)%Z with false by (symmetry; apply Z.ltb_ge; lia).
      destruct (diff / 3600000 =? 1)%Z; reflexivity.
    + apply Z.leb_gt in E2.
      replace (diff <? 3600000)%Z with true by (symmetry; apply Z.ltb_lt; lia).
      destruct (60000 <=? diff)%Z eqn:E3.
      * apply Z.leb_le in E3.
        replace (diff <? 60000)%Z with false by (symmetry; apply Z.ltb_ge; lia).
        destruct (diff / 60000 =? 1)%Z; reflexivity.
      * apply Z.leb_gt in E3.
        replace (diff <? 60000)%Z with true by (symmetry; apply Z.ltb_lt; lia).
        reflexivity.
Qed.

(** X1.  [formatRelativeTime] reads the clock and changes nothing; its
    label depends on the age in milliseconds only: "just now" under one
    minute (and for dates in the future), then the whole minutes up to one
    hour, the whole hours up to one day, the whole days after that, with
    the singular for exactly one. *)
Theorem formatRelativeTime_by_age (date : Z) (w : World) :
  formatRelativeTime date w = mkResult (Ret (age_label (clock w - date))) w [].
Proof. apply formatRelativeTime_label. Qed.

(** ** The progress bar *)

Lemma bar_passes_step (i stepSize : Z) :
  (0 < stepSize)%Z -> (i <= 100)%Z ->
  bar_passes i stepSize = (1 + bar_passes (i + stepSize) stepSize)%Z.
Proof.
  intros Hs Hi. unfold bar_passes.
  replace (i <=? 100)%Z with true by (symmetry; apply Z.leb_le; lia).
  destruct (i + stepSize <=? 100)%Z eqn:E.
  - apply Z.leb_le in E.
    replace (100 - i)%Z with ((100 - (i + stepSize)) + 1 * stepSize)%Z by lia.
    rewrite Z.div_add by lia. lia.
  - apply Z.leb_gt in E. rewrite Z.div_small by lia. lia.
Qed.

Lemma bar_passes_nonneg (i stepSize : Z) :
  (0 < stepSize)%Z -> (0 <= bar_passes i stepSize)%Z.
Proof.
  intros Hs. unfold bar_passes. destruct (i <=? 100)%Z eqn:E; [|lia].
  apply Z.leb_le in E.
  assert (0 <= (100 - i) / stepSize)%Z by (apply Z.div_pos; lia). lia.
Qed.

Lemma bar_loop_passes (stepSize stepTimeMs : Z) (status : string) :
  (0 < stepSize)%Z ->
  forall (fuel : nat) (i : Z) (w : World),
    (Z.to_nat (101 - i) < fuel)%nat ->
    let r := bar_loop fuel i stepSize stepTimeMs status w in
    clock (world r) = (clock w + bar_passes i stepSize * stepTimeMs)%Z
    /\ Z.of_nat (count is_delay (events r)) = bar_passes i stepSize
    /\ Z.of_nat (count is_bar_update (events r)) = bar_passes i stepSize.
Proof.
  intros Hstep. induction fuel as [|fuel IH]; intros i w Hfuel; [lia|].
  cbn [bar_loop]. destruct (i <=? 100)%Z eqn:Hi.
  - apply Z.leb_le in Hi.
    destruct (IH (i + stepSize)%Z (world (sleep stepTimeMs w))) as (Hc & Hd & Hu);
      [lia|].
    cbn zeta in *. rewrite (bar_passes_step i stepSize Hstep Hi).
    rewrite bind_emit. cbn [outcome world events].
    remember (bar_loop fuel (i + stepSize) stepSize stepTimeMs status) as rest eqn:Hrest.
    assert (Hb : bind (sleep stepTimeMs) (fun _ => rest) w
                 = mkResult (outcome (rest (world (sleep stepTimeMs w))))
                     (world (rest (world (sleep stepTimeMs w))))
                     (EvSleep stepTimeMs :: events (rest (world (sleep stepTimeMs w))))).
    { reflexivity. }
    rewrite Hb. cbn [outcome world events]. rewrite Hc.
    rewrite !count_cons. cbn [is_delay is_bar_update].
    cbn [sleep world clock] in *. repeat split; lia.
  - cbn [ret world events]. unfold bar_passes. rewrite Hi. cbn. repeat split; lia.
Qed.

Lemma bar_passes_all (steps : Z) :
  (0 < steps <= 100)%Z -> (100 mod steps = 0)%Z ->
  bar_passes 0 (100 / steps) = (steps + 1)%Z.
Proof.
  intros Hsteps H100. unfold bar_passes. cbn [Z.leb Z.compare]. rewrite Z.sub_0_r.
  assert (H : (100 = steps * (100 / steps))%Z) by (apply Z.div_exact; lia).
  assert (Hsize : (0 < 100 / steps)%Z) by (apply Z.div_str_pos; lia).
  revert H Hsize. generalize (100 / steps)%Z as q. intros q H Hsize.
  assert (Hdiv : (100 / q = steps)%Z).
  { transitivity ((steps * q) / q)%Z; [now rewrite <- H|]. apply Z.div_mul. lia. }
  now rewrite Hdiv.
Qed.

(** The time a progress bar takes. *)
Lemma animateProgressBar_passes
    (durationMs : Z) (status : string) (steps : Z) (w : World) :
  (0 < steps <= 100)%Z -> (100 mod steps = 0)%Z -> (durationMs mod steps = 0)%Z ->
  let r := animateProgressBar durationMs status steps w in
  outcome r = Ret tt
  /\ clock (world r) = (clock w + durationMs + durationMs / steps)%Z.
Proof.
  intros Hsteps H100 Hdur. cbn zeta.
  assert (Hsize : (0 < 100 / steps)%Z) by (apply Z.div_str_pos; lia).
  pose proof (bar_passes_all steps Hsteps H100) as Hpasses.
  unfold animateProgressBar.
  destruct (bar_loop_run (100 / steps) (durationMs / steps) status Hsize 102 0%Z w)
    as (Ho & _ & _); [simpl; lia|].
  destruct (bar_loop_passes (100 / steps) (durationMs / steps) status Hsize 102 0%Z w)
    as (Hc & _ & _); [simpl; lia|].
  cbn zeta in *. step_binds. rewrite Ho. step_binds. rewrite Hc, Hpasses.
  assert (Hexact : (durationMs = steps * (durationMs / steps))%Z)
    by (apply Z.div_exact; lia).
  split; [reflexivity | lia].
Qed.



(** ** The retry loop: termination and pacing *)

Lemma copy_loop_done (fuel : nat) (firmwarePath : string) (side : Side)
    (retries : Z) (w : World) :
  (maxRetries <= retries)%Z ->
  copy_loop (S fuel) firmwarePath side retries w = mkResult (Ret tt) w [].
Proof.
  intros H. rewrite copy_loop_step.
  replace (retries <? maxRetries)%Z with false by (symmetry; apply Z.ltb_ge; lia).
  reflexivity.
Qed.

(** One more unit of fuel changes nothing once the fuel covers the
    attempts that are left. *)
Lemma copy_loop_fuel_enough (firmwarePath : string) (side : Side) (fuel : nat) :
  forall (retries : Z) (w : World),
    (0 <= retries)%Z ->
    (Z.to_nat (maxRetries - retries) <= fuel)%nat -> (1 <= fuel)%nat ->
    copy_loop (S fuel) firmwarePath side retries w
    = copy_loop fuel firmwarePath side retries w.
Proof.
  induction fuel as [|fuel IH]; intros retries w Hr Hfuel Hone; [lia|].
  rewrite (copy_loop_step (S fuel)), (copy_loop_step fuel).
  destruct (retries <? maxRetries)%Z eqn:Hlt; [|reflexivity].
  apply Z.ltb_lt in Hlt. cbn zeta.
  remember (copy_attempt firmwarePath side w) as ra eqn:Hra. clear Hra.
  destruct (outcome ra) as [a|e|c|]; try reflexivity.
  destruct (retries + 1 >=? maxRetries)%Z eqn:Hge; [reflexivity|].
  rewrite Z.geb_leb in Hge. apply Z.leb_gt in Hge. unfold maxRetries in *.
  rewrite IH by lia. reflexivity.
Qed.

Lemma copy_loop_ends (firmwarePath : string) (side : Side) (fuel : nat) :
  forall (retries : Z) (w : World),
    (0 <= retries)%Z ->
    (Z.to_nat (maxRetries - retries) <= fuel)%nat -> (1 <= fuel)%nat ->
    outcome (copy_loop fuel firmwarePath side retries w) = Ret tt
    \/ exists e, outcome (copy_loop fuel firmwarePath side retries w) = Throw e.
Proof.
  induction fuel as [|fuel IH]; intros retries w Hr Hfuel Hone; [lia|].
  rewrite copy_loop_step.
  destruct (retries <? maxRetries)%Z eqn:Hlt; [|now left].
  apply Z.ltb_lt in Hlt. cbn zeta.
  destruct (copy_attempt_facts firmwarePath side w) as (Ho & _). cbn zeta in Ho.
  remember (copy_attempt firmwarePath side w) as ra eqn:Hra. clear Hra.
  destruct Ho as [Ho|[e Ho]]; rewrite Ho; [now left|].
  destruct (retries + 1 >=? maxRetries)%Z eqn:Hge; [right; now exists e|].
  rewrite Z.geb_leb in Hge. apply Z.leb_gt in Hge. unfold maxRetries in *.
  cbn [outcome]. apply IH; lia.
Qed.

(** X3.  Five units of fuel are enough for [copyFirmwareToKeyboard]:
    with them the call ends, by returning or by throwing, and more fuel
    gives the very same result. *)
Theorem copyFirmwareToKeyboard_terminates
    (fuel : nat) (firmwarePath : string) (side : Side) (w : World) :
  (5 <= fuel)%nat ->
  copyFirmwareToKeyboard fuel firmwarePath side w
  = copyFirmwareToKeyboard 5 firmwarePath side w
  /\ (outcome (copyFirmwareToKeyboard fuel firmwarePath side w) = Ret tt
      \/ exists e, outcome (copyFirmwareToKeyboard fuel firmwarePath side w) = Throw e).
Proof.
  intros Hfuel. unfold copyFirmwareToKeyboard. split.
  - induction fuel as [|fuel IH]; [lia|].
    destruct (Nat.eq_dec fuel 4) as [->|Hne]; [reflexivity|].
    rewrite copy_loop_fuel_enough by (unfold maxRetries; simpl; lia).
    apply IH. lia.
  - apply copy_loop_ends; unfold maxRetries; simpl; lia.
Qed.

(** With the volume read-only the call throws, with 5 units of fuel as
    with 9. *)
Lemma copyFirmwareToKeyboard_terminates_witness :
  copyFirmwareToKeyboard 9 Sample.firmwarePath Left Sample.w_locked
  = copyFirmwareToKeyboard 5 Sample.firmwarePath Left Sample.w_locked.
Proof.
  apply (copyFirmwareToKeyboard_terminates 9 Sample.firmwarePath Left Sample.w_locked).
  lia.
Defined.

Lemma prepare_copy_clock (side : Side) (w : World) :
  clock (checked_world side w) = (clock w + 550)%Z.
Proof.
  unfold checked_world, prepare_copy.
  destruct (animateProgressBar_passes 500
              "Preparing keyboard for writing..." 10 w) as (Ho & Hc);
    [lia | reflexivity | reflexivity|].
  cbn zeta in *. step_binds. rewrite Hc.
  change (500 / 10)%Z with 50%Z. lia.
Qed.

Lemma no_warning_in_attempt (firmwarePath : string) (side : Side) (w : World) :
  count is_warning (events (copy_attempt firmwarePath side w)) = 0%nat.
Proof.
  apply count_none.
  apply (emits_copy_attempt (fun e => is_warning e = false)); reflexivity.
Qed.

Lemma copy_attempt_clock (firmwarePath : string) (side : Side) (w : World) :
  clock (world (copy_attempt firmwarePath side w))
  = match outcome (copy_attempt firmwarePath side w) with
    | Ret _ => (clock w + 1600)%Z
    | _ => (clock w + 550)%Z
    end.
Proof.
  destruct (copy_attempt_run firmwarePath side w) as (q & _ & Hrun).
  cbn zeta in Hrun. pose proof (prepare_copy_clock side w) as Hp.
  revert Hrun Hp. generalize (checked_world side w) as w1.
  generalize (copy_attempt firmwarePath side w) as rc. intros rc w1 Hrun Hp.
  destruct (Fs.access NICENANO_VOLUME Fs.W_OK (fs w1)) as [e|u].
  { subst rc. cbn [outcome world]. exact Hp. }
  destruct (Fs.copy (clock w1) firmwarePath (destination firmwarePath) (fs w1))
    as [e|fs2].
  { subst rc. cbn [outcome world]. exact Hp. }
  destruct Hrun as (q2 & _ & Hrun).
  destruct (animateProgressBar_passes 1000 "Restarting keyboard..." 20
              (set_fs fs2 w1)) as (_ & Hc); [lia | reflexivity | reflexivity|].
  cbn zeta in Hc. revert Hrun Hc.
  generalize (animateProgressBar 1000 "Restarting keyboard..." 20 (set_fs fs2 w1)) as ra.
  intros ra Hrun Hc.
  subst rc. cbn [outcome world]. rewrite Hc.
  change (clock (set_fs fs2 w1)) with (clock w1).
  change (1000 / 20)%Z with 50%Z. lia.
Qed.

Lemma retry_notice_pacing (side : Side) (retries : Z) (w : World) :
  clock (world (retry_notice side retries w)) = (clock w + 1050)%Z
  /\ count is_warning (events (retry_notice side retries w)) = 1%nat.
Proof.
  unfold retry_notice.
  match goal with
  | |- context [animateProgressBar ?d ?s ?n] =>
      destruct (animateProgressBar_passes d s n w) as (_ & Hc);
        [lia | reflexivity | reflexivity|];
      destruct (animateProgressBar_run d s n w) as (_ & Hq & _); [reflexivity|];
      cbn zeta in Hc, Hq; step_binds; revert Hc Hq;
      generalize (animateProgressBar d s n w) as ra; intros ra Hc Hq
  end.
  split.
  - rewrite Hc. unfold retryDelay. change (1000 / 20)%Z with 50%Z. lia.
  - rewrite count_app.
    rewrite (quiet_count is_warning (events ra)); [reflexivity | | exact Hq].
    now intros [| | | | |].
Qed.

Lemma copy_loop_pacing_success (firmwarePath : string) (side : Side) (n : nat) :
  forall (fuel : nat) (retries : Z) (w : World),
    (0 <= retries)%Z ->
    (retries + Z.of_nat n < maxRetries)%Z ->
    (n < fuel)%nat ->
    (forall i, (i < n)%nat ->
       exists e, outcome (copy_attempt firmwarePath side
                            (attempt_world firmwarePath side retries w i)) = Throw e) ->
    outcome (copy_attempt firmwarePath side
               (attempt_world firmwarePath side retries w n)) = Ret tt ->
    let r := copy_loop fuel firmwarePath side retries w in
    clock (world r) = (clock w + 1600 * Z.of_nat (S n))%Z
    /\ count is_warning (events r) = n.
Proof.
  induction n as [|n IH]; intros fuel retries w Hr Hn Hfuel Hfail Hok;
    (destruct fuel as [|fuel]; [lia|]); cbn zeta; rewrite copy_loop_step;
    unfold maxRetries in *;
    (replace (retries <? 5)%Z with true by (symmetry; apply Z.ltb_lt; lia));
    pose proof (copy_attempt_clock firmwarePath side w) as Hclock;
    pose proof (no_warning_in_attempt firmwarePath side w) as Hwarn.
  - cbn [attempt_world] in Hok. cbn zeta. rewrite Hok in *. split; [lia | exact Hwarn].
  - destruct (Hfail 0%nat) as [e He]; [lia|]. cbn [attempt_world] in He.
    cbn zeta. rewrite He in *.
    replace (retries + 1 >=? 5)%Z with false
      by (symmetry; rewrite Z.geb_leb; apply Z.leb_gt; lia).
    destruct (retry_notice_pacing side (retries + 1)
                (world (copy_attempt firmwarePath side w))) as (Hnc & Hnw).
    destruct (IH fuel (retries + 1)%Z
                (world (retry_notice side (retries + 1)
                          (world (copy_attempt firmwarePath side w)))))
      as (IHc & IHw); try lia.
    + intros i Hi. apply (Hfail (S i)). lia.
    + exact Hok.
    + cbn zeta in *. cbn [world events]. split.
      * rewrite IHc, Hnc, Hclock. lia.
      * rewrite !count_app, Hwarn, Hnw, IHw. reflexivity.
Qed.

Lemma copy_loop_pacing_exhausted (firmwarePath : string) (side : Side) (n : nat) :
  forall (fuel : nat) (retries : Z) (w : World) (errs : nat -> Error),
    (0 <= retries)%Z ->
    (retries + Z.of_nat (S n) = maxRetries)%Z ->
    (n < fuel)%nat ->
    (forall i, (i <= n)%nat ->
       outcome (copy_attempt firmwarePath side
                  (attempt_world firmwarePath side retries w i)) = Throw (errs i)) ->
    let r := copy_loop fuel firmwarePath side retries w in
    clock (world r) = (clock w + 1600 * Z.of_nat n + 550)%Z
    /\ count is_warning (events r) = n.
Proof.
  induction n as [|n IH]; intros fuel retries w errs Hr Hn Hfuel Hfail;
    (destruct fuel as [|fuel]; [lia|]); cbn zeta; rewrite copy_loop_step;
    unfold maxRetries in *;
    (replace (retries <? 5)%Z with true by (symmetry; apply Z.ltb_lt; lia));
    pose proof (copy_attempt_clock firmwarePath side w) as Hclock;
    pose proof (no_warning_in_attempt firmwarePath side w) as Hwarn;
    (assert (He : outcome (copy_attempt firmwarePath side w) = Throw (errs 0%nat))
      by (apply (Hfail 0%nat); lia));
    cbn zeta.
  - replace (retries + 1 >=? 5)%Z with true
      by (symmetry; rewrite Z.geb_leb; apply Z.leb_le; lia).
    clear Hfail. revert Hclock Hwarn He.
    generalize (copy_attempt firmwarePath side w) as ra. intros ra Hclock Hwarn He.
    rewrite He in *. cbn [world events]. split; [lia|].
    rewrite count_app, Hwarn. reflexivity.
  - rewrite He in *.
    replace (retries + 1 >=? 5)%Z with false
      by (symmetry; rewrite Z.geb_leb; apply Z.leb_gt; lia).
    destruct (retry_notice_pacing side (retries + 1)
                (world (copy_attempt firmwarePath side w))) as (Hnc & Hnw).
    destruct (IH fuel (retries + 1)%Z
                (world (retry_notice side (retries + 1)
                          (world (copy_attempt firmwarePath side w))))
                (fun i => errs (S i)))
      as (IHc & IHw); try lia.
    + intros i Hi. apply (Hfail (S i)). lia.
    + cbn zeta in *. cbn [world events]. split.
      * rewrite IHc, Hnc, Hclock. lia.
      * rewrite !count_app, Hwarn, Hnw, IHw. reflexivity.
Qed.

(** X4.  The pace of the retries is constant: every failed attempt that
    is retried costs 1600 ms (the 550 ms of the preparation and the
    1050 ms of the retry delay) and one warning.  A call that succeeds at
    attempt [n + 1] takes [1600 * (n + 1)] ms and warns [n] times; a call
    whose five attempts fail takes 6950 ms and warns four times, the fifth
    failure being reported as the error. *)
Theorem copyFirmwareToKeyboard_pacing
    (firmwarePath : string) (side : Side) (w : World) :
  (forall n fuel,
     (n < 5)%nat -> (n < fuel)%nat ->
     (forall i, (i < n)%nat ->
        exists e, outcome (copy_attempt firmwarePath side
                             (attempt_world firmwarePath side 0 w i)) = Throw e) ->
     outcome (copy_attempt firmwarePath side
                (attempt_world firmwarePath side 0 w n)) = Ret tt ->
     let r := copyFirmwareToKeyboard fuel firmwarePath side w in
     clock (world r) = (clock w + 1600 * Z.of_nat (S n))%Z
     /\ count is_warning (events r) = n)
  /\ (forall fuel (errs : nat -> Error),
        (5 <= fuel)%nat ->
        (forall i, (i < 5)%nat ->
           outcome (copy_attempt firmwarePath side
                      (attempt_world firmwarePath side 0 w i)) = Throw (errs i)) ->
        let r := copyFirmwareToKeyboard fuel firmwarePath side w in
        clock (world r) = (clock w + 6950)%Z
        /\ count is_warning (events r) = 4%nat).
Proof.
  unfold copyFirmwareToKeyboard. split.
  - intros n fuel Hn Hfuel Hfail Hok.
    apply copy_loop_pacing_success; unfold maxRetries; auto; lia.
  - intros fuel errs Hfuel Hfail.
    destruct (copy_loop_pacing_exhausted firmwarePath side 4 fuel 0%Z w errs)
      as (Hc & Hw);
      [lia | unfold maxRetries; lia | lia | intros i Hi; apply Hfail; lia|].
    cbn zeta in *. split; [rewrite Hc; lia | exact Hw].
Qed.

(** The volume that turns writable before the fifth check: 8000 ms and
    four warnings; the volume that stays read-only: 6950 ms and four
    warnings. *)
Lemma copyFirmwareToKeyboard_pacing_witness :
  (let r := copyFirmwareToKeyboard 5 Sample.firmwarePath Left Sample.w_flaky in
   clock (world r) = 8000%Z /\ count is_warning (events r) = 4%nat)
  /\ (let r := copyFirmwareToKeyboard 5 Sample.firmwarePath Left Sample.w_locked in
      clock (world r) = 6950%Z /\ count is_warning (events r) = 4%nat).
Proof.
  split.
  - destruct (copyFirmwareToKeyboard_pacing Sample.firmwarePath Left Sample.w_flaky)
      as (H & _).
    apply (H 4%nat 5%nat); [lia | lia | | vm_compute; reflexivity].
    intros i Hi.
    destruct i as [|[|[|[|i]]]]; [| | | | lia];
      eexists; vm_compute; reflexivity.
  - destruct (copyFirmwareToKeyboard_pacing Sample.firmwarePath Left Sample.w_locked)
      as (_ & H).
    apply (H 5%nat (fun _ => Fs.SystemError Fs.EACCES "access" "/Volumes/NICENANO"));
      [lia|].
    intros i Hi.
    destruct i as [|[|[|[|[|i]]]]]; [| | | | | lia]; vm_compute; reflexivity.
Defined.

(** ** Archives with the same timestamp *)

Lemma insert_keeps_ties (k : Z) (x : FileInfo) (l : list FileInfo) :
  filter (has_mtime k) (Js.insert newest_first x l)
  = filter (has_mtime k) (x :: l).
Proof.
  induction l as [|y l IH]; [reflexivity|].
  cbn [Js.insert]. destruct (newest_first x y <=? 0)%Z eqn:Hcmp; [reflexivity|].
  apply Z.leb_gt in Hcmp. unfold newest_first in Hcmp.
  cbn [filter] in *. rewrite IH. unfold has_mtime.
  destruct (mtime x =? k)%Z eqn:Hx; [|reflexivity].
  apply Z.eqb_eq in Hx.
  replace (mtime y =? k)%Z with false by (symmetry; apply Z.eqb_neq; lia).
  reflexivity.
Qed.

Lemma sort_keeps_ties (k : Z) (l : list FileInfo) :
  filter (has_mtime k) (Js.sort newest_first l) = filter (has_mtime k) l.
Proof.
  induction l as [|x l IH]; [reflexivity|].
  cbn [Js.sort]. rewrite insert_keeps_ties. cbn [filter]. now rewrite IH.
Qed.

Lemma info_of_stamped (folder : string) (fs : Fs.t) (k : Z)
    (names : list string) (infos : list FileInfo) :
  Forall2 (info_of folder fs) names infos ->
  Forall (fun f => is_zip f = true) names ->
  map name (filter (has_mtime k) infos) = filter (stamped folder fs k) names.
Proof.
  induction 1 as [|f i names infos (Hn & _ & st & Hst & Hm) _ IH];
    intros Hzip; [reflexivity|].
  inversion Hzip as [|? ? Hf Hrest]; subst.
  cbn [filter]. unfold stamped at 1, has_mtime at 1. rewrite Hf, Hst, Hm.
  cbn [andb]. destruct (Fs.st_mtime st =? k)%Z; cbn [map]; now rewrite IH.
Qed.

Lemma stamped_zip (folder : string) (fs : Fs.t) (k : Z) (files : list string) :
  filter (stamped folder fs k) (filter is_zip files)
  = filter (stamped folder fs k) files.
Proof.
  induction files as [|f files IH]; [reflexivity|].
  cbn [filter]. unfold stamped at 2. destruct (is_zip f) eqn:Hz.
  - cbn [filter andb]. unfold stamped at 1. rewrite Hz. cbn [andb]. now rewrite IH.
  - cbn [andb]. exact IH.
Qed.

(** X5.  Archives with the same timestamp keep the order of the folder's
    listing: for every timestamp, the names of the returned entries that
    carry it are the candidates of the listing that carry it, in the
    listing's order. *)
Theorem getZipFiles_ties_in_listing_order (w : World) (files : list string) :
  Fs.readdir (DOWNLOADS_FOLDER (env w)) (fs w) = inr files ->
  (forall f, In f files -> is_zip f = true ->
             exists st, Fs.stat (Path.join (DOWNLOADS_FOLDER (env w)) f) (fs w)
                        = inr st) ->
  exists infos,
    outcome (getZipFiles w) = Ret infos
    /\ forall k,
         map name (filter (has_mtime k) infos)
         = filter (stamped (DOWNLOADS_FOLDER (env w)) (fs w) k) files.
Proof.
  intros Hrd Hstat. destruct (getZipFiles_cases w) as [_ Hcases].
  rewrite Hrd in Hcases.
  destruct Hcases as [(infos & Ho & Hall) | (_ & f & e & Hin & Hf)].
  - exists (Js.sort newest_first infos). split; [exact Ho|]. intros k.
    rewrite sort_keeps_ties, <- stamped_zip.
    apply info_of_stamped; [exact Hall|].
    apply Forall_forall. intros f Hf. now apply filter_In in Hf.
  - apply filter_In in Hin as [Hin Hz].
    destruct (Hstat f Hin Hz) as [st Hst]. congruence.
Qed.

(** Three archives of the same age and a newer one: the three come in
    the order of the folder's listing, which is sorted by name. *)
Lemma getZipFiles_ties_in_listing_order_witness :
  exists infos,
    outcome (getZipFiles w_same_time) = Ret infos
    /\ map name (filter (has_mtime 1000) infos) = ["a.zip"; "m.zip"; "z.zip"].
Proof.
  destruct (getZipFiles_ties_in_listing_order w_same_time
              ["a.zip"; "m.zip"; "new.zip"; "z.zip"]) as (infos & Ho & Hk).
  - vm_compute. reflexivity.
  - intros f [<-|[<-|[<-|[<-|[]]]]] Hz; eexists; vm_compute; reflexivity.
  - exists infos. split; [exact Ho|]. rewrite Hk. vm_compute. reflexivity.
Defined.

(** ** How the pieces of the script end *)

Section NeverExits.

Lemma never_exits_ret {A} (a : A) : never_exits (ret a).
Proof. intros w c. discriminate. Qed.

Lemma never_exits_throw {A} (e : Error) : never_exits (@throw A e).
Proof. intros w c. discriminate. Qed.

Lemma never_exits_out_of_fuel {A} : never_exits (@out_of_fuel A).
Proof. intros w c. discriminate. Qed.

Lemma never_exits_get_env : never_exits get_env.
Proof. intros w c. discriminate. Qed.

Lemma never_exits_date_now : never_exits date_now.
Proof. intros w c. discriminate. Qed.

Lemma never_exits_emit (e : Event) : never_exits (emit e).
Proof. intros w c. discriminate. Qed.

Lemma never_exits_sleep (ms : Z) : never_exits (sleep ms).
Proof. intros w c. discriminate. Qed.

Lemma never_exits_bind {A B} (m : M A) (k : A -> M B) :
  never_exits m -> (forall a, never_exits (k a)) -> never_exits (bind m k).
Proof.
  intros Hm Hk w c. rewrite bind_outcome. specialize (Hm w).
  revert Hm. generalize (m w) as r. intros r Hm.
  destruct (outcome r) as [a|e|c'|] eqn:Hr; try discriminate.
  - apply Hk.
  - now destruct (Hm c').
Qed.

Lemma never_exits_try_catch {A} (m : M A) (h : Error -> M A) :
  never_exits m -> (forall e, never_exits (h e)) -> never_exits (try_catch m h).
Proof.
  intros Hm Hh w c. rewrite try_catch_outcome. specialize (Hm w).
  revert Hm. generalize (m w) as r. intros r Hm.
  destruct (outcome r) as [a|e|c'|] eqn:Hr; try discriminate.
  - apply Hh.
  - now destruct (Hm c').
Qed.

Lemma never_exits_if {A} (c : bool) (m1 m2 : M A) :
  never_exits m1 -> never_exits m2 -> never_exits (if c then m1 else m2).
Proof. now destruct c. Qed.

Lemma never_exits_promise_all {A} (ms : list (M A)) :
  Forall never_exits ms -> never_exits (promise_all ms).
Proof.
  induction 1 as [|m ms Hm _ IH]; [apply never_exits_ret|].
  intros w c. cbn [promise_all]. specialize (Hm w).
  revert Hm. generalize (m w) as r. intros r Hm. cbn zeta.
  specialize (IH (world r)).
  revert IH. generalize (promise_all ms (world r)) as r'. intros r' IH.
  destruct (outcome r) as [a|e|c'|] eqn:Hr; cbn [outcome]; try discriminate.
  - destruct (outcome r') as [l|e|c'|] eqn:Hr'; try discriminate.
    now destruct (IH c').
  - destruct (outcome r') as [l|e'|c'|] eqn:Hr'; try discriminate.
    now destruct (IH c').
  - now destruct (Hm c').
Qed.

Lemma never_exits_fs_read {A} (call : FsCall) (f : Fs.t -> Error + A) :
  never_exits (fs_read call f).
Proof. intros w c. rewrite fs_read_run. now destruct (f (fs w)). Qed.

Lemma never_exits_fs_update (call : FsCall) (f : Z -> Fs.t -> Error + Fs.t) :
  never_exits (fs_update call f).
Proof. intros w c. rewrite fs_update_run. now destruct (f (clock w) (fs w)). Qed.

Lemma never_exits_extract (zip dir : string) : never_exits (extract zip dir).
Proof.
  intros w c. rewrite extract_run. now destruct (Fs.extract _ _ _ _ _) as [[e|] fs'].
Qed.

Lemma never_exits_prompt_list (message : string) choices :
  never_exits (prompt_list message choices).
Proof.
  intros w c. unfold prompt_list.
  destruct (answer_after (env w) message) as [ms|]; [|discriminate].
  destruct (select_answer (env w) choices) as [e|i];
    [|destruct (nth_error choices i) as [[? ?]|]]; discriminate.
Qed.

Lemma never_exits_prompt_confirm (message : string) :
  never_exits (prompt_confirm message).
Proof.
  intros w c. unfold prompt_confirm.
  destruct (answer_after (env w) message) as [ms|]; [|discriminate].
  now destruct (confirm_answer (env w)).
Qed.

Lemma never_exits_isVolumeReady : never_exits isVolumeReady.
Proof. intros w c. now rewrite isVolumeReady_run. Qed.

Lemma never_exits_bar_loop (fuel : nat) :
  forall i stepSize stepTimeMs status,
    never_exits (bar_loop fuel i stepSize stepTimeMs status).
Proof.
  induction fuel as [|fuel IH]; intros i stepSize stepTimeMs status;
    cbn [bar_loop]; [apply never_exits_out_of_fuel|].
  apply never_exits_if; [|apply never_exits_ret].
  apply never_exits_bind; [apply never_exits_emit | intros _].
  apply never_exits_bind; [apply never_exits_sleep | intros _]. apply IH.
Qed.

Lemma never_exits_animateProgressBar durationMs status steps :
  never_exits (animateProgressBar durationMs status steps).
Proof.
  unfold animateProgressBar. cbn zeta.
  apply never_exits_bind; [apply never_exits_emit | intros _].
  apply never_exits_bind; [apply never_exits_bar_loop | intros _].
  apply never_exits_emit.
Qed.

Lemma never_exits_wait_loop (fuel : nat) (side : Side) :
  never_exits (wait_loop fuel side).
Proof.
  induction fuel as [|fuel IH]; cbn [wait_loop]; [apply never_exits_out_of_fuel|].
  apply never_exits_bind; [apply never_exits_isVolumeReady | intros ready].
  apply never_exits_if.
  - apply never_exits_bind; [apply never_exits_emit | intros _].
    apply never_exits_bind; [apply never_exits_sleep | intros _].
    apply never_exits_ret.
  - apply never_exits_bind; [apply never_exits_sleep | intros _]. exact IH.
Qed.

Lemma never_exits_waitForBootloaderMode (fuel : nat) (side : Side) :
  never_exits (waitForBootloaderMode fuel side).
Proof.
  unfold waitForBootloaderMode, console_log.
  apply never_exits_bind; [apply never_exits_emit | intros _].
  apply never_exits_bind; [apply never_exits_emit | intros _].
  apply never_exits_wait_loop.
Qed.

Lemma never_exits_copy_attempt (firmwarePath : string) (side : Side) :
  never_exits (copy_attempt firmwarePath side).
Proof.
  intros w c. destruct (copy_attempt_facts firmwarePath side w) as (Ho & _).
  cbn zeta in Ho. destruct Ho as [Ho|[e Ho]]; rewrite Ho; discriminate.
Qed.

Lemma never_exits_copy_loop (firmwarePath : string) (side : Side) (fuel : nat) :
  forall retries, never_exits (copy_loop fuel firmwarePath side retries).
Proof.
  induction fuel as [|fuel IH]; intros retries; cbn [copy_loop];
    [apply never_exits_out_of_fuel|].
  apply never_exits_if; [|apply never_exits_ret].
  apply never_exits_try_catch; [apply never_exits_copy_attempt|].
  intros e. cbn zeta. apply never_exits_if.
  - unfold report_exhausted, console_error.
    apply never_exits_bind; [apply never_exits_emit | intros _].
    apply never_exits_throw.
  - apply never_exits_bind; [|intros _; apply IH].
    unfold retry_notice, console_warn.
    apply never_exits_bind; [apply never_exits_emit | intros _].
    apply never_exits_animateProgressBar.
Qed.

Lemma never_exits_getZipFiles : never_exits getZipFiles.
Proof.
  unfold getZipFiles, fs_readdir, console_error.
  apply never_exits_try_catch.
  - apply never_exits_bind; [apply never_exits_get_env | intros e].
    apply never_exits_bind; [apply never_exits_fs_read | intros files].
    cbn zeta. apply never_exits_bind; [|intros ?; apply never_exits_ret].
    apply never_exits_promise_all. apply Forall_map, Forall_forall. intros f _.
    unfold zip_stat, fs_stat. cbn zeta.
    apply never_exits_bind; [apply never_exits_fs_read | intros st].
    apply never_exits_bind; [|intros ?; apply never_exits_ret].
    intros w c. destruct (formatRelativeTime_run (Fs.st_mtime st) w) as [s ->].
    discriminate.
  - intros e. apply never_exits_bind; [apply never_exits_emit | intros _].
    apply never_exits_ret.
Qed.

Lemma never_exits_extractFirmwareFiles (zipFilePath : string) :
  never_exits (extractFirmwareFiles zipFilePath).
Proof.
  unfold extractFirmwareFiles, fs_ensureDir, fs_remove, find_firmware, fs_readdir.
  apply never_exits_bind; [apply never_exits_get_env | intros e].
  apply never_exits_bind; [apply never_exits_date_now | intros now]. cbn zeta.
  apply never_exits_bind; [apply never_exits_fs_update | intros _].
  apply never_exits_try_catch.
  - apply never_exits_bind; [apply never_exits_extract | intros _].
    apply never_exits_bind; [apply never_exits_fs_read | intros files]. cbn zeta.
    apply never_exits_if; [apply never_exits_throw|].
    destruct (Js.find _ files); [destruct (Js.find _ files)|];
      first [apply never_exits_ret | apply never_exits_throw].
  - intros err. apply never_exits_bind; [apply never_exits_fs_update | intros _].
    apply never_exits_throw.
Qed.

Lemma never_exits_extract_and_report (zipFile : string) :
  never_exits (extract_and_report zipFile).
Proof.
  unfold extract_and_report, console_log.
  apply never_exits_bind; [apply never_exits_emit | intros _].
  apply never_exits_bind; [apply never_exits_extractFirmwareFiles | intros fw].
  repeat (apply never_exits_bind; [apply never_exits_emit | intros _]).
  apply never_exits_ret.
Qed.

Lemma never_exits_process_keyboards (fuel : nat) (firmware : Firmware) :
  never_exits (process_keyboards fuel firmware).
Proof.
  unfold process_keyboards, copyFirmwareToKeyboard.
  apply never_exits_bind; [apply never_exits_waitForBootloaderMode | intros _].
  apply never_exits_bind; [apply never_exits_copy_loop | intros _].
  apply never_exits_bind; [apply never_exits_waitForBootloaderMode | intros _].
  apply never_exits_copy_loop.
Qed.

Lemma never_exits_offer_delete (zipFile : string) :
  never_exits (offer_delete zipFile).
Proof.
  unfold offer_delete.
  apply never_exits_bind; [apply never_exits_prompt_confirm | intros b].
  apply never_exits_if; [|apply never_exits_ret].
  intros w c. now rewrite delete_zip_returns.
Qed.

End NeverExits.

Lemma never_exits_reported {A} (m : M A) : never_exits m -> exits_reported m.
Proof. intros Hm w c Hc. now destruct (Hm w c). Qed.

Lemma exits_reported_bind {A B} (m : M A) (k : A -> M B) :
  exits_reported m -> (forall a, exits_reported (k a)) ->
  exits_reported (bind m k).
Proof.
  intros Hm Hk w c. rewrite bind_outcome, bind_events. specialize (Hm w).
  revert Hm. generalize (m w) as r. intros r Hm.
  destruct (outcome r) as [a|e|c'|] eqn:Hr; try discriminate.
  - intros Hc. destruct (Hk a (world r) c Hc) as (-> & t & text & d & Hev).
    split; [reflexivity|]. exists (events r ++ t)%list, text, d.
    now rewrite Hev, app_assoc.
  - intros Hc. destruct (Hm c' eq_refl) as (-> & t & text & d & Hev).
    injection Hc as <-. split; [reflexivity|]. exists t, text, d.
    now rewrite app_nil_r.
Qed.

Lemma exits_reported_select_archive : exits_reported select_archive.
Proof.
  unfold select_archive.
  apply exits_reported_bind;
    [apply never_exits_reported, never_exits_getZipFiles | intros zipFiles].
  apply exits_reported_bind;
    [|intros _; apply never_exits_reported, never_exits_prompt_list].
  destruct (Nat.eqb (List.length zipFiles) 0);
    [|apply never_exits_reported, never_exits_ret].
  intros w c Hc. injection Hc as <-. split; [reflexivity|].
  now exists [], "No zip files found in downloads folder.", None.
Qed.

Lemma exits_reported_main_body (fuel : nat) : exits_reported (main_body fuel).
Proof.
  unfold main_body, console_log.
  apply exits_reported_bind;
    [apply never_exits_reported, never_exits_emit | intros _].
  apply exits_reported_bind;
    [apply never_exits_reported, never_exits_emit | intros _].
  apply exits_reported_bind; [apply exits_reported_select_archive | intros zipFile].
  apply never_exits_reported.
  apply never_exits_bind; [apply never_exits_extract_and_report | intros fw].
  apply never_exits_bind; [apply never_exits_process_keyboards | intros _].
  apply never_exits_bind; [apply never_exits_emit | intros _].
  apply never_exits_offer_delete.
Qed.

(** X6.  [main] handles every error: it never ends with an error thrown
    to its caller.  It ends the process with no other status than 1, and
    then the last thing before the exit is an error message on the
    console. *)
Theorem main_never_rejects (fuel : nat) (w : World) :
  (forall e, outcome (main fuel w) <> Throw e)
  /\ (forall c,
        outcome (main fuel w) = Exit c ->
        c = 1%Z
        /\ exists t text detail,
             events (main fuel w)
             = (t ++ [EvConsole ConsoleError text detail; EvExit 1])%list).
Proof.
  destruct (main_unfold fuel w) as [Ho Hev]. rewrite Ho, Hev. clear Ho Hev.
  pose proof (exits_reported_main_body fuel w) as Hx. revert Hx.
  generalize (main_body fuel w) as rb. intros rb Hx.
  destruct (outcome rb) as [[]|e|c'|] eqn:Hrb; split; try discriminate.
  - intros c Hc. injection Hc as <-. split; [reflexivity|].
    now exists (events rb), "Error:", (Some e).
  - intros c Hc. injection Hc as <-.
    destruct (Hx c' eq_refl) as (-> & t & text & d & Ht).
    split; [reflexivity|]. exists t, text, d. now rewrite app_nil_r.
Qed.

(** The archive folder does not exist: the run ends with status 1, after
    an error message. *)
Lemma main_never_rejects_witness :
  exists t text detail,
    events (main 3 Sample.w_no_downloads)
    = (t ++ [EvConsole ConsoleError text detail; EvExit 1])%list.
Proof.
  destruct (main_never_rejects 3 Sample.w_no_downloads) as [_ H].
  apply (H 1%Z). vm_compute. reflexivity.
Defined.

Lemma getZipFiles_no_prompt (w : World) :
  Forall (fun e => is_prompt e = false) (events (getZipFiles w)).
Proof.
  apply (emits_getZipFiles (fun e => is_prompt e = false)); reflexivity.
Qed.

(** X7.  Without a candidate archive, because the folder cannot be read
    or holds no name that ends with [.zip], [main] says so and ends the
    process with status 1: the operator is asked nothing and the world is
    left as it was. *)
Theorem main_without_archives (fuel : nat) (w : World) :
  (forall files,
     Fs.readdir (DOWNLOADS_FOLDER (env w)) (fs w) = inr files ->
     filter is_zip files = []) ->
  let r := main fuel w in
  outcome r = Exit 1
  /\ world r = w
  /\ exists t,
       events r = (banner ++ t ++ [no_archives; EvExit 1])%list
       /\ Forall (fun e => is_prompt e = false) t.
Proof.
  intros Hnone. cbn zeta.
  destruct (getZipFiles_cases w) as [Hw Hcases].
  assert (Ho : outcome (getZipFiles w) = Ret []).
  { destruct (Fs.readdir (DOWNLOADS_FOLDER (env w)) (fs w)) as [e|files];
      [exact Hcases|].
    rewrite (Hnone files eq_refl) in Hcases.
    destruct Hcases as [(infos & Ho & Hall) | (Ho & _)]; [|exact Ho].
    inversion Hall; subst. exact Ho. }
  clear Hcases Hnone. pose proof (getZipFiles_no_prompt w) as Hq.
  assert (Hbody : main_body fuel w
                  = mkResult (Exit 1) w
                      (banner ++ events (getZipFiles w) ++ [no_archives; EvExit 1])).
  { unfold main_body, select_archive, console_log, console_error.
    apply result_ext; step_binds; rewrite ?Ho; step_binds; rewrite ?Ho, ?Hw;
      step_binds; cbn [List.length Nat.eqb]; step_binds.
    - reflexivity.
    - reflexivity.
    - generalize (events (getZipFiles w)) as t. intros t.
      rewrite !app_nil_r. reflexivity. }
  unfold main. rewrite try_catch_outcome, try_catch_world, try_catch_events, Hbody.
  cbn [outcome world events]. rewrite app_nil_r.
  split; [reflexivity|]. split; [reflexivity|].
  exists (events (getZipFiles w)). split; [reflexivity | exact Hq].
Qed.

(** The archive folder does not exist, or holds no name that ends with
    [.zip]: status 1, nothing asked. *)
Lemma main_without_archives_witness :
  (outcome (main 3 Sample.w_no_downloads) = Exit 1
   /\ world (main 3 Sample.w_no_downloads) = Sample.w_no_downloads)
  /\ (outcome (main 3 w_no_zip) = Exit 1 /\ world (main 3 w_no_zip) = w_no_zip).
Proof.
  split.
  - destruct (main_without_archives 3 Sample.w_no_downloads) as (Ho & Hw & _).
    + intros files Hrd. vm_compute in Hrd. discriminate Hrd.
    + split; [exact Ho | exact Hw].
  - destruct (main_without_archives 3 w_no_zip) as (Ho & Hw & _).
    + intros files Hrd. vm_compute in Hrd. injection Hrd as <-.
      vm_compute. reflexivity.
    + split; [exact Ho | exact Hw].
Defined.

(** ** Calls of [fs.unlinkSync] *)

(** The pieces that call neither [fs.unlinkSync] nor [fs.remove]. *)
Section OtherCalls.

Variable P : Event -> Prop.
Hypothesis P_other : forall e : Event, is_unlink e = false -> is_remove e = false -> P e.

Lemma other_calls_wait_loop (fuel : nat) (side : Side) :
  emits P (wait_loop fuel side).
Proof.
  induction fuel as [|fuel IH]; cbn [wait_loop]; [apply emits_out_of_fuel|].
  unfold isVolumeReady, fs_access, fs_readdir, console_log.
  apply emits_bind; [repeat emits_step | intros ready].
  apply emits_if; [repeat emits_step|].
  apply emits_bind; [emits_step | intros _; exact IH].
Qed.

Lemma other_calls_copy_loop (firmwarePath : string) (side : Side) (fuel : nat) :
  forall retries, emits P (copy_loop fuel firmwarePath side retries).
Proof.
  induction fuel as [|fuel IH]; intros retries; cbn [copy_loop];
    [apply emits_out_of_fuel|].
  apply emits_if; [|apply emits_ret].
  apply emits_try_catch.
  - unfold copy_attempt, prepare_copy, console_log, fs_access, fs_copy.
    repeat emits_step.
  - intros e. cbn zeta. apply emits_if.
    + unfold report_exhausted, console_error. repeat emits_step.
    + apply emits_bind; [|intros _; apply IH].
      unfold retry_notice, console_warn. repeat emits_step.
Qed.

Lemma other_calls_select_archive : emits P select_archive.
Proof.
  unfold select_archive, getZipFiles, fs_readdir, console_error.
  apply emits_bind; [|intros zipFiles; repeat emits_step].
  apply emits_try_catch; [|intros e; repeat emits_step].
  apply emits_bind; [emits_step | intros e].
  apply emits_bind; [emits_step | intros files]. cbn zeta.
  apply emits_bind; [|intros ?; emits_step].
  apply emits_promise_all. apply Forall_map, Forall_forall. intros f _.
  unfold zip_stat, fs_stat. cbn zeta. repeat emits_step.
Qed.

Lemma other_calls_process_keyboards (fuel : nat) (firmware : Firmware) :
  emits P (process_keyboards fuel firmware).
Proof.
  unfold process_keyboards, waitForBootloaderMode, copyFirmwareToKeyboard,
    console_log.
  apply emits_bind; [|intros _].
  { do 2 (apply emits_bind; [emits_step | intros _]). apply other_calls_wait_loop. }
  apply emits_bind; [apply other_calls_copy_loop | intros _].
  apply emits_bind; [|intros _; apply other_calls_copy_loop].
  do 2 (apply emits_bind; [emits_step | intros _]). apply other_calls_wait_loop.
Qed.

End OtherCalls.

Lemma keeps_archive_select_archive : emits keeps_archive select_archive.
Proof. apply other_calls_select_archive. intros e He _. exact He. Qed.

Lemma keeps_archive_process_keyboards (fuel : nat) (firmware : Firmware) :
  emits keeps_archive (process_keyboards fuel firmware).
Proof. apply other_calls_process_keyboards. intros e He _. exact He. Qed.

Lemma keeps_archive_extract_and_report (zipFile : string) :
  emits keeps_archive (extract_and_report zipFile).
Proof.
  unfold extract_and_report, console_log, extractFirmwareFiles, fs_ensureDir,
    fs_remove, find_firmware, fs_readdir.
  apply emits_bind; [emits_step | intros _].
  apply emits_bind; [|intros fw; repeat emits_step].
  apply emits_bind; [emits_step | intros e].
  apply emits_bind; [emits_step | intros now]. cbn zeta.
  apply emits_bind; [emits_step | intros _].
  apply emits_try_catch; [|intros err; repeat emits_step].
  apply emits_bind; [emits_step | intros _].
  apply emits_bind; [emits_step | intros files]. cbn zeta.
  apply emits_if; [emits_step|].
  destruct (Js.find _ files); [destruct (Js.find _ files)|]; emits_step.
Qed.

(** The offer to delete the archive, by the operator's answer. *)
Lemma offer_delete_run (zipFile : string) (w : World) :
  offer_delete zipFile w
  = match answer_after (env w) "Do you want to delete the firmware zip file?" with
    | None => mkResult OutOfFuel w [ask_delete]
    | Some ms =>
        let w1 := later (Z.of_N ms) w in
        match confirm_answer (env w) with
        | inl e => mkResult (Throw e) w1 [ask_delete]
        | inr false => mkResult (Ret tt) w1 [ask_delete]
        | inr true =>
            match Fs.unlink zipFile (fs w1) with
            | inl e =>
                mkResult (Ret tt) w1
                  [ask_delete; EvFs (CUnlink zipFile) false;
                   EvConsole ConsoleError "Error deleting zip file: " (Some e)]
            | inr fs' =>
                mkResult (Ret tt) (set_fs fs' w1)
                  [ask_delete; EvFs (CUnlink zipFile) true;
                   EvConsole Warn ("Deleted zip file: " ++ Path.basename zipFile) None]
            end
        end
    end.
Proof.
  unfold offer_delete, prompt_confirm, delete_zip, fs_unlinkSync, fs_update, bind,
    try_catch.
  destruct (answer_after (env w) _) as [ms|]; [|reflexivity].
  cbv zeta. generalize (later (Z.of_N ms) w) as w1. intros w1.
  destruct (confirm_answer (env w)) as [e|[|]]; cbn [outcome world events];
    try reflexivity.
  destruct (Fs.unlink zipFile (fs w1)) as [e|fs']; reflexivity.
Qed.

(** The archive that [select_archive] returns is one of those that
    [getZipFiles] found. *)
Lemma select_archive_offered (w : World) (zip : string) :
  outcome (select_archive w) = Ret zip ->
  exists infos,
    outcome (getZipFiles w) = Ret infos /\ In zip (map path infos).
Proof.
  unfold select_archive. intros Hs.
  destruct (bind_cases getZipFiles
              (fun zipFiles =>
                 (if Nat.eqb (List.length zipFiles) 0 then
                    console_error "No zip files found in downloads folder." None ;;
                    process_exit 1
                  else ret tt) ;;
                 prompt_list "Select the firmware zip file:"
                   (map (fun file =>
                           (Path.basename (path file) ++ " (" ++ relativeTime file ++ ")",
                            path file)) zipFiles)) w)
    as [(infos & Hz & Ho & _) | (_ & Ho & _)]; [|now destruct (Ho zip)].
  exists infos. split; [exact Hz|]. rewrite Ho in Hs. clear Ho Hz.
  revert Hs. generalize (world (getZipFiles w)) as w1. intros w1.
  rewrite bind_outcome.
  destruct (Nat.eqb (List.length infos) 0); [discriminate|].
  cbn [ret outcome world]. unfold prompt_list.
  destruct (answer_after (env w1) _) as [ms|]; [|discriminate].
  cbv zeta.
  destruct (select_answer (env w1) _) as [e|i]; [discriminate|].
  destruct (nth_error _ i) as [[label value]|] eqn:Hnth; [|discriminate].
  cbn [outcome]. intros Hv. injection Hv as <-.
  apply nth_error_In in Hnth. apply in_map_iff in Hnth as (file & Hfile & Hin).
  injection Hfile as _ <-. now apply in_map.
Qed.

Lemma keeps_archive_banner : Forall keeps_archive banner.
Proof. repeat constructor. Qed.

Lemma keeps_archive_handler {A} (o : Outcome A) :
  Forall keeps_archive
    match o with
    | Throw e => [EvConsole ConsoleError "Error:" (Some e); EvExit 1]
    | _ => []
    end.
Proof. destruct o; repeat constructor. Qed.

(** A trace holds no call of [fs.unlinkSync], or exactly one, made
    after the report of completion and the operator's confirmation, for
    the archive that was selected. *)
Lemma main_unlink_cases (fuel : nat) (w : World) :
  Forall keeps_archive (events (main fuel w))
  \/ exists pre zip ok post,
       events (main fuel w) = (pre ++ EvFs (CUnlink zip) ok :: post)%list
       /\ Forall keeps_archive pre /\ Forall keeps_archive post
       /\ In completed pre /\ In ask_delete pre
       /\ confirm_answer (env w) = inr true
       /\ outcome (select_archive w) = Ret zip.
Proof.
  destruct (main_unfold fuel w) as [_ Hev]. rewrite Hev. clear Hev.
  pose proof (keeps_archive_handler (outcome (main_body fuel w))) as Hh.
  pose proof (main_body_cases fuel w) as Hc. cbn zeta in Hc.
  revert Hh Hc. generalize (main_body fuel w) as rb. intros rb Hh Hc.
  revert Hh. generalize (match outcome rb with
                         | Throw e => [EvConsole ConsoleError "Error:" (Some e); EvExit 1]
                         | _ => []
                         end) as th. intros th Hh.
  pose proof keeps_archive_banner as Hb.
  destruct (keeps_archive_select_archive w) as [Hks Hes].
  assert (Hextract : forall zip w1,
             Forall keeps_archive (events (extract_and_report zip w1))
             /\ env (world (extract_and_report zip w1)) = env w1)
    by (intros zip w1; apply keeps_archive_extract_and_report).
  assert (Hprocess : forall fw w2,
             Forall keeps_archive (events (process_keyboards fuel fw w2))
             /\ env (world (process_keyboards fuel fw w2)) = env w2)
    by (intros fw w2; apply keeps_archive_process_keyboards).
  revert Hks Hes Hc Hextract Hprocess.
  generalize (process_keyboards fuel) as process.
  generalize extract_and_report as report.
  generalize (select_archive w) as rs.
  intros rs report process Hks Hes Hc Hextract Hprocess.
  destruct Hc as [(_ & _ & ->) | (zip & Hs & Hc)].
  { left. rewrite !Forall_app. repeat split; assumption. }
  destruct (Hextract zip (world rs)) as [Hke Hee].
  revert Hc Hke Hee. generalize (report zip (world rs)) as re. intros re Hc Hke Hee.
  destruct Hc as [(_ & _ & ->) | (fw & Hx & Hc)].
  { left. rewrite !Forall_app. repeat split; assumption. }
  destruct (Hprocess fw (world re)) as [Hkp Hep].
  revert Hc Hkp Hep. generalize (process fw (world re)) as rp. intros rp Hc Hkp Hep.
  destruct Hc as [(_ & _ & ->) | (Hp & _ & ->)].
  { left. rewrite !Forall_app. repeat split; assumption. }
  rewrite offer_delete_run, Hep, Hee, Hes.
  destruct (answer_after (env w) _) as [ms|];
    [|left; cbn [events]; rewrite !Forall_app;
      repeat split; try assumption; repeat constructor].
  cbv zeta.
  destruct (confirm_answer (env w)) as [e|[|]] eqn:Hans.
  - left. cbn [events]. rewrite !Forall_app.
    repeat split; try assumption; repeat constructor.
  - destruct (Fs.unlink zip (fs (later (Z.of_N ms) (world rp)))) as [e|fs'];
      right;
      (eexists (banner ++ events rs ++ events re ++ events rp
                  ++ [completed; ask_delete])%list, zip, _, (_ :: th));
      (split; [cbn [events]; rewrite <- !app_assoc; reflexivity|]);
      (split; [rewrite !Forall_app; repeat split; try assumption; repeat constructor|]);
      (split; [constructor; [reflexivity | exact Hh]|]);
      (split; [rewrite !in_app_iff; do 4 right; now left|]);
      (split; [rewrite !in_app_iff; do 4 right; right; now left|]);
      (split; [reflexivity | exact Hs]).
  - left. cbn [events]. rewrite !Forall_app.
    repeat split; try assumption; repeat constructor.
Qed.

Lemma unlink_place (a b t1 t2 : list Event) (u u' : Event) :
  Forall keeps_archive a -> Forall keeps_archive b ->
  is_unlink u = true -> is_unlink u' = true ->
  (a ++ u :: b = t1 ++ u' :: t2)%list ->
  a = t1 /\ u = u' /\ b = t2.
Proof.
  intros Ha Hb Hu Hu'. revert t1.
  induction Ha as [|x a Hx _ IH]; intros [|y t1] Heq; cbn [app] in Heq.
  - injection Heq as -> ->. now repeat split.
  - injection Heq as -> Heq. exfalso.
    assert (Hin : In u' b) by (rewrite Heq; apply in_elt).
    rewrite Forall_forall in Hb. specialize (Hb u' Hin).
    unfold keeps_archive in Hb. congruence.
  - injection Heq as -> _. unfold keeps_archive in Hx. congruence.
  - injection Heq as -> Heq. destruct (IH t1 Heq) as (-> & -> & ->).
    now repeat split.
Qed.

(** X8.  The archive is deleted only when the operator confirms.
    Without a confirmation [main] never calls [fs.unlinkSync].  When it
    calls it, the operator has confirmed, completion was reported and the
    question asked before, the path is that of one of the archives found
    in the folder, and this is the only such call of the run. *)
Theorem main_deletes_only_when_confirmed (fuel : nat) (w : World) :
  (confirm_answer (env w) <> inr true ->
   Forall keeps_archive (events (main fuel w)))
  /\ (forall t1 p ok t2,
        events (main fuel w) = (t1 ++ EvFs (CUnlink p) ok :: t2)%list ->
        confirm_answer (env w) = inr true
        /\ In completed t1 /\ In ask_delete t1
        /\ Forall keeps_archive t1 /\ Forall keeps_archive t2
        /\ exists infos,
             outcome (getZipFiles w) = Ret infos /\ In p (map path infos)).
Proof.
  pose proof (main_unlink_cases fuel w) as Hc.
  revert Hc. generalize (events (main fuel w)) as t. intros t Hc. split.
  - intros Hno. destruct Hc as [Hk | (pre & zip & ok & post & _ & _ & _ & _ & _ & Hans & _)];
      [exact Hk | congruence].
  - intros t1 p ok t2 Ht. subst t.
    destruct Hc as [Hk | (pre & zip & ok' & post & Heq & Hpre & Hpost & Hc & Ha & Hans & Hs)].
    + exfalso. rewrite Forall_forall in Hk.
      specialize (Hk (EvFs (CUnlink p) ok) (in_elt _ _ _)). discriminate Hk.
    + symmetry in Heq.
      destruct (unlink_place pre post t1 t2 (EvFs (CUnlink zip) ok')
                  (EvFs (CUnlink p) ok) Hpre Hpost eq_refl eq_refl Heq)
        as (<- & Hu & <-).
      injection Hu as <- <-.
      repeat split; auto. now apply select_archive_offered.
Qed.

(** The whole run in which the operator agrees to delete the archive:
    the call comes after the report of completion. *)
Lemma main_deletes_only_when_confirmed_witness :
  let t := events (main 3 Sample.w_run) in
  In completed (firstn 177 t) /\ Forall keeps_archive (skipn 178 t).
Proof.
  destruct (main_deletes_only_when_confirmed 3 Sample.w_run) as [_ H].
  destruct (H (firstn 177 (events (main 3 Sample.w_run)))
              "/home/u/Downloads/Personal/b.zip" true
              (skipn 178 (events (main 3 Sample.w_run))))
    as (_ & Hc & _ & _ & Hk & _).
  - vm_compute. reflexivity.
  - split; [exact Hc | exact Hk].
Defined.

(** ** What a successful run has done *)

(** X9.  Exit status 0 means that both images were copied: a run that
    ends with status 0 has selected an archive and extracted the two
    images from it, and its trace holds a successful copy of that left
    image to the volume, after it a successful copy of that right image,
    and after that the report of completion. *)
Theorem main_success_means_copied (fuel : nat) (w : World) :
  run fuel w = Some 0%Z ->
  exists zip fw t1 t2 t3,
    outcome (select_archive w) = Ret zip
    /\ outcome (extractFirmwareFiles zip (world (select_archive w))) = Ret fw
    /\ events (main fuel w)
       = (t1 ++ image_copied (leftFirmware fw)
             :: t2 ++ image_copied (rightFirmware fw) :: t3)%list
    /\ In completed t3.
Proof.
  unfold run. destruct (main_unfold fuel w) as [Ho Hev]. rewrite Ho, Hev.
  clear Ho Hev.
  pose proof (exits_reported_main_body fuel w) as Hx.
  pose proof (main_body_cases fuel w) as Hc. cbn zeta in Hc.
  pose proof (main_body_loads fuel w) as Hl.
  revert Hx Hc Hl.
  generalize (process_keyboards fuel) as process.
  generalize extract_and_report as report.
  generalize extractFirmwareFiles as extractor.
  generalize offer_delete as offer.
  generalize (select_archive w) as rs.
  generalize (main_body fuel w) as rb.
  intros rb rs offer extractor report process Hx Hc Hl Hstatus.
  assert (Hret : outcome rb = Ret tt).
  { destruct (outcome rb) as [[]|e|c|] eqn:Hrb; try discriminate Hstatus.
    - reflexivity.
    - destruct (Hx c eq_refl) as (-> & _). discriminate Hstatus. }
  rewrite Hret. rewrite app_nil_r. clear Hstatus Hx.
  assert (Hin : In completed (events rb)).
  { destruct Hc as [(Hno & _) | (zip & _ & Hc)]; [now destruct (Hno tt)|].
    destruct Hc as [(Hno & _) | (fw & _ & Hc)]; [now destruct (Hno tt)|].
    destruct Hc as [(Hno & _) | (_ & _ & ->)]; [now destruct (Hno tt)|].
    rewrite !in_app_iff. do 4 right. now left. }
  destruct (Hl Hin)
    as (zip & fw & Hzip & Hfw & t0 & t1 & t2 & t3 & t4 & t5 & -> & _).
  exists zip, fw, (t0 ++ detected Left :: t1)%list,
    (t2 ++ detected Right :: t3)%list, (t4 ++ completed :: t5)%list.
  split; [exact Hzip|]. split; [exact Hfw|]. split.
  - repeat (progress (rewrite <- ?app_assoc; cbn [app])). reflexivity.
  - apply in_or_app. right. now left.
Qed.

(** The whole run of the sample: status 0; the images extracted from
    the newer archive are copied, the left one and then the right one.
    A run with an archive in which the left image is a folder: status 0
    as well, and the folder is on the volume with the file it holds. *)
Lemma main_success_means_copied_witness :
  (exists t1 t2 t3,
     events (main 3 Sample.w_run)
     = (t1 ++ image_copied "/tmp/keyboard-firmware-100000/sofle_left-nice_nano_v2.uf2"
           :: t2 ++ image_copied "/tmp/keyboard-firmware-100000/sofle_right-nice_nano_v2.uf2"
           :: t3)%list
     /\ In completed t3)
  /\ (exists t1 t2 t3,
        events (main 3 Sample.w_folder)
        = (t1 ++ image_copied "/tmp/keyboard-firmware-100000/sofle_left_x.uf2"
              :: t2 ++ image_copied "/tmp/keyboard-firmware-100000/sofle_right_x.uf2"
              :: t3)%list
        /\ In completed t3
        /\ file_content "/Volumes/NICENANO/sofle_left_x.uf2/inner.bin"
             (fs (world (main 3 Sample.w_folder)))
           = Some Sample.left_image).
Proof.
  split.
  - destruct (main_success_means_copied 3 Sample.w_run)
      as (zip & fw & t1 & t2 & t3 & Hzip & Hfw & Hev & Hin).
    + vm_compute. reflexivity.
    + assert (Hz : outcome (select_archive Sample.w_run)
                   = Ret "/home/u/Downloads/Personal/b.zip")
        by (vm_compute; reflexivity).
      rewrite Hz in Hzip. injection Hzip as <-.
      assert (Hf : outcome (extractFirmwareFiles "/home/u/Downloads/Personal/b.zip"
                              (world (select_archive Sample.w_run)))
                   = Ret (mkFirmware
                            "/tmp/keyboard-firmware-100000/sofle_left-nice_nano_v2.uf2"
                            "/tmp/keyboard-firmware-100000/sofle_right-nice_nano_v2.uf2"))
        by (vm_compute; reflexivity).
      rewrite Hf in Hfw. injection Hfw as <-.
      exists t1, t2, t3. split; [exact Hev | exact Hin].
  - destruct (main_success_means_copied 3 Sample.w_folder)
      as (zip & fw & t1 & t2 & t3 & Hzip & Hfw & Hev & Hin).
    + vm_compute. reflexivity.
    + assert (Hz : outcome (select_archive Sample.w_folder)
                   = Ret "/home/u/Downloads/Personal/folder.zip")
        by (vm_compute; reflexivity).
      rewrite Hz in Hzip. injection Hzip as <-.
      assert (Hf : outcome (extractFirmwareFiles "/home/u/Downloads/Personal/folder.zip"
                              (world (select_archive Sample.w_folder)))
                   = Ret (mkFirmware
                            "/tmp/keyboard-firmware-100000/sofle_left_x.uf2"
                            "/tmp/keyboard-firmware-100000/sofle_right_x.uf2"))
        by (vm_compute; reflexivity).
      rewrite Hf in Hfw. injection Hfw as <-.
      exists t1, t2, t3. split; [exact Hev|]. split; [exact Hin|].
      vm_compute. reflexivity.
Defined.

(** ** The scratch directory *)

Lemma extractFirmwareFiles_unfold (zipFilePath : string) (w : World) :
  extractFirmwareFiles zipFilePath w
  = bind (fs_ensureDir (scratch_dir w))
      (fun _ =>
         try_catch
           (extract zipFilePath (scratch_dir w) ;; find_firmware (scratch_dir w))
           (fun error => fs_remove (scratch_dir w) ;; throw error)) w.
Proof.
  unfold extractFirmwareFiles, scratch_dir.
  symmetry. etransitivity; [apply result_eta|]. reflexivity.
Qed.

Lemma keeps_scratch_search (zipFilePath d : string) :
  emits keeps_scratch (extract zipFilePath d ;; find_firmware d).
Proof.
  unfold find_firmware, fs_readdir.
  apply emits_bind; [emits_step | intros _].
  apply emits_bind; [emits_step | intros files]. cbn zeta.
  apply emits_if; [emits_step|].
  destruct (Js.find _ files); [destruct (Js.find _ files)|]; emits_step.
Qed.

Lemma extractFirmwareFiles_ends (zipFilePath : string) (w : World) :
  (exists fw, outcome (extractFirmwareFiles zipFilePath w) = Ret fw)
  \/ (exists e, outcome (extractFirmwareFiles zipFilePath w) = Throw e).
Proof.
  pose proof (extractFirmwareFiles_cases zipFilePath w) as Hc. cbn zeta in Hc.
  revert Hc. generalize (extractFirmwareFiles zipFilePath w) as r. intros r Hc.
  destruct (Fs.ensureDir _ _ _) as [e|fs1]; [right; exists e; apply Hc|].
  destruct (Fs.extract _ _ _ _ _) as [[e|] fs2]; [right; exists e; apply Hc|].
  destruct (Fs.readdir _ fs2) as [e|files]; [right; exists e; apply Hc|].
  destruct (Js.find _ files) as [l|]; [destruct (Js.find _ files) as [rt|]|];
    [left; eexists; apply Hc | right; eexists; apply Hc | right; eexists; apply Hc].
Qed.

(** The calls of [extractFirmwareFiles], by the way it ends. *)
Lemma extractFirmwareFiles_calls (zipFilePath : string) (w : World) :
  let d := scratch_dir w in
  let r := extractFirmwareFiles zipFilePath w in
  match Fs.ensureDir (clock w) d (fs w) with
  | inl e => r = mkResult (Throw e) w [EvFs (CEnsureDir d) false]
  | inr _ =>
      exists t,
        Forall keeps_scratch t
        /\ events r
           = (EvFs (CEnsureDir d) true
                :: t ++ match outcome r with
                        | Throw _ => [EvFs (CRemove d) true]
                        | _ => []
                        end)%list
  end.
Proof.
  cbn zeta. rewrite extractFirmwareFiles_unfold.
  generalize (scratch_dir w) as d. intros d.
  unfold fs_ensureDir, fs_remove.
  destruct (Fs.ensureDir (clock w) d (fs w)) as [e|fs1] eqn:Hens.
  - apply result_ext; step_binds; rewrite fs_update_run, Hens; reflexivity.
  - destruct (keeps_scratch_search zipFilePath d (set_fs fs1 w)) as [Hk _].
    exists (events ((extract zipFilePath d ;; find_firmware d) (set_fs fs1 w))).
    split; [exact Hk|]. clear Hk.
    rewrite bind_outcome, bind_events, fs_update_run, Hens. cbn [outcome world events].
    rewrite try_catch_outcome, try_catch_events.
    generalize ((extract zipFilePath d ;; find_firmware d) (set_fs fs1 w)) as rb.
    intros rb. destruct (outcome rb) as [fw|e|c|]; reflexivity.
Qed.



Lemma extractFirmwareFiles_kept (zipFilePath : string) (w : World) (fw : Firmware) :
  outcome (extractFirmwareFiles zipFilePath w) = Ret fw ->
  Forall keeps_scratch (events (extractFirmwareFiles zipFilePath w)).
Proof.
  pose proof (extractFirmwareFiles_calls zipFilePath w) as Hc. cbn zeta in Hc.
  revert Hc. generalize (extractFirmwareFiles zipFilePath w) as r.
  generalize (scratch_dir w) as d. intros d r Hc Hret.
  destruct (Fs.ensureDir (clock w) d (fs w)) as [e|fs1].
  - subst r. discriminate Hret.
  - destruct Hc as (t & Hk & ->). rewrite Hret, app_nil_r.
    constructor; [reflexivity | exact Hk].
Qed.

(** [extract_and_report] returns or throws, and when it returns it has
    removed nothing. *)
Lemma extract_and_report_ends (zipFile : string) (w : World) :
  (exists fw,
     outcome (extract_and_report zipFile w) = Ret fw
     /\ Forall keeps_scratch (events (extract_and_report zipFile w)))
  \/ (exists e, outcome (extract_and_report zipFile w) = Throw e).
Proof.
  unfold extract_and_report, console_log.
  pose proof (extractFirmwareFiles_kept zipFile w) as Hkept.
  destruct (extractFirmwareFiles_ends zipFile w) as [(fw & Hfw) | (e & He)].
  - left. exists fw. specialize (Hkept fw Hfw). split.
    + step_binds. rewrite Hfw. step_binds. reflexivity.
    + step_binds. rewrite Hfw. step_binds. revert Hkept.
      generalize (events (extractFirmwareFiles zipFile w)) as t. intros t Hkept.
      rewrite !Forall_app. repeat split; try assumption; repeat constructor.
  - right. exists e. step_binds. rewrite He. reflexivity.
Qed.

Lemma keeps_scratch_offer_delete (zipFile : string) (w : World) :
  Forall keeps_scratch (events (offer_delete zipFile w)).
Proof.
  rewrite offer_delete_run.
  destruct (answer_after (env w) _) as [ms|]; [|repeat constructor].
  cbv zeta.
  destruct (confirm_answer (env w)) as [e|[|]]; [| destruct (Fs.unlink _ _) |];
    repeat constructor.
Qed.

Lemma not_removed (t : list Event) (p : string) (ok : bool) :
  Forall keeps_scratch t -> ~ In (EvFs (CRemove p) ok) t.
Proof.
  intros Hk Hin. rewrite Forall_forall in Hk. specialize (Hk _ Hin). discriminate Hk.
Qed.

Lemma untagged_phase (t : list Event) :
  Forall (within None) t -> Forall (fun e => phase_of e = None) t.
Proof.
  apply Forall_impl. intros e [[He|He] _]; exact He.
Qed.

Lemma extract_and_report_throws (zipFile : string) (w : World) (e : Error) :
  outcome (extract_and_report zipFile w) = Throw e ->
  outcome (extractFirmwareFiles zipFile w) = Throw e.
Proof.
  unfold extract_and_report, console_log. rewrite bind_emit. cbn [outcome].
  rewrite bind_outcome.
  generalize (extractFirmwareFiles zipFile w) as r. intros r.
  destruct (outcome r) as [a|e'|c|]; try discriminate. congruence.
Qed.

(** What [extract_and_report] removes is the scratch directory. *)
Lemma extract_and_report_removes (zipFile : string) (w : World)
    (p : string) (ok : bool) :
  In (EvFs (CRemove p) ok) (events (extract_and_report zipFile w)) ->
  p = scratch_dir w /\ ok = true.
Proof.
  unfold extract_and_report, console_log. rewrite bind_emit. cbn [events].
  rewrite bind_events.
  pose proof (extractFirmwareFiles_calls zipFile w) as Hc. cbn zeta in Hc.
  revert Hc. generalize (extractFirmwareFiles zipFile w) as r.
  generalize (scratch_dir w) as d. intros d r Hc.
  assert (Hr : In (EvFs (CRemove p) ok) (events r) -> p = d /\ ok = true).
  { destruct (Fs.ensureDir (clock w) d (fs w)) as [e|fs1].
    - subst r. intros [H|[]]. discriminate H.
    - destruct Hc as (t & Hk & ->). intros [H|H]; [discriminate H|].
      apply in_app_or in H as [H|H]; [now apply not_removed in H|].
      destruct (outcome r); [destruct H | | destruct H | destruct H].
      destruct H as [H|[]]. injection H as <- <-. now split. }
  intros [H|H]; [discriminate H|].
  apply in_app_or in H as [H|H]; [now apply Hr|].
  exfalso. destruct (outcome r) as [fw|e|c|]; [|destruct H..].
  rewrite !bind_emit in H. cbn [events ret] in H.
  destruct H as [H|[H|[H|[]]]]; discriminate H.
Qed.

(** X11.  The scratch directory is removed only by a run whose
    extraction failed: when the trace of a run holds a call of
    [fs.remove], the run has selected an archive, the extraction of the
    images from it has thrown, the call removes the scratch directory of
    that extraction and succeeds, the run ends with status 1, and it
    holds no step of either keyboard half. *)
Theorem main_removes_scratch_only_on_failed_extraction
    (fuel : nat) (w : World) (p : string) (ok : bool) :
  In (EvFs (CRemove p) ok) (events (main fuel w)) ->
  (exists zip e,
     outcome (select_archive w) = Ret zip
     /\ outcome (extractFirmwareFiles zip (world (select_archive w))) = Throw e
     /\ p = scratch_dir (world (select_archive w))
     /\ ok = true)
  /\ run fuel w = Some 1%Z
  /\ Forall (fun e => phase_of e = None) (events (main fuel w)).
Proof.
  unfold run. destruct (main_unfold fuel w) as [Ho Hev]. rewrite Ho, Hev.
  clear Ho Hev.
  pose proof (exits_reported_main_body fuel w) as Hx.
  pose proof (main_body_cases fuel w) as Hc. cbn zeta in Hc.
  assert (Hsk : Forall keeps_scratch (events (select_archive w)))
    by (apply (other_calls_select_archive keeps_scratch); intros e _ He; exact He).
  assert (Hsu : Forall (fun e => phase_of e = None) (events (select_archive w)))
    by (apply untagged_phase, select_archive_within).
  assert (Hreport : forall zip w1,
             ((exists fw, outcome (extract_and_report zip w1) = Ret fw
                          /\ Forall keeps_scratch (events (extract_and_report zip w1)))
              \/ (exists e, outcome (extract_and_report zip w1) = Throw e
                            /\ outcome (extractFirmwareFiles zip w1) = Throw e))
             /\ Forall (fun e => phase_of e = None)
                  (events (extract_and_report zip w1))
             /\ (In (EvFs (CRemove p) ok) (events (extract_and_report zip w1)) ->
                 p = scratch_dir w1 /\ ok = true)).
  { intros zip w1. split; [|split].
    - destruct (extract_and_report_ends zip w1) as [H | (e & He)]; [now left|].
      right. exists e. split; [exact He|]. now apply extract_and_report_throws.
    - apply untagged_phase, extract_and_report_within.
    - apply extract_and_report_removes. }
  assert (Hprocess : forall fw w2,
             Forall keeps_scratch (events (process_keyboards fuel fw w2))).
  { intros fw w2. apply (other_calls_process_keyboards keeps_scratch).
    intros e _ He. exact He. }
  pose proof keeps_scratch_offer_delete as Hoffer.
  revert Hx Hc Hsk Hsu Hreport Hprocess Hoffer.
  generalize (process_keyboards fuel) as process.
  generalize extract_and_report as report.
  generalize extractFirmwareFiles as extractor.
  generalize offer_delete as offer.
  generalize (select_archive w) as rs.
  generalize (main_body fuel w) as rb.
  intros rb rs offer extractor report process Hx Hc Hsk Hsu Hreport Hprocess Hoffer.
  assert (Hbk : Forall keeps_scratch banner) by (repeat constructor).
  assert (Hbu : Forall (fun e => phase_of e = None) banner) by (repeat constructor).
  assert (Hhk : Forall keeps_scratch
                  match outcome rb with
                  | Throw e => [EvConsole ConsoleError "Error:" (Some e); EvExit 1]
                  | _ => []
                  end) by (destruct (outcome rb); repeat constructor).
  assert (Hhu : Forall (fun e => phase_of e = None)
                  match outcome rb with
                  | Throw e => [EvConsole ConsoleError "Error:" (Some e); EvExit 1]
                  | _ => []
                  end) by (destruct (outcome rb); repeat constructor).
  revert Hhk Hhu.
  generalize (match outcome rb with
              | Throw e => [EvConsole ConsoleError "Error:" (Some e); EvExit 1]
              | _ => []
              end) as th.
  intros th Hhk Hhu Hin.
  destruct Hc as [(_ & _ & Hev) | (zip & Hzip & Hc)].
  { exfalso. rewrite Hev in Hin. revert Hin. apply not_removed.
    rewrite !Forall_app. repeat split; assumption. }
  destruct (Hreport zip (world rs)) as (Hends & Hru & Hrm).
  revert Hc Hends Hru Hrm. generalize (report zip (world rs)) as re.
  intros re Hc Hends Hru Hrm.
  destruct Hc as [(Hno & Hst & Hev) | (fw & Hret & Hc)].
  - destruct Hends as [(fw & Hret & _) | (e & He & Hthrow)].
    + exfalso. rewrite Hret in Hst. cbn [exit_status] in Hst.
      destruct (outcome rb) as [b|e|c|] eqn:Hrb; try discriminate Hst.
      * now destruct (Hno b).
      * destruct (Hx c eq_refl) as (-> & _). discriminate Hst.
    + rewrite He in Hst. cbn [exit_status] in Hst. split; [|split].
      * exists zip, e. split; [exact Hzip|]. split; [exact Hthrow|].
        apply Hrm. rewrite Hev in Hin.
        apply in_app_or in Hin as [Hin|Hin];
          [|now apply (not_removed _ _ _ Hhk) in Hin].
        apply in_app_or in Hin as [Hin|Hin];
          [now apply (not_removed _ _ _ Hbk) in Hin|].
        apply in_app_or in Hin as [Hin|Hin];
          [now apply (not_removed _ _ _ Hsk) in Hin | exact Hin].
      * destruct (outcome rb) as [b|e'|c|] eqn:Hrb; try discriminate Hst;
          [reflexivity | exact Hst].
      * rewrite Hev, !Forall_app. repeat split; assumption.
  - exfalso. destruct Hends as [(fw' & _ & Hrk) | (e & He & _)]; [|congruence].
    specialize (Hprocess fw (world re)). revert Hc Hprocess.
    generalize (process fw (world re)) as rp. intros rp Hc Hprocess.
    destruct Hc as [(_ & _ & Hev) | (_ & _ & Hev)];
      rewrite Hev in Hin; revert Hin; apply not_removed;
      rewrite !Forall_app; repeat split; try assumption.
    constructor; [reflexivity | apply Hoffer].
Qed.

(** An archive that holds the left image only: the scratch directory is
    removed, the run ends with status 1 and no keyboard was waited for. *)
Lemma main_removes_scratch_only_on_failed_extraction_witness :
  In (EvFs (CRemove "/tmp/keyboard-firmware-100000") true)
    (events (main 3 Sample.w_left_only))
  /\ outcome (extractFirmwareFiles "/home/u/Downloads/Personal/left.zip"
                (world (select_archive Sample.w_left_only)))
     = Throw not_found
  /\ run 3 Sample.w_left_only = Some 1%Z
  /\ Forall (fun e => phase_of e = None) (events (main 3 Sample.w_left_only)).
Proof.
  assert (Hin : In (EvFs (CRemove "/tmp/keyboard-firmware-100000") true)
                  (events (main 3 Sample.w_left_only)))
    by (vm_compute; tauto).
  split; [exact Hin|].
  destruct (main_removes_scratch_only_on_failed_extraction 3 Sample.w_left_only
              "/tmp/keyboard-firmware-100000" true Hin)
    as ((zip & e & Hzip & _ & _) & Hrun & Hun).
  split; [vm_compute; reflexivity|]. split; [exact Hrun | exact Hun].
Defined.

(** ** Retries in a world that nothing else changes *)

Lemma quiet_bar_loop (stepSize stepTimeMs : Z) (status : string) (fuel : nat) :
  forall (i : Z) (w : World),
    quiet (env w) ->
    fs (world (bar_loop fuel i stepSize stepTimeMs status w)) = fs w
    /\ env (world (bar_loop fuel i stepSize stepTimeMs status w)) = env w.
Proof.
  induction fuel as [|fuel IH]; intros i w Hq; cbn [bar_loop]; [now split|].
  destruct (i <=? 100)%Z; [|now split].
  rewrite bind_emit. cbn [world].
  assert (Hb : forall k : unit -> M unit,
             world (bind (sleep stepTimeMs) k w)
             = world (k tt (world (sleep stepTimeMs w)))) by reflexivity.
  rewrite Hb. clear Hb.
  destruct (IH (i + stepSize)%Z (world (sleep stepTimeMs w))) as [Hfs Henv];
    [exact Hq|].
  rewrite Hfs, Henv. cbn [sleep world fs env]. split; [apply Hq | reflexivity].
Qed.

Lemma quiet_animateProgressBar (durationMs : Z) (status : string) (steps : Z)
    (w : World) :
  quiet (env w) -> (0 < 100 / steps)%Z ->
  fs (world (animateProgressBar durationMs status steps w)) = fs w
  /\ env (world (animateProgressBar durationMs status steps w)) = env w.
Proof.
  intros Hq Hsteps. unfold animateProgressBar.
  destruct (bar_loop_run (100 / steps) (durationMs / steps) status Hsteps
              102 0%Z w) as (Ho & _ & _); [simpl; lia|].
  destruct (quiet_bar_loop (100 / steps) (durationMs / steps) status 102 0%Z w Hq)
    as [Hfs Henv].
  cbn zeta in *. step_binds. rewrite Ho. step_binds. split; assumption.
Qed.

Lemma quiet_checked_world (side : Side) (w : World) :
  quiet (env w) ->
  fs (checked_world side w) = fs w /\ env (checked_world side w) = env w.
Proof.
  intros Hq. unfold checked_world, prepare_copy, console_log. step_binds.
  now apply quiet_animateProgressBar.
Qed.

Lemma quiet_retry_notice (side : Side) (retries : Z) (w : World) :
  quiet (env w) ->
  fs (world (retry_notice side retries w)) = fs w
  /\ env (world (retry_notice side retries w)) = env w.
Proof.
  intros Hq. unfold retry_notice, console_warn. step_binds.
  now apply quiet_animateProgressBar.
Qed.

(** The copy does not look at timestamps. *)
Lemma alike_refl (n : Fs.Node) : alike n n.
Proof. repeat split. Qed.

Lemma alike_fs_refl (fs : Fs.t) : alike_fs fs fs.
Proof.
  induction fs as [|a fs IH]; constructor; [|exact IH].
  split; [reflexivity | apply alike_refl].
Qed.

Lemma alike_lookup (p : string) (fs fs' : Fs.t) :
  alike_fs fs fs' ->
  match Fs.lookup p fs, Fs.lookup p fs' with
  | Some n, Some m => alike n m
  | None, None => True
  | _, _ => False
  end.
Proof.
  induction 1 as [|[q n] [q' m] fs fs' [Hq Hn] _ IH]; cbn [Fs.lookup]; [exact I|].
  cbn [fst snd] in Hq, Hn. subst q'.
  destruct (String.eqb q p); [exact Hn | exact IH].
Qed.

Lemma alike_write (p : string) (n m : Fs.Node) (fs fs' : Fs.t) :
  alike n m -> alike_fs fs fs' -> alike_fs (Fs.write p n fs) (Fs.write p m fs').
Proof.
  intros Hnm. induction 1 as [|[q a] [q' b] fs fs' [Hq Hab] Hrest IH];
    cbn [Fs.write].
  - constructor; [now split | constructor].
  - cbn [fst snd] in Hq, Hab. subst q'. destruct (String.eqb q p).
    + constructor; [now split | exact Hrest].
    + constructor; [now split | exact IH].
Qed.

Lemma alike_writable_dir (d : string) (fs fs' : Fs.t) :
  alike_fs fs fs' -> Fs.writable_dir d fs = Fs.writable_dir d fs'.
Proof.
  intros H. pose proof (alike_lookup d fs fs' H) as Hl.
  unfold Fs.writable_dir, Fs.resolve, Fs.is_link, Fs.is_dir.
  destruct (Fs.lookup d fs) as [[k t r wr]|],
    (Fs.lookup d fs') as [[k' t' r' wr']|];
    try contradiction; [|reflexivity].
  destruct Hl as (Hk & _ & Hw). cbn [Fs.kind Fs.writable] in Hk, Hw. subst k' wr'.
  cbn [Fs.kind Fs.writable]. destruct k; reflexivity.
Qed.

Lemma alike_put_file (n1 n2 : Z) (src dest : string) (n : Fs.Node)
    (content : list Byte.byte) (fs fs' : Fs.t) :
  alike_fs fs fs' ->
  alike_result (Fs.put_file n1 src dest n content fs)
    (Fs.put_file n2 src dest n content fs').
Proof.
  intros H. unfold Fs.put_file.
  destruct (negb (Fs.readable n)); [reflexivity|].
  destruct (String.eqb src dest); [reflexivity|].
  pose proof (alike_lookup dest fs fs' H) as Hl.
  rewrite (alike_writable_dir (Fs.dirname dest) fs fs' H).
  assert (Hw : alike_result
                 match Fs.writable_dir (Fs.dirname dest) fs' with
                 | inl e => inl e
                 | inr _ =>
                     inr (Fs.write dest
                            (Fs.mkNode (Fs.KFile content) n1 true (Fs.writable n)) fs)
                 end
                 match Fs.writable_dir (Fs.dirname dest) fs' with
                 | inl e => inl e
                 | inr _ =>
                     inr (Fs.write dest
                            (Fs.mkNode (Fs.KFile content) n2 true (Fs.writable n)) fs')
                 end).
  { destruct (Fs.writable_dir (Fs.dirname dest) fs'); [reflexivity|].
    apply alike_write; [repeat split | exact H]. }
  destruct (Fs.lookup dest fs) as [[k t r wr]|],
    (Fs.lookup dest fs') as [[k' t' r' wr']|]; try contradiction; [|exact Hw].
  destruct Hl as (Hk & _). cbn [Fs.kind] in Hk. subst k'.
  destruct k; [exact Hw | reflexivity | exact Hw].
Qed.

Lemma alike_put_link (n1 n2 : Z) (src dest : string) (fs fs' : Fs.t) :
  alike_fs fs fs' ->
  alike_result (Fs.put_link n1 src dest fs) (Fs.put_link n2 src dest fs').
Proof.
  intros H. unfold Fs.put_link.
  destruct (String.eqb src dest); [reflexivity|].
  pose proof (alike_lookup dest fs fs' H) as Hl.
  rewrite (alike_writable_dir (Fs.dirname dest) fs fs' H).
  assert (Hw : alike_result
                 match Fs.writable_dir (Fs.dirname dest) fs' with
                 | inl e => inl e
                 | inr _ => inr (Fs.write dest (Fs.mkNode Fs.KLink n1 true true) fs)
                 end
                 match Fs.writable_dir (Fs.dirname dest) fs' with
                 | inl e => inl e
                 | inr _ => inr (Fs.write dest (Fs.mkNode Fs.KLink n2 true true) fs')
                 end).
  { destruct (Fs.writable_dir (Fs.dirname dest) fs'); [reflexivity|].
    apply alike_write; [repeat split | exact H]. }
  destruct (Fs.lookup dest fs) as [[k t r wr]|],
    (Fs.lookup dest fs') as [[k' t' r' wr']|]; try contradiction; [|exact Hw].
  destruct Hl as (Hk & _). cbn [Fs.kind] in Hk. subst k'.
  destruct k; [reflexivity | reflexivity | exact Hw].
Qed.

Lemma alike_put_dir (n1 n2 : Z) (src dest : string) (n : Fs.Node)
    (fs fs' : Fs.t) :
  alike_fs fs fs' ->
  alike_result (Fs.put_dir n1 src dest n fs) (Fs.put_dir n2 src dest n fs').
Proof.
  intros H. unfold Fs.put_dir.
  destruct (negb (Fs.readable n)); [reflexivity|].
  pose proof (alike_lookup dest fs fs' H) as Hl.
  rewrite (alike_writable_dir (Fs.dirname dest) fs fs' H).
  destruct (Fs.lookup dest fs) as [a|], (Fs.lookup dest fs') as [b|];
    try contradiction.
  - destruct Hl as (Hk & _). unfold Fs.is_dir. rewrite Hk.
    destruct (Fs.kind b); [reflexivity | exact H | reflexivity].
  - destruct (Fs.writable_dir (Fs.dirname dest) fs') as [[c sc pc|msg]|u];
      [reflexivity | reflexivity |].
    apply alike_write; [repeat split | exact H].
Qed.

Lemma alike_put_all (n1 n2 : Z) (src dest : string) (items : Fs.t) :
  forall fs fs',
    alike_fs fs fs' ->
    alike_result (Fs.put_all n1 src dest items fs)
      (Fs.put_all n2 src dest items fs').
Proof.
  induction items as [|[p n] items IH]; intros fs fs' H; cbn [Fs.put_all];
    [exact H|].
  destruct (Fs.moved src dest p) as [q|]; [|now apply IH].
  assert (Hput : alike_result (Fs.put n1 p q n fs) (Fs.put n2 p q n fs')).
  { unfold Fs.put. destruct (Fs.kind n).
    - now apply alike_put_file.
    - now apply alike_put_dir.
    - now apply alike_put_link. }
  destruct (Fs.put n1 p q n fs) as [e|a], (Fs.put n2 p q n fs') as [e'|b];
    try contradiction; [exact Hput | now apply IH].
Qed.

Lemma copy_any_time (n1 n2 : Z) (src dest : string) (fs : Fs.t) :
  alike_result (Fs.copy n1 src dest fs) (Fs.copy n2 src dest fs).
Proof.
  unfold Fs.copy. pose proof (alike_fs_refl fs) as H.
  destruct (Fs.lookup src fs) as [n|]; [|reflexivity].
  destruct (Fs.kind n) as [content| |].
  - now apply alike_put_file.
  - destruct (String.eqb src dest); [reflexivity|].
    destruct (Fs.below src dest); [reflexivity|].
    now apply alike_put_all.
  - now apply alike_put_link.
Qed.

Lemma copy_error_any_time (n1 n2 : Z) (src dest : string) (fs : Fs.t) (e : Error) :
  Fs.copy n1 src dest fs = inl e -> Fs.copy n2 src dest fs = inl e.
Proof.
  intros Hc. pose proof (copy_any_time n1 n2 src dest fs) as H.
  rewrite Hc in H. destruct (Fs.copy n2 src dest fs) as [e'|fs'];
    cbn [alike_result] in H; [now subst e' | contradiction].
Qed.

Lemma failed_attempt_world (firmwarePath : string) (side : Side) (w : World)
    (e : Error) :
  outcome (copy_attempt firmwarePath side w) = Throw e ->
  world (copy_attempt firmwarePath side w) = checked_world side w.
Proof.
  destruct (copy_attempt_run firmwarePath side w) as (q & _ & Hrun).
  cbn zeta in Hrun. revert Hrun. generalize (checked_world side w) as w1.
  generalize (copy_attempt firmwarePath side w) as rc. intros rc w1 Hrun Hthrow.
  destruct (Fs.access NICENANO_VOLUME Fs.W_OK (fs w1)) as [e1|u];
    [now subst rc|].
  destruct (Fs.copy (clock w1) firmwarePath (destination firmwarePath) (fs w1))
    as [e1|fs2]; [now subst rc|].
  destruct Hrun as (q2 & _ & ->). discriminate Hthrow.
Qed.

(** In a world with the same files an attempt fails again, with the same
    error. *)
Lemma attempt_fails_again (firmwarePath : string) (side : Side) (w w' : World)
    (e : Error) :
  quiet (env w) -> fs w' = fs w -> env w' = env w ->
  outcome (copy_attempt firmwarePath side w) = Throw e ->
  outcome (copy_attempt firmwarePath side w') = Throw e.
Proof.
  intros Hq Hfs Henv. rewrite !copy_attempt_outcome.
  destruct (quiet_checked_world side w Hq) as [Hf _].
  destruct (quiet_checked_world side w') as [Hf' _]; [now rewrite Henv|].
  rewrite Hf, Hf', Hfs. clear Hf Hf'.
  generalize (clock (checked_world side w)) as n1.
  generalize (clock (checked_world side w')) as n2. intros n2 n1.
  destruct (Fs.access NICENANO_VOLUME Fs.W_OK (fs w)) as [e1|u]; [exact (fun H => H)|].
  destruct (Fs.copy n1 firmwarePath (destination firmwarePath) (fs w)) as [e1|fs2] eqn:Hc;
    [|discriminate].
  now rewrite (copy_error_any_time n1 n2 _ _ _ _ Hc).
Qed.

Lemma attempt_world_fails (firmwarePath : string) (side : Side) (e : Error)
    (i : nat) :
  forall (retries : Z) (w : World),
    quiet (env w) ->
    outcome (copy_attempt firmwarePath side w) = Throw e ->
    outcome (copy_attempt firmwarePath side
               (attempt_world firmwarePath side retries w i)) = Throw e.
Proof.
  induction i as [|i IH]; intros retries w Hq He; [exact He|].
  cbn [attempt_world].
  rewrite (failed_attempt_world firmwarePath side w e He).
  destruct (quiet_checked_world side w Hq) as [Hf1 He1].
  destruct (quiet_retry_notice side (retries + 1) (checked_world side w))
    as [Hf2 He2]; [now rewrite He1|].
  apply IH.
  - now rewrite He2, He1.
  - apply (attempt_fails_again firmwarePath side w _ e Hq);
      [now rewrite Hf2, Hf1 | now rewrite He2, He1 | exact He].
Qed.

(** X12.  Retries help only when the world changes: where nothing else
    changes the file system, a first attempt that fails is followed by
    four more that fail with the same error, and the call throws that
    error after exactly five attempts. *)
Theorem retries_need_a_changing_world
    (fuel : nat) (firmwarePath : string) (side : Side) (w : World) (e : Error) :
  quiet (env w) ->
  (5 <= fuel)%nat ->
  outcome (copy_attempt firmwarePath side w) = Throw e ->
  let r := copyFirmwareToKeyboard fuel firmwarePath side w in
  outcome r = Throw e /\ attempts side (events r) = 5%nat.
Proof.
  intros Hq Hfuel He. unfold copyFirmwareToKeyboard.
  destruct (copy_loop_exhausted firmwarePath side 4 fuel 0%Z w (fun _ => e))
    as (Ho & Ha & _); [lia | reflexivity | lia | |].
  - intros i _. now apply attempt_world_fails.
  - cbn zeta in *. split; [exact Ho | exact Ha].
Qed.

(** The volume that stays read-only: five attempts, the error of the
    first. *)
Lemma retries_need_a_changing_world_witness :
  let r := copyFirmwareToKeyboard 5 Sample.firmwarePath Left Sample.w_locked in
  outcome r = Throw (Fs.SystemError Fs.EACCES "access" "/Volumes/NICENANO")
  /\ attempts Left (events r) = 5%nat.
Proof.
  apply (retries_need_a_changing_world 5 Sample.firmwarePath Left Sample.w_locked).
  - intros now fs. reflexivity.
  - lia.
  - vm_compute. reflexivity.
Defined.

(** ** Where a run can wait forever *)

Lemma wait_loop_hangs (side : Side) (fuel : nat) :
  forall w : World,
    outcome (wait_loop fuel side w) = OutOfFuel ->
    forall j, (j < fuel)%nat -> observation w j = false.
Proof.
  induction fuel as [|fuel IH]; intros w Hout j Hj; [lia|].
  rewrite wait_loop_step in Hout.
  destruct (ready (fs w)) eqn:Hready; [discriminate Hout|].
  cbn zeta in Hout. cbn [outcome] in Hout.
  destruct j as [|j]; [exact Hready|].
  rewrite observation_succ. apply (IH _ Hout). lia.
Qed.

Lemma waitForBootloaderMode_hangs (fuel : nat) (side : Side) (w : World) :
  outcome (waitForBootloaderMode fuel side w) = OutOfFuel ->
  forall j, (j < fuel)%nat -> observation w j = false.
Proof.
  rewrite waitForBootloaderMode_run. cbn zeta. cbn [outcome].
  apply wait_loop_hangs.
Qed.

(** [select_archive] ends, unless the operator never selects. *)
Lemma select_archive_pending (w : World) :
  exit_status (outcome (select_archive w)) = None ->
  exists t,
    events (select_archive w) = (t ++ [EvPrompt "Select the firmware zip file:"])%list
    /\ answer_after (env w) "Select the firmware zip file:" = None.
Proof.
  unfold select_archive. destruct (getZipFiles_cases w) as [Hw Hc].
  assert (Ho : exists l, outcome (getZipFiles w) = Ret l).
  { destruct (Fs.readdir _ _) as [e|files]; [now exists []|].
    destruct Hc as [(infos & Ho & _) | (Ho & _)]; eexists; exact Ho. }
  clear Hc. destruct Ho as [l Ho]. rewrite bind_outcome, bind_events, Ho, Hw.
  generalize (events (getZipFiles w)) as t0. intros t0.
  rewrite bind_outcome, bind_events.
  destruct (Nat.eqb (List.length l) 0); [discriminate|].
  cbn [ret outcome world events app]. unfold prompt_list.
  destruct (answer_after (env w) _) as [ms|].
  - cbv zeta. destruct (select_answer (env w) _) as [e|i]; [discriminate|].
    destruct (nth_error _ i) as [[label value]|]; discriminate.
  - intros _. exists t0. split; reflexivity.
Qed.

(** The offer to delete the archive ends, unless the operator never
    answers. *)
Lemma offer_delete_pending (zipFile : string) (w : World) :
  exit_status (outcome (offer_delete zipFile w)) = None ->
  events (offer_delete zipFile w) = [ask_delete]
  /\ answer_after (env w) "Do you want to delete the firmware zip file?" = None.
Proof.
  rewrite offer_delete_run.
  destruct (answer_after (env w) _) as [ms|]; [|now split].
  cbv zeta.
  destruct (confirm_answer (env w)) as [e|[|]];
    [| destruct (Fs.unlink _ _) |]; discriminate.
Qed.

Lemma process_keyboards_hangs (fuel : nat) (fw : Firmware) (w : World) :
  (5 <= fuel)%nat ->
  outcome (process_keyboards fuel fw w) = OutOfFuel ->
  exists side w' t,
    events (process_keyboards fuel fw w)
    = (t ++ events (waitForBootloaderMode fuel side w'))%list
    /\ outcome (waitForBootloaderMode fuel side w') = OutOfFuel.
Proof.
  intros Hfuel. unfold process_keyboards, copyFirmwareToKeyboard.
  assert (Hcopy : forall p side w1,
             outcome (copy_loop fuel p side 0 w1) <> OutOfFuel).
  { intros p side w1 Hout.
    destruct (copy_loop_ends p side fuel 0%Z w1) as [Ho|[e Ho]];
      try (unfold maxRetries; simpl; lia); congruence. }
  rewrite bind_outcome, bind_events.
  destruct (outcome (waitForBootloaderMode fuel Left w)) as [[]|e|c|] eqn:Hwl;
    try discriminate;
    [|intros _; exists Left, w, []; rewrite app_nil_r; split; [reflexivity | exact Hwl]].
  clear Hwl. generalize (events (waitForBootloaderMode fuel Left w)) as ta.
  generalize (world (waitForBootloaderMode fuel Left w)) as w1. intros w1 ta.
  rewrite bind_outcome, bind_events. specialize (Hcopy (leftFirmware fw) Left w1) as Hl.
  destruct (outcome (copy_loop fuel (leftFirmware fw) Left 0 w1)) as [[]|e|c|];
    try discriminate; [|congruence].
  clear Hl. generalize (events (copy_loop fuel (leftFirmware fw) Left 0 w1)) as tb.
  generalize (world (copy_loop fuel (leftFirmware fw) Left 0 w1)) as w2. intros w2 tb.
  rewrite bind_outcome, bind_events.
  destruct (outcome (waitForBootloaderMode fuel Right w2)) as [[]|e|c|] eqn:Hwr;
    try discriminate.
  - intros Hout. now destruct (Hcopy (rightFirmware fw) Right _ Hout).
  - intros _. exists Right, w2, (ta ++ tb)%list.
    rewrite app_nil_r, <- app_assoc. split; [reflexivity | exact Hwr].
Qed.

(** X13.  A run can wait forever only for a keyboard or for the
    operator: when a run of [main], with fuel for the five attempts of a
    copy, has not ended when the fuel is used up, then either its trace
    ends with that of a call of [waitForBootloaderMode] that has not
    returned, and the volume was not ready at any of the observations
    made there; or its trace ends with a question that the operator
    never answers. *)
Theorem main_hangs_only_waiting (fuel : nat) (w : World) :
  (5 <= fuel)%nat ->
  run fuel w = None ->
  (exists side w' t,
     events (main fuel w) = (t ++ events (waitForBootloaderMode fuel side w'))%list
     /\ outcome (waitForBootloaderMode fuel side w') = OutOfFuel
     /\ forall j, (j < fuel)%nat -> observation w' j = false)
  \/ (exists message t,
        events (main fuel w) = (t ++ [EvPrompt message])%list
        /\ answer_after (env w) message = None).
Proof.
  intros Hfuel. unfold run. destruct (main_unfold fuel w) as [Ho Hev].
  rewrite Ho, Hev. clear Ho Hev.
  pose proof (main_body_cases fuel w) as Hc. cbn zeta in Hc.
  pose proof (select_archive_pending w) as Hs.
  destruct (select_archive_within w) as [_ Hes].
  assert (Hreport : forall zip w1,
             exit_status (outcome (extract_and_report zip w1)) <> None
             /\ env (world (extract_and_report zip w1)) = env w1).
  { intros zip w1. split; [|apply (extract_and_report_within zip w1)].
    destruct (extract_and_report_ends zip w1) as [(fw & -> & _) | (e & ->)];
      discriminate. }
  assert (Hoffer : forall zip w3,
             exit_status (outcome (offer_delete zip w3)) = None ->
             events (offer_delete zip w3) = [ask_delete]
             /\ answer_after (env w3) "Do you want to delete the firmware zip file?"
                = None)
    by (intros zip w3; apply offer_delete_pending).
  assert (Hprocess : forall fw w2,
             (exit_status (outcome (process_keyboards fuel fw w2)) = None ->
              exists side w' t,
                events (process_keyboards fuel fw w2)
                = (t ++ events (waitForBootloaderMode fuel side w'))%list
                /\ outcome (waitForBootloaderMode fuel side w') = OutOfFuel)
             /\ env (world (process_keyboards fuel fw w2)) = env w2).
  { intros fw w2. split.
    - intros Hnone. apply (process_keyboards_hangs fuel fw w2 Hfuel).
      destruct (outcome (process_keyboards fuel fw w2)); try discriminate Hnone.
      reflexivity.
    - now destruct (process_keyboards_steps fuel fw w2) as (_ & _ & He & _). }
  assert (Hwait : forall side w',
             outcome (waitForBootloaderMode fuel side w') = OutOfFuel ->
             forall j, (j < fuel)%nat -> observation w' j = false)
    by (intros side w'; apply waitForBootloaderMode_hangs).
  revert Hc Hs Hes Hreport Hoffer Hprocess Hwait.
  generalize (waitForBootloaderMode fuel) as wait.
  generalize (process_keyboards fuel) as process.
  generalize extract_and_report as report.
  generalize offer_delete as offer.
  generalize (select_archive w) as rs.
  generalize (main_body fuel w) as rb.
  intros rb rs offer report process wait Hc Hs Hes Hreport Hoffer Hprocess Hwait Hnone.
  assert (Hrb : outcome rb = OutOfFuel).
  { destruct (outcome rb); try discriminate Hnone. reflexivity. }
  clear Hnone. rewrite Hrb in *. rewrite app_nil_r. cbn [exit_status] in Hc.
  destruct Hc as [(_ & Hst & Hev) | (zip & _ & Hc)].
  { right. destruct (Hs (eq_sym Hst)) as (t & Ht & Hans).
    exists "Select the firmware zip file:", (banner ++ t)%list.
    split; [|exact Hans]. rewrite Hev, Ht, <- app_assoc. reflexivity. }
  destruct (Hreport zip (world rs)) as [Hre Hee].
  destruct Hc as [(_ & Hst & _) | (fw & _ & Hc)]; [now destruct Hre|].
  destruct (Hprocess fw (world (report zip (world rs)))) as [Hph Hep].
  destruct Hc as [(_ & Hst & Hev) | (_ & Hst & Hev)].
  - left. destruct (Hph (eq_sym Hst)) as (side & w' & t & Ht & Hw).
    exists side, w', (banner ++ events rs ++ events (report zip (world rs)) ++ t)%list.
    split; [|split; [exact Hw | now apply (Hwait side)]].
    rewrite Hev, Ht, <- !app_assoc. reflexivity.
  - right.
    destruct (Hoffer zip (world (process fw (world (report zip (world rs))))))
      as [Hd Hans]; [now rewrite <- Hst|].
    exists "Do you want to delete the firmware zip file?",
      (banner ++ events rs ++ events (report zip (world rs))
         ++ events (process fw (world (report zip (world rs)))) ++ [completed])%list.
    split.
    + rewrite Hev, Hd. repeat (progress (rewrite <- ?app_assoc; cbn [app])).
      reflexivity.
    + rewrite <- Hes, <- Hee, <- Hep. exact Hans.
Qed.

(** The volume never shows up: the run is still waiting for the left
    half when the fuel is used up.  The operator does not answer the
    question about the archive: the run waits there. *)
Lemma main_hangs_only_waiting_witness :
  (exists side w' t,
     events (main 5 Sample.w_downloads)
     = (t ++ events (waitForBootloaderMode 5 side w'))%list
     /\ outcome (waitForBootloaderMode 5 side w') = OutOfFuel
     /\ forall j, (j < 5)%nat -> observation w' j = false)
  /\ (last (events (main 5 Sample.w_silent)) completed = ask_delete
      /\ ((exists side w' t,
             events (main 5 Sample.w_silent)
             = (t ++ events (waitForBootloaderMode 5 side w'))%list
             /\ outcome (waitForBootloaderMode 5 side w') = OutOfFuel
             /\ forall j, (j < 5)%nat -> observation w' j = false)
          \/ (exists message t,
                events (main 5 Sample.w_silent) = (t ++ [EvPrompt message])%list
                /\ answer_after (env Sample.w_silent) message = None))).
Proof.
  split; [|split].
  - destruct (main_hangs_only_waiting 5 Sample.w_downloads) as [H | (m & t & Ht & Hm)];
      [lia | vm_compute; reflexivity | exact H |].
    exfalso. vm_compute in Hm. discriminate Hm.
  - vm_compute. reflexivity.
  - apply (main_hangs_only_waiting 5 Sample.w_silent); [lia|].
    vm_compute. reflexivity.
Defined.

(** ** Detection and the check before the copy *)

Lemma quiet_wait_loop (side : Side) (fuel : nat) :
  forall w : World,
    quiet (env w) ->
    outcome (wait_loop fuel side w) = Ret tt ->
    ready (fs w) = true
    /\ fs (world (wait_loop fuel side w)) = fs w
    /\ env (world (wait_loop fuel side w)) = env w.
Proof.
  induction fuel as [|fuel IH]; intros w Hq; [discriminate|].
  rewrite wait_loop_step.
  destruct (ready (fs w)) eqn:Hready.
  - intros _. cbn [world]. unfold after_sleep. cbn [sleep world fs env].
    split; [reflexivity|]. split; [apply Hq | reflexivity].
  - cbn zeta. cbn [outcome world]. intros Hret.
    destruct (IH (after_sleep 1000 w)) as (Hr & _); [exact Hq | exact Hret|].
    unfold after_sleep in Hr. cbn [sleep world fs] in Hr. rewrite Hq in Hr.
    congruence.
Qed.

(** X14.  Where nothing else changes the file system,
    [waitForBootloaderMode] returns only when the volume was ready when it
    was called, it leaves the file system as it was, and the writability
    check of the copy attempt that follows passes: that attempt fails
    only when the copy itself fails. *)
Theorem detected_volume_passes_check
    (fuel : nat) (side side' : Side) (firmwarePath : string) (w : World) :
  quiet (env w) ->
  outcome (waitForBootloaderMode fuel side w) = Ret tt ->
  let w1 := world (waitForBootloaderMode fuel side w) in
  ready (fs w) = true
  /\ fs w1 = fs w
  /\ Fs.access NICENANO_VOLUME Fs.W_OK (fs (checked_world side' w1)) = inr tt
  /\ outcome (copy_attempt firmwarePath side' w1)
     = match Fs.copy (clock (checked_world side' w1)) firmwarePath
               (destination firmwarePath) (fs w) with
       | inl e => Throw e
       | inr _ => Ret tt
       end.
Proof.
  intros Hq. rewrite waitForBootloaderMode_run. cbn zeta. cbn [outcome world].
  intros Hret. destruct (quiet_wait_loop side fuel w Hq Hret) as (Hready & Hfs & Henv).
  revert Hfs Henv. generalize (world (wait_loop fuel side w)) as w1.
  intros w1 Hfs Henv.
  destruct (quiet_checked_world side' w1) as [Hcf _]; [now rewrite Henv|].
  assert (Hacc : Fs.access NICENANO_VOLUME Fs.W_OK (fs (checked_world side' w1))
                 = inr tt).
  { rewrite Hcf, Hfs. unfold ready in Hready.
    apply andb_true_iff in Hready as [Hready Hw].
    apply andb_true_iff in Hready as [Hex _].
    now rewrite (access_writable _ _ Hex), Hw. }
  split; [exact Hready|]. split; [exact Hfs|]. split; [exact Hacc|].
  rewrite copy_attempt_outcome, Hacc, Hcf, Hfs. reflexivity.
Qed.

(** The volume is there from the start and nothing else happens: the
    check of the attempt that follows the detection passes. *)
Lemma detected_volume_passes_check_witness :
  Fs.access NICENANO_VOLUME Fs.W_OK
    (fs (checked_world Left (world (waitForBootloaderMode 3 Left Sample.w_mounted))))
  = inr tt.
Proof.
  apply (detected_volume_passes_check 3 Left Left Sample.firmwarePath Sample.w_mounted).
  - intros now fs. reflexivity.
  - vm_compute. reflexivity.
Defined.

(** ** The age shown for an archive *)

Lemma zip_stat_labelled (folder file : string) (w : World) :
  world (zip_stat folder file w) = w
  /\ forall i, outcome (zip_stat folder file w) = Ret i -> labelled (clock w) i.
Proof.
  unfold zip_stat, fs_stat. cbn zeta.
  generalize (Path.join folder file) as p. intros p.
  destruct (Fs.stat p (fs w)) as [e|st] eqn:Hst.
  - split; step_binds; rewrite fs_read_run, Hst; [reflexivity | discriminate].
  - split; step_binds; rewrite fs_read_run, Hst; step_binds;
      rewrite formatRelativeTime_label; [reflexivity|].
    cbn [outcome]. intros i Hi. injection Hi as <-. reflexivity.
Qed.

Lemma promise_all_labelled (folder : string) (names : list string) (w : World) :
  world (promise_all (map (zip_stat folder) names) w) = w
  /\ forall l,
       outcome (promise_all (map (zip_stat folder) names) w) = Ret l ->
       Forall (labelled (clock w)) l.
Proof.
  induction names as [|f names IH]; cbn [map promise_all].
  - split; [reflexivity|]. intros l Hl. injection Hl as <-. constructor.
  - destruct IH as [IHw IH]. destruct (zip_stat_labelled folder f w) as [Hw Hi].
    revert Hw Hi. generalize (zip_stat folder f w) as rz. intros rz Hw Hi.
    cbn zeta. rewrite Hw.
    revert IHw IH. generalize (promise_all (map (zip_stat folder) names) w) as rr.
    intros rr IHw IH.
    destruct (outcome rz) as [i|e|c|] eqn:Hrz; cbn [outcome world].
    + split; [exact IHw|]. intros l Hl.
      destruct (outcome rr) as [l'|e|c|]; try discriminate Hl.
      injection Hl as <-. constructor; [now apply Hi | now apply IH].
    + split; [exact IHw|]. intros l Hl.
      destruct (outcome rr); discriminate Hl.
    + split; [reflexivity | discriminate].
    + split; [reflexivity | discriminate].
Qed.

Lemma sort_labelled (now : Z) (l : list FileInfo) :
  Forall (labelled now) l -> Forall (labelled now) (Js.sort newest_first l).
Proof.
  apply Permutation_Forall. apply Permutation_sym, sort_perm.
Qed.

(** X15.  The age [getZipFiles] attaches to an archive is the age of
    its modification time at the time of the listing: every returned
    entry is labelled [age_label] of the clock minus its timestamp. *)
Theorem getZipFiles_labels_by_age (w : World) (infos : list FileInfo) :
  outcome (getZipFiles w) = Ret infos ->
  Forall (labelled (clock w)) infos.
Proof.
  unfold getZipFiles, fs_readdir, console_error.
  rewrite try_catch_outcome. step_binds. rewrite fs_read_run.
  destruct (Fs.readdir (DOWNLOADS_FOLDER (env w)) (fs w)) as [e|files].
  - cbn [outcome world]. intros Hl. injection Hl as <-. constructor.
  - cbn [outcome world]. cbn zeta. step_binds.
    destruct (promise_all_labelled (DOWNLOADS_FOLDER (env w))
                (filter (fun file => Js.endsWith file ".zip") files) w) as [_ Hlab].
    revert Hlab.
    generalize (promise_all
                  (map (zip_stat (DOWNLOADS_FOLDER (env w)))
                     (filter (fun file => Js.endsWith file ".zip") files)) w) as rr.
    intros rr Hlab.
    destruct (outcome rr) as [l|e|c|]; cbn [outcome]; intros Hl;
      try discriminate Hl; injection Hl as <-.
    + now apply sort_labelled, Hlab.
    + constructor.
Qed.

(** The folder of the sample, listed at time 100000: the archive written
    at 5000 is "1 minute ago", the one written at 1000 too. *)
Lemma getZipFiles_labels_by_age_witness :
  exists a b,
    outcome (getZipFiles Sample.w_downloads) = Ret [a; b]
    /\ relativeTime a = "1 minute ago" /\ relativeTime b = "1 minute ago".
Proof.
  assert (H : exists a b, outcome (getZipFiles Sample.w_downloads) = Ret [a; b])
    by (eexists _, _; vm_compute; reflexivity).
  destruct H as (a & b & Ho). exists a, b. split; [exact Ho|].
  pose proof (getZipFiles_labels_by_age Sample.w_downloads [a; b] Ho) as Hl.
  inversion Hl as [|? ? Ha Hl']; subst. inversion Hl' as [|? ? Hb _]; subst.
  unfold labelled in Ha, Hb. vm_compute in Ho.
  injection Ho as <- <-. split; [exact Ha | exact Hb].
Defined.
